(** * NovaVoice: a shallow embedding of the voice engine's core

    The development follows the C++ sources of the engine:
    - [Config]      src/config/Config.h
    - [Buffer]      BufferManager.h / BufferManager.cpp
    - [Codec]       LyraCodec.h / LyraCodec.cpp
    - [Udp]         UDPManager.h / UDPManager.cpp
    - [Bitrate], [BitrateLocks]
                    BitrateCalculator.h / BitrateCalculator.cpp
    - [Preproc]     AudioPreprocessor.h / AudioPreprocessor.cpp
    - [Capture]     AudioCapture.h / AudioCapture.cpp
    - [Player]      AudioPlayer.h / AudioPlayer.cpp
    - [Noise]       NoiseSuppresor.h / NoiseSuppresor.cpp

    Conventions.  Fixed-width integers are [Z] with the wrap-around written
    out ([wrap32], [wrap64]).  Bytes are [Byte.byte].  [float] is IEEE-754
    binary32, evaluated in single precision with round-to-nearest-even, given
    by the standard library's [SpecFloat] at precision 24.  Objects that the
    code copies with [memcpy] or [reinterpret_cast] are laid out in the byte
    order of the host, which is a parameter of the functions that do so.
    Threads and clocks are not modelled: every method is described by what
    one caller computes, what another thread or a device contributes is an
    argument, and so is a time stamp.  A mutex matters to one caller where
    that caller takes it twice; [BitrateLocks] writes those guards out. *)

From Stdlib Require Import ZArith List Bool Lia.
From Stdlib Require Import Strings.Byte.
From Stdlib Require Import Floats.SpecFloat.
Import ListNotations.
Local Open Scope Z_scope.

(** ** Config.h *)

Module Config.
Definition SAMPLE_RATE : Z := 48000.
Definition CHANNELS : Z := 1.
Definition FRAMES_PER_BUFFER : Z := 1024.
Definition LYRA_SAMPLE_RATE : Z := 16000.
Definition LYRA_FRAME_SIZE_MS : Z := 20.
Definition LYRA_FRAME_SIZE : Z := (LYRA_SAMPLE_RATE * LYRA_FRAME_SIZE_MS) / 1000.
Definition LYRA_MIN_BITRATE : Z := 3200.
Definition LYRA_MAX_BITRATE : Z := 9200.
Definition LYRA_DEFAULT_BITRATE : Z := 6000.
Definition RNNOISE_SAMPLE_RATE : Z := 48000.
Definition RNNOISE_FRAME_SIZE : Z := 480.
Definition PACKET_SIZE : Z := 1024.
Definition BUFFER_COUNT : Z := 10.
End Config.

(** ** Machine integers, bytes and object representations *)

Module Machine.

Definition wrap32 (z : Z) : Z := z mod 2 ^ 32.
Definition wrap64 (z : Z) : Z := z mod 2 ^ 64.

(** [x++] on a [uint32_t] and on a [uint64_t]. *)
Definition incr32 (z : Z) : Z := wrap32 (z + 1).
Definition incr64 (z : Z) : Z := wrap64 (z + 1).

Definition is_uint32 (z : Z) : Prop := 0 <= z < 2 ^ 32.
Definition is_int16 (z : Z) : Prop := - 32768 <= z <= 32767.

Definition Z_of_byte (b : byte) : Z := Z.of_N (Byte.to_N b).

Definition byte_of_Z (z : Z) : byte :=
  match Byte.of_N (Z.to_N (z mod 256)) with
  | Some b => b
  | None => x00
  end.

(** Byte order of the host: what [memcpy] from and to an integer object
    produces and consumes. *)
Inductive byte_order : Type := LittleEndian | BigEndian.

(** The [n] low-order bytes of [z], least significant first. *)
Fixpoint le_bytes (n : nat) (z : Z) : list byte :=
  match n with
  | O => []
  | S k => byte_of_Z z :: le_bytes k (z / 256)
  end.

Fixpoint le_value (bs : list byte) : Z :=
  match bs with
  | [] => 0
  | b :: rest => Z_of_byte b + 256 * le_value rest
  end.

(** Object representation of an [n]-byte unsigned integer on the host. *)
Definition object_bytes (host : byte_order) (n : nat) (z : Z) : list byte :=
  match host with
  | LittleEndian => le_bytes n z
  | BigEndian => rev (le_bytes n z)
  end.

Definition object_value (host : byte_order) (bs : list byte) : Z :=
  match host with
  | LittleEndian => le_value bs
  | BigEndian => le_value (rev bs)
  end.

(** Two's complement [int16_t]. *)
Definition int16_of_uint16 (u : Z) : Z :=
  if u <? 32768 then u else u - 65536.

Definition int16_bytes (host : byte_order) (s : Z) : list byte :=
  object_bytes host 2 (s mod 65536).

Definition int16_value (host : byte_order) (bs : list byte) : Z :=
  int16_of_uint16 (object_value host bs).

End Machine.

(** ** IEEE-754 binary32 *)

Module F32.

Definition prec : Z := 24.
Definition emax : Z := 128.

Definition float : Type := spec_float.

(** Conversion of an integer to [float] (exact below [2^24], rounded to
    nearest even above). *)
Definition of_Z (z : Z) : float := binary_normalize prec emax z 0 false.

Definition add : float -> float -> float := SFadd prec emax.
Definition sub : float -> float -> float := SFsub prec emax.
Definition mul : float -> float -> float := SFmul prec emax.
Definition div : float -> float -> float := SFdiv prec emax.
Definition abs : float -> float := SFabs.
Definition ltb : float -> float -> bool := SFltb.
Definition leb : float -> float -> bool := SFleb.
Definition gtb (x y : float) : bool := SFltb y x.
Definition geb (x y : float) : bool := SFleb y x.

(** A decimal literal [n/d] with the suffix [f]: the binary32 number
    nearest to the quotient. *)
Definition lit (n d : Z) : float := div (of_Z n) (of_Z d).

(** [std::max(a, b)] is [(a < b) ? b : a]; [std::min(a, b)] is
    [(b < a) ? b : a]. *)
Definition max (a b : float) : float := if ltb a b then b else a.
Definition min (a b : float) : float := if ltb b a then b else a.

(** The integer part of a finite number, rounding toward zero. *)
Definition trunc (x : float) : option Z :=
  match x with
  | S754_zero _ => Some 0
  | S754_finite s m e =>
      let mag := if 0 <=? e then Z.pos m * 2 ^ e else Z.pos m / 2 ^ (- e) in
      Some (if s then - mag else mag)
  | S754_infinity _ | S754_nan => None
  end.

(** [static_cast] of a [float] to an integer type with the range
    [lo .. hi].  The conversion truncates; when the truncated value does not
    fit (or the number is not finite) the language leaves the result
    undefined, and the model takes it from [undef], reduced into the range. *)
Definition to_int (undef : float -> Z) (lo hi : Z) (x : float) : Z :=
  match trunc x with
  | Some z =>
      if (lo <=? z) && (z <=? hi) then z
      else lo + (undef x - lo) mod (hi - lo + 1)
  | None => lo + (undef x - lo) mod (hi - lo + 1)
  end.

Definition to_uint32 (undef : float -> Z) : float -> Z :=
  to_int undef 0 (2 ^ 32 - 1).
Definition to_int16 (undef : float -> Z) : float -> Z :=
  to_int undef (- 32768) 32767.
Definition to_uint64 (undef : float -> Z) : float -> Z :=
  to_int undef 0 (2 ^ 64 - 1).
Definition sqrt : float -> float := SFsqrt prec emax.

End F32.

(** ** BufferManager.h, BufferManager.cpp *)

Module Buffer.
Import Machine.

(** [struct AudioPacket]; the [timestamp] member (a clock reading taken by
    the constructor) is left out. *)
Record AudioPacket : Type := mkAudioPacket {
  data : list byte;
  sequenceNumber : Z;
  size : Z
}.

(** [AudioPacket(audioData, dataSize, seqNum)] on a buffer holding exactly
    [dataSize] bytes. *)
Definition newAudioPacket (audioData : list byte) (seqNum : Z) : AudioPacket :=
  mkAudioPacket audioData (wrap32 seqNum) (Z.of_nat (length audioData)).

(** A [std::queue]: the front is the head of the list. *)
Definition queue : Type := list AudioPacket.

Record BufferManager : Type := mkBufferManager {
  inputBuffer_ : queue;
  outputBuffer_ : queue;
  maxBufferSize_ : Z;
  nextSequenceNumber_ : Z;
  droppedPackets_ : Z;
  totalPackets_ : Z
}.

(** [BufferManager::BufferManager()] *)
Definition new : BufferManager :=
  mkBufferManager [] [] Config.BUFFER_COUNT 0 0 0.

(** [isBufferFull(buffer)] *)
Definition isBufferFull (b : BufferManager) (buffer : queue) : bool :=
  maxBufferSize_ b <=? Z.of_nat (length buffer).

(** [removeOldPackets(buffer)]: pop the front when there is one. *)
Definition removeOldPackets (buffer : queue) : queue :=
  match buffer with
  | [] => []
  | _ :: rest => rest
  end.

(** [pushAudioPacket(packet)]; [None] is the null pointer. *)
Definition pushAudioPacket (b : BufferManager) (packet : option AudioPacket)
  : bool * BufferManager :=
  match packet with
  | None => (false, b)
  | Some p =>
      let full := isBufferFull b (inputBuffer_ b) in
      let q := if full then removeOldPackets (inputBuffer_ b) else inputBuffer_ b in
      let dropped := if full then incr64 (droppedPackets_ b) else droppedPackets_ b in
      (true,
       mkBufferManager (q ++ [p]) (outputBuffer_ b) (maxBufferSize_ b)
         (nextSequenceNumber_ b) dropped (incr64 (totalPackets_ b)))
  end.

(** [popAudioPacket()] *)
Definition popAudioPacket (b : BufferManager) : option AudioPacket * BufferManager :=
  match inputBuffer_ b with
  | [] => (None, b)
  | p :: rest =>
      (Some p,
       mkBufferManager rest (outputBuffer_ b) (maxBufferSize_ b)
         (nextSequenceNumber_ b) (droppedPackets_ b) (totalPackets_ b))
  end.

(** [pushInputBuffer(data, size)] with a non-null [data] of [size] bytes. *)
Definition pushInputBuffer (b : BufferManager) (bytes : list byte)
  : bool * BufferManager :=
  match bytes with
  | [] => (false, b)
  | _ =>
      let packet := newAudioPacket bytes (nextSequenceNumber_ b) in
      pushAudioPacket
        (mkBufferManager (inputBuffer_ b) (outputBuffer_ b) (maxBufferSize_ b)
           (incr32 (nextSequenceNumber_ b)) (droppedPackets_ b) (totalPackets_ b))
        (Some packet)
  end.

(** [getNextOutputPacket()] *)
Definition getNextOutputPacket := popAudioPacket.

(** [pushNetworkPacket(packet)] *)
Definition pushNetworkPacket (b : BufferManager) (packet : option AudioPacket)
  : bool * BufferManager :=
  match packet with
  | None => (false, b)
  | Some p =>
      let full := isBufferFull b (outputBuffer_ b) in
      let q := if full then removeOldPackets (outputBuffer_ b) else outputBuffer_ b in
      let dropped := if full then incr64 (droppedPackets_ b) else droppedPackets_ b in
      (true,
       mkBufferManager (inputBuffer_ b) (q ++ [p]) (maxBufferSize_ b)
         (nextSequenceNumber_ b) dropped (totalPackets_ b))
  end.

(** [getNextPlaybackPacket()]: the bounded wait ends with the queue as the
    caller finds it; an empty queue gives the null pointer. *)
Definition getNextPlaybackPacket (b : BufferManager)
  : option AudioPacket * BufferManager :=
  match outputBuffer_ b with
  | [] => (None, b)
  | p :: rest =>
      (Some p,
       mkBufferManager (inputBuffer_ b) rest (maxBufferSize_ b)
         (nextSequenceNumber_ b) (droppedPackets_ b) (totalPackets_ b))
  end.

Definition getInputBufferSize (b : BufferManager) : Z :=
  Z.of_nat (length (inputBuffer_ b)).
Definition getOutputBufferSize (b : BufferManager) : Z :=
  Z.of_nat (length (outputBuffer_ b)).
Definition getDroppedPackets (b : BufferManager) : Z := droppedPackets_ b.
Definition getTotalPackets (b : BufferManager) : Z := totalPackets_ b.

(** [clearBuffers()] *)
Definition clearBuffers (b : BufferManager) : BufferManager :=
  mkBufferManager [] [] (maxBufferSize_ b) 0 (droppedPackets_ b) (totalPackets_ b).

(** [setMaxBufferSize(maxSize)] *)
Definition setMaxBufferSize (b : BufferManager) (maxSize : Z) : BufferManager :=
  mkBufferManager (inputBuffer_ b) (outputBuffer_ b) maxSize
    (nextSequenceNumber_ b) (droppedPackets_ b) (totalPackets_ b).

(** Calls a client makes on a buffer whose capacity stays fixed. *)
Inductive op : Type :=
| PushAudio (packet : option AudioPacket)
| PopAudio
| PushInput (bytes : list byte)
| PushNetwork (packet : option AudioPacket)
| NextPlayback
| Clear.

Definition step (b : BufferManager) (o : op) : BufferManager :=
  match o with
  | PushAudio p => snd (pushAudioPacket b p)
  | PopAudio => snd (popAudioPacket b)
  | PushInput bytes => snd (pushInputBuffer b bytes)
  | PushNetwork p => snd (pushNetworkPacket b p)
  | NextPlayback => snd (getNextPlaybackPacket b)
  | Clear => clearBuffers b
  end.

Definition run (b : BufferManager) (ops : list op) : BufferManager :=
  fold_left step ops b.

(** Push every packet of [ps], oldest first. *)
Definition pushAll (b : BufferManager) (ps : list AudioPacket) : BufferManager :=
  fold_left (fun acc p => snd (pushAudioPacket acc (Some p))) ps b.

(** Pop until the null pointer comes back; [fuel] bounds the number of
    calls. *)
Fixpoint popAll (fuel : nat) (b : BufferManager) : list AudioPacket :=
  match fuel with
  | O => []
  | S k =>
      match popAudioPacket b with
      | (None, _) => []
      | (Some p, b') => p :: popAll k b'
      end
  end.

(** A frame whose only content of interest is its sequence number. *)
Definition frame (seqNum : Z) : AudioPacket := newAudioPacket [] seqNum.

End Buffer.

(** ** LyraCodec.h, LyraCodec.cpp *)

Module Codec.
Import Machine.

(** [struct EncodedPacket] *)
Record EncodedPacket : Type := mkEncodedPacket {
  data : list byte;
  sequenceNumber : Z;
  bitrate : Z;
  timestamp : Z
}.

Record LyraCodec : Type := mkLyraCodec {
  initialized_ : bool;
  sampleRate_ : Z;
  channels_ : Z;
  currentBitrate_ : Z;
  frameSize_ : Z;
  nextSequenceNumber_ : Z;
  encodedFrames_ : Z;
  decodedFrames_ : Z;
  encodingErrors_ : Z;
  decodingErrors_ : Z
}.

(** [LyraCodec::LyraCodec()] *)
Definition new : LyraCodec :=
  mkLyraCodec false Config.LYRA_SAMPLE_RATE Config.CHANNELS
    Config.LYRA_DEFAULT_BITRATE Config.LYRA_FRAME_SIZE 0 0 0 0 0.

Definition countEncodingError (c : LyraCodec) : LyraCodec :=
  mkLyraCodec (initialized_ c) (sampleRate_ c) (channels_ c) (currentBitrate_ c)
    (frameSize_ c) (nextSequenceNumber_ c) (encodedFrames_ c) (decodedFrames_ c)
    (incr64 (encodingErrors_ c)) (decodingErrors_ c).

Definition countDecodingError (c : LyraCodec) : LyraCodec :=
  mkLyraCodec (initialized_ c) (sampleRate_ c) (channels_ c) (currentBitrate_ c)
    (frameSize_ c) (nextSequenceNumber_ c) (encodedFrames_ c) (decodedFrames_ c)
    (encodingErrors_ c) (incr64 (decodingErrors_ c)).

(** [CodecUtils::isValidBitrate] *)
Definition isValidBitrate (br : Z) : bool :=
  (Config.LYRA_MIN_BITRATE <=? br) && (br <=? Config.LYRA_MAX_BITRATE).

(** [validateParameters] *)
Definition validateParameters (sampleRate channels br : Z) : bool :=
  if negb (channels =? 1) then false
  else if negb (sampleRate =? 16000) && negb (sampleRate =? 32000)
          && negb (sampleRate =? 48000) then false
  else if negb (isValidBitrate br) then false
  else true.

(** [initializeLyra()]: with or without [HAVE_LYRA] the library is reported
    absent. *)
Definition initializeLyra : bool := false.

(** [isLyraAvailable()]: the encoder and decoder handles are never set. *)
Definition isLyraAvailable : bool := false.

(** [initialize(sampleRate, channels, bitrate)] *)
Definition initialize (c : LyraCodec) (sampleRate channels br : Z)
  : bool * LyraCodec :=
  if initialized_ c then (false, c)
  else if negb (validateParameters sampleRate channels br) then (false, c)
  else
    (true,
     mkLyraCodec true sampleRate channels br
       (wrap32 (sampleRate * Config.LYRA_FRAME_SIZE_MS) / 1000)
       (nextSequenceNumber_ c) (encodedFrames_ c) (decodedFrames_ c)
       (encodingErrors_ c) (decodingErrors_ c)).

(** [cleanup()] *)
Definition cleanup (c : LyraCodec) : LyraCodec :=
  mkLyraCodec false (sampleRate_ c) (channels_ c) (currentBitrate_ c)
    (frameSize_ c) (nextSequenceNumber_ c) (encodedFrames_ c) (decodedFrames_ c)
    (encodingErrors_ c) (decodingErrors_ c).

(** [getExpectedInputSize()] *)
Definition getExpectedInputSize (c : LyraCodec) : Z :=
  wrap32 (frameSize_ c * channels_ c).

(** [validateInputSize(sampleCount)] *)
Definition validateInputSize (c : LyraCodec) (sampleCount : Z) : bool :=
  sampleCount =? getExpectedInputSize c.

(** [setBitrate(bitrate)] *)
Definition setBitrate (c : LyraCodec) (br : Z) : bool * LyraCodec :=
  if negb (isValidBitrate br) then (false, c)
  else
    (true,
     mkLyraCodec (initialized_ c) (sampleRate_ c) (channels_ c) br
       (frameSize_ c) (nextSequenceNumber_ c) (encodedFrames_ c)
       (decodedFrames_ c) (encodingErrors_ c) (decodingErrors_ c)).

Section HostOrder.
Variable host : byte_order.

(** [encodeRaw]: the bytes of the sample array as they lie in memory. *)
Definition encodeRaw (samples : list Z) : list byte :=
  flat_map (int16_bytes host) samples.

(** The [int16_t] array that [memcpy] builds from an even number of
    bytes. *)
Fixpoint samples_of_bytes (bytes : list byte) : list Z :=
  match bytes with
  | b0 :: b1 :: rest => int16_value host [b0; b1] :: samples_of_bytes rest
  | _ => []
  end.

(** [decodeRaw] *)
Definition decodeRaw (bytes : list byte) : list Z :=
  if negb (Z.of_nat (length bytes) mod 2 =? 0) then []
  else samples_of_bytes bytes.

(** [encode(audioData, sampleCount)] on an array of [sampleCount]
    samples; a null pointer takes the branch of the empty array.  [now] is
    the reading of the steady clock in milliseconds. *)
Definition encode (c : LyraCodec) (now : Z) (samples : list Z)
  : option EncodedPacket * LyraCodec :=
  if negb (initialized_ c) then (None, countEncodingError c)
  else if Z.of_nat (length samples) =? 0 then (None, countEncodingError c)
  else if negb (validateInputSize c (Z.of_nat (length samples)))
  then (None, countEncodingError c)
  else
    let encodedData := encodeRaw samples in
    match encodedData with
    | [] => (None, countEncodingError c)
    | _ =>
        (Some (mkEncodedPacket encodedData (nextSequenceNumber_ c)
                 (currentBitrate_ c) now),
         mkLyraCodec (initialized_ c) (sampleRate_ c) (channels_ c)
           (currentBitrate_ c) (frameSize_ c)
           (incr32 (nextSequenceNumber_ c)) (incr64 (encodedFrames_ c))
           (decodedFrames_ c) (encodingErrors_ c) (decodingErrors_ c))
    end.

(** [decode(encodedData, dataSize)] on [dataSize] bytes; a null pointer
    takes the branch of the empty array. *)
Definition decode (c : LyraCodec) (encodedData : list byte)
  : option (list Z) * LyraCodec :=
  if negb (initialized_ c) then (None, countDecodingError c)
  else if Z.of_nat (length encodedData) =? 0 then (None, countDecodingError c)
  else
    let decodedAudio := decodeRaw encodedData in
    match decodedAudio with
    | [] => (None, countDecodingError c)
    | _ =>
        (Some decodedAudio,
         mkLyraCodec (initialized_ c) (sampleRate_ c) (channels_ c)
           (currentBitrate_ c) (frameSize_ c) (nextSequenceNumber_ c)
           (encodedFrames_ c) (incr64 (decodedFrames_ c))
           (encodingErrors_ c) (decodingErrors_ c))
    end.

(** [decode(packet)] *)
Definition decodePacket (c : LyraCodec) (packet : EncodedPacket)
  : option (list Z) * LyraCodec :=
  decode c (data packet).

(** The result of a [float]-to-integer conversion whose value does not
    fit. *)
Variable undef : F32.float -> Z.

(** [simpleSampleRateConversion]: linear interpolation. *)
Definition simpleSampleRateConversion (input : list Z) (inputRate outputRate : Z)
  : list Z :=
  if inputRate =? outputRate then input
  else
    let inputSamples := Z.of_nat (length input) in
    let ratio := F32.div (F32.of_Z outputRate) (F32.of_Z inputRate) in
    let outputSamples :=
      F32.to_uint64 undef (F32.mul (F32.of_Z inputSamples) ratio) in
    map
      (fun i : nat =>
         let sourceIndex := F32.div (F32.of_Z (Z.of_nat i)) ratio in
         let index := F32.to_uint64 undef sourceIndex in
         if wrap64 (inputSamples - 1) <=? index
         then nth (Z.to_nat (inputSamples - 1)) input 0
         else
           let fraction := F32.sub sourceIndex (F32.of_Z index) in
           F32.to_int16 undef
             (F32.add
                (F32.mul (F32.of_Z (nth (Z.to_nat index) input 0))
                   (F32.sub (F32.of_Z 1) fraction))
                (F32.mul (F32.of_Z (nth (Z.to_nat (index + 1)) input 0))
                   fraction)))
      (seq 0 (Z.to_nat outputSamples)).

(** [resampleTo16kHz] *)
Definition resampleTo16kHz (input : list Z) (inputSampleRate : Z) : list Z :=
  if inputSampleRate =? Config.LYRA_SAMPLE_RATE then input
  else simpleSampleRateConversion input inputSampleRate Config.LYRA_SAMPLE_RATE.

(** [resampleFromLyra] *)
Definition resampleFromLyra (input : list Z) (targetSampleRate : Z) : list Z :=
  if targetSampleRate =? Config.LYRA_SAMPLE_RATE then input
  else simpleSampleRateConversion input Config.LYRA_SAMPLE_RATE targetSampleRate.

(** The calls of an encoder session, and the packets it emits. *)
Inductive op : Type :=
| Initialize (sampleRate channels br : Z)
| Encode (now : Z) (samples : list Z)
| Decode (encodedData : list byte)
| SetBitrate (br : Z).

Fixpoint session (c : LyraCodec) (ops : list op)
  : list EncodedPacket * LyraCodec :=
  match ops with
  | [] => ([], c)
  | Encode now samples :: rest =>
      let (r, c') := encode c now samples in
      let (ps, c'') := session c' rest in
      (match r with Some p => p :: ps | None => ps end, c'')
  | Initialize sampleRate channels br :: rest =>
      session (snd (initialize c sampleRate channels br)) rest
  | Decode bytes :: rest => session (snd (decode c bytes)) rest
  | SetBitrate br :: rest => session (snd (setBitrate c br)) rest
  end.

End HostOrder.

End Codec.

(** ** UDPManager.h, UDPManager.cpp *)

Module Udp.
Import Machine.
Import Buffer.

(** A peer address: IPv4 address and port. *)
Definition sockaddr : Type := (Z * Z)%type.

(** An invocation of one of the two callbacks a client may install. *)
Inductive event : Type :=
| PacketReceived (packet : AudioPacket)
| DataReceived (bytes : list byte).

(** [class UDPManager].  The buffer manager is the one object the manager
    holds a pointer to; [onDataReceived_] and [onPacketReceived_] tell
    whether a callback is installed, and [invoked] lists the calls made to
    them, oldest first. *)
Record UDPManager : Type := mkUDPManager {
  socketFd_ : Z;
  remoteAddr_ : sockaddr;
  isRunning_ : bool;
  isServer_ : bool;
  bufferManager_ : option BufferManager;
  onDataReceived_ : bool;
  onPacketReceived_ : bool;
  sentPackets_ : Z;
  receivedPackets_ : Z;
  failedSends_ : Z;
  invoked : list event
}.

(** [UDPManager::UDPManager()] *)
Definition new : UDPManager :=
  mkUDPManager (-1) (0, 0) false false None false false 0 0 0 [].

(** The statistics the class exposes: [getSentPackets()],
    [getReceivedPackets()], [getFailedSends()]. *)
Definition counters (u : UDPManager) : Z * Z * Z :=
  (sentPackets_ u, receivedPackets_ u, failedSends_ u).

Definition setBufferManager (u : UDPManager) (bm : BufferManager) : UDPManager :=
  mkUDPManager (socketFd_ u) (remoteAddr_ u) (isRunning_ u) (isServer_ u)
    (Some bm) (onDataReceived_ u) (onPacketReceived_ u)
    (sentPackets_ u) (receivedPackets_ u) (failedSends_ u) (invoked u).

Definition setOnDataReceived (u : UDPManager) : UDPManager :=
  mkUDPManager (socketFd_ u) (remoteAddr_ u) (isRunning_ u) (isServer_ u)
    (bufferManager_ u) true (onPacketReceived_ u)
    (sentPackets_ u) (receivedPackets_ u) (failedSends_ u) (invoked u).

Definition setOnPacketReceived (u : UDPManager) : UDPManager :=
  mkUDPManager (socketFd_ u) (remoteAddr_ u) (isRunning_ u) (isServer_ u)
    (bufferManager_ u) (onDataReceived_ u) true
    (sentPackets_ u) (receivedPackets_ u) (failedSends_ u) (invoked u).

(** [startServer(port)] when the socket is created and bound as [fd];
    [None] stands for a failure of [createSocket] or [bindSocket]. *)
Definition startServer (u : UDPManager) (fd : option Z) : bool * UDPManager :=
  if isRunning_ u then (false, u)
  else
    match fd with
    | None => (false, u)
    | Some d =>
        (true,
         mkUDPManager d (remoteAddr_ u) true true
           (bufferManager_ u) (onDataReceived_ u) (onPacketReceived_ u)
           (sentPackets_ u) (receivedPackets_ u) (failedSends_ u) (invoked u))
    end.

(** [startClient(serverIP, port)] when the socket is created as [fd] and
    the address parses to [remote]. *)
Definition startClient (u : UDPManager) (fd : option Z) (remote : sockaddr)
  : bool * UDPManager :=
  if isRunning_ u then (false, u)
  else
    match fd with
    | None => (false, u)
    | Some d =>
        (true,
         mkUDPManager d remote true false
           (bufferManager_ u) (onDataReceived_ u) (onPacketReceived_ u)
           (sentPackets_ u) (receivedPackets_ u) (failedSends_ u) (invoked u))
    end.

Definition withBuffer (u : UDPManager) (bm : BufferManager) : UDPManager :=
  setBufferManager u bm.

Definition withRemote (u : UDPManager) (remote : sockaddr) : UDPManager :=
  mkUDPManager (socketFd_ u) remote (isRunning_ u) (isServer_ u)
    (bufferManager_ u) (onDataReceived_ u) (onPacketReceived_ u)
    (sentPackets_ u) (receivedPackets_ u) (failedSends_ u) (invoked u).

Definition invoke (u : UDPManager) (e : event) : UDPManager :=
  mkUDPManager (socketFd_ u) (remoteAddr_ u) (isRunning_ u) (isServer_ u)
    (bufferManager_ u) (onDataReceived_ u) (onPacketReceived_ u)
    (sentPackets_ u) (receivedPackets_ u) (failedSends_ u) (invoked u ++ [e]).

Definition countReceived (u : UDPManager) : UDPManager :=
  mkUDPManager (socketFd_ u) (remoteAddr_ u) (isRunning_ u) (isServer_ u)
    (bufferManager_ u) (onDataReceived_ u) (onPacketReceived_ u)
    (sentPackets_ u) (incr64 (receivedPackets_ u)) (failedSends_ u) (invoked u).

Definition countSent (u : UDPManager) : UDPManager :=
  mkUDPManager (socketFd_ u) (remoteAddr_ u) (isRunning_ u) (isServer_ u)
    (bufferManager_ u) (onDataReceived_ u) (onPacketReceived_ u)
    (incr64 (sentPackets_ u)) (receivedPackets_ u) (failedSends_ u) (invoked u).

Definition countFailedSend (u : UDPManager) : UDPManager :=
  mkUDPManager (socketFd_ u) (remoteAddr_ u) (isRunning_ u) (isServer_ u)
    (bufferManager_ u) (onDataReceived_ u) (onPacketReceived_ u)
    (sentPackets_ u) (receivedPackets_ u) (incr64 (failedSends_ u)) (invoked u).

Section HostOrder.
Variable host : byte_order.

(** [serializePacket(packet)]: the object bytes of the sequence number,
    then the audio data. *)
Definition serializePacket (packet : option AudioPacket) : list byte :=
  match packet with
  | None => []
  | Some p => object_bytes host 4 (sequenceNumber p) ++ data p
  end.

(** [deserializePacket(data, size)] on a non-null [data]. *)
Definition deserializePacket (bytes : list byte) : option AudioPacket :=
  if Z.of_nat (length bytes) <? 4 then None
  else
    let sequenceNumber := object_value host (firstn 4 bytes) in
    Some (newAudioPacket (skipn 4 bytes) sequenceNumber).

(** [processReceivedData(data, size, fromAddr)] *)
Definition processReceivedData (u : UDPManager) (bytes : list byte)
    (fromAddr : sockaddr) : bool * UDPManager :=
  if Z.of_nat (length bytes) =? 0 then (false, u)
  else
    let u1 := if isServer_ u then withRemote u fromAddr else u in
    let u2 :=
      match deserializePacket bytes with
      | Some p =>
          let u' :=
            match bufferManager_ u1 with
            | Some bm => withBuffer u1 (snd (pushNetworkPacket bm (Some p)))
            | None => u1
            end in
          if onPacketReceived_ u' then invoke u' (PacketReceived p) else u'
      | None => u1
      end in
    let u3 := if onDataReceived_ u2 then invoke u2 (DataReceived bytes) else u2 in
    (true, u3).

(** What one call of [recvfrom] returns: an error, or a datagram and its
    source. *)
Inductive recv : Type :=
| RecvError
| Datagram (bytes : list byte) (fromAddr : sockaddr).

(** The bytes [recvfrom] stores: the receive buffer holds
    [2 * PACKET_SIZE] bytes and the rest of a longer datagram is lost. *)
Definition received (bytes : list byte) : list byte :=
  firstn (Z.to_nat (Config.PACKET_SIZE * 2)) bytes.

(** One turn of the loop body on a datagram. *)
Definition receiveDatagram (u : UDPManager) (bytes : list byte)
    (fromAddr : sockaddr) : UDPManager :=
  let buffer := received bytes in
  if 0 <? Z.of_nat (length buffer)
  then countReceived (snd (processReceivedData u buffer fromAddr))
  else u.

(** [receiverLoop()] over the results of its successive [recvfrom] calls.
    The loop leaves on an error and when [isRunning_] is cleared; at the
    end of [incoming] it is blocked in [recvfrom]. *)
Fixpoint receiverLoop (u : UDPManager) (incoming : list recv) : UDPManager :=
  if isRunning_ u then
    match incoming with
    | [] => u
    | RecvError :: _ => u
    | Datagram bytes fromAddr :: rest =>
        receiverLoop (receiveDatagram u bytes fromAddr) rest
    end
  else u.

(** [sendData(data, size)] on a non-null [data]; [bytesSent] is the
    result of [sendto]. *)
Definition sendData (u : UDPManager) (bytes : list byte) (bytesSent : Z)
  : bool * UDPManager :=
  if (Z.of_nat (length bytes) =? 0) || negb (isRunning_ u) || (socketFd_ u <? 0)
  then (false, u)
  else if bytesSent <? 0 then (false, countFailedSend u)
  else if negb (bytesSent =? Z.of_nat (length bytes)) then (false, countFailedSend u)
  else (true, countSent u).

(** [sendAudioPacket(packet)] *)
Definition sendAudioPacket (u : UDPManager) (packet : option AudioPacket)
    (bytesSent : Z) : bool * UDPManager :=
  match packet with
  | None => (false, u)
  | Some _ =>
      if negb (isRunning_ u) then (false, u)
      else sendData u (serializePacket packet) bytesSent
  end.

End HostOrder.

End Udp.

(** ** BitrateCalculator.h, BitrateCalculator.cpp

    [Bitrate] gives the values the methods compute and store, statement by
    statement, as if every call came back.  [BitrateLocks], after it, writes
    out the guards on [metricsMutex_] and tells which calls do come back:
    its runs are runs of [Bitrate], not the other way round. *)

Module Bitrate.
Import Machine.

(** [struct NetworkMetrics] *)
Record NetworkMetrics : Type := mkNetworkMetrics {
  packetLossRate : F32.float;
  averageLatency : Z;
  jitter : Z;
  bandwidth : F32.float
}.

Definition defaultNetworkMetrics : NetworkMetrics :=
  mkNetworkMetrics (F32.of_Z 0) 0 0 (F32.of_Z 0).

(** [struct AudioMetrics] *)
Record AudioMetrics : Type := mkAudioMetrics {
  signalToNoiseRatio : F32.float;
  averageVolume : F32.float;
  speechDetected : bool;
  compressionRatio : F32.float
}.

Definition defaultAudioMetrics : AudioMetrics :=
  mkAudioMetrics (F32.of_Z 0) (F32.of_Z 0) false (F32.of_Z 1).

Inductive QualityMode : Type := POWER_SAVE | BALANCED | HIGH_QUALITY | ADAPTIVE.

Definition QualityMode_eqb (a b : QualityMode) : bool :=
  match a, b with
  | POWER_SAVE, POWER_SAVE | BALANCED, BALANCED
  | HIGH_QUALITY, HIGH_QUALITY | ADAPTIVE, ADAPTIVE => true
  | _, _ => false
  end.

(** [class BitrateCalculator]; the time stamps kept beside the history are
    left out. *)
Record BitrateCalculator : Type := mkBitrateCalculator {
  initialized_ : bool;
  currentBitrate_ : Z;
  recommendedBitrate_ : Z;
  targetQuality_ : F32.float;
  adaptationSpeed_ : F32.float;
  stabilityThreshold_ : F32.float;
  qualityMode_ : QualityMode;
  autoAdaptationEnabled_ : bool;
  networkMetrics_ : NetworkMetrics;
  audioMetrics_ : AudioMetrics;
  bitrateHistory_ : list Z;
  maxHistorySize_ : Z;
  bitrateChanges_ : Z
}.

(** [BitrateCalculator::BitrateCalculator()] *)
Definition new : BitrateCalculator :=
  mkBitrateCalculator false Config.LYRA_DEFAULT_BITRATE Config.LYRA_DEFAULT_BITRATE
    (F32.lit 5 10) (F32.lit 3 10) (F32.lit 1 10) ADAPTIVE true
    defaultNetworkMetrics defaultAudioMetrics [] 100 0.

Definition withNetworkMetrics (c : BitrateCalculator) (m : NetworkMetrics) :=
  mkBitrateCalculator (initialized_ c) (currentBitrate_ c) (recommendedBitrate_ c)
    (targetQuality_ c) (adaptationSpeed_ c) (stabilityThreshold_ c)
    (qualityMode_ c) (autoAdaptationEnabled_ c) m (audioMetrics_ c)
    (bitrateHistory_ c) (maxHistorySize_ c) (bitrateChanges_ c).

Definition withAudioMetrics (c : BitrateCalculator) (m : AudioMetrics) :=
  mkBitrateCalculator (initialized_ c) (currentBitrate_ c) (recommendedBitrate_ c)
    (targetQuality_ c) (adaptationSpeed_ c) (stabilityThreshold_ c)
    (qualityMode_ c) (autoAdaptationEnabled_ c) (networkMetrics_ c) m
    (bitrateHistory_ c) (maxHistorySize_ c) (bitrateChanges_ c).

(** [clampBitrate] *)
Definition clampBitrate (br : Z) : Z :=
  Z.max Config.LYRA_MIN_BITRATE (Z.min Config.LYRA_MAX_BITRATE br).

(** The history vector after [addToHistory(bitrate)]. *)
Definition addToHistory (c : BitrateCalculator) (br : Z) : list Z :=
  let h := bitrateHistory_ c ++ [br] in
  if maxHistorySize_ c <? Z.of_nat (length h) then tl h else h.

(** The four statements that commit a bitrate: store it as current and as
    recommended, append it to the history, count the change. *)
Definition commit (c : BitrateCalculator) (br : Z) : BitrateCalculator :=
  mkBitrateCalculator (initialized_ c) br br
    (targetQuality_ c) (adaptationSpeed_ c) (stabilityThreshold_ c)
    (qualityMode_ c) (autoAdaptationEnabled_ c) (networkMetrics_ c)
    (audioMetrics_ c) (addToHistory c br) (maxHistorySize_ c)
    (incr64 (bitrateChanges_ c)).

(** [initialize(initialBitrate)] *)
Definition initialize (c : BitrateCalculator) (initialBitrate : Z)
  : bool * BitrateCalculator :=
  if initialized_ c then (true, c)
  else
    let br := clampBitrate initialBitrate in
    (true,
     mkBitrateCalculator true br br
       (targetQuality_ c) (adaptationSpeed_ c) (stabilityThreshold_ c)
       (qualityMode_ c) (autoAdaptationEnabled_ c) (networkMetrics_ c)
       (audioMetrics_ c) (addToHistory c br) (maxHistorySize_ c)
       (bitrateChanges_ c)).

(** [shutdown()] *)
Definition shutdown (c : BitrateCalculator) : BitrateCalculator :=
  if negb (initialized_ c) then c
  else
    mkBitrateCalculator false (currentBitrate_ c) (recommendedBitrate_ c)
      (targetQuality_ c) (adaptationSpeed_ c) (stabilityThreshold_ c)
      (qualityMode_ c) (autoAdaptationEnabled_ c) (networkMetrics_ c)
      (audioMetrics_ c) [] (maxHistorySize_ c) (bitrateChanges_ c).

(** [reportPacketLoss(totalPackets, lostPackets)] *)
Definition reportPacketLoss (c : BitrateCalculator) (totalPackets lostPackets : Z)
  : BitrateCalculator :=
  if totalPackets =? 0 then c
  else
    let lossRate := F32.div (F32.of_Z lostPackets) (F32.of_Z totalPackets) in
    withNetworkMetrics c
      (mkNetworkMetrics lossRate (averageLatency (networkMetrics_ c))
         (jitter (networkMetrics_ c)) (bandwidth (networkMetrics_ c))).

(** [reportBandwidth(bandwidthKbps)] *)
Definition reportBandwidth (c : BitrateCalculator) (bandwidthKbps : F32.float)
  : BitrateCalculator :=
  withNetworkMetrics c
    (mkNetworkMetrics (packetLossRate (networkMetrics_ c))
       (averageLatency (networkMetrics_ c)) (jitter (networkMetrics_ c))
       bandwidthKbps).

Definition clamp01 (x : F32.float) : F32.float :=
  F32.max (F32.of_Z 0) (F32.min (F32.of_Z 1) x).

(** [setTargetQuality(quality)] *)
Definition setTargetQuality (c : BitrateCalculator) (quality : F32.float) :=
  mkBitrateCalculator (initialized_ c) (currentBitrate_ c) (recommendedBitrate_ c)
    (clamp01 quality) (adaptationSpeed_ c) (stabilityThreshold_ c)
    (qualityMode_ c) (autoAdaptationEnabled_ c) (networkMetrics_ c)
    (audioMetrics_ c) (bitrateHistory_ c) (maxHistorySize_ c) (bitrateChanges_ c).

(** [setAdaptationSpeed(speed)] *)
Definition setAdaptationSpeed (c : BitrateCalculator) (speed : F32.float) :=
  mkBitrateCalculator (initialized_ c) (currentBitrate_ c) (recommendedBitrate_ c)
    (targetQuality_ c) (clamp01 speed) (stabilityThreshold_ c)
    (qualityMode_ c) (autoAdaptationEnabled_ c) (networkMetrics_ c)
    (audioMetrics_ c) (bitrateHistory_ c) (maxHistorySize_ c) (bitrateChanges_ c).

(** [setStabilityThreshold(threshold)] *)
Definition setStabilityThreshold (c : BitrateCalculator) (threshold : F32.float) :=
  mkBitrateCalculator (initialized_ c) (currentBitrate_ c) (recommendedBitrate_ c)
    (targetQuality_ c) (adaptationSpeed_ c) (clamp01 threshold)
    (qualityMode_ c) (autoAdaptationEnabled_ c) (networkMetrics_ c)
    (audioMetrics_ c) (bitrateHistory_ c) (maxHistorySize_ c) (bitrateChanges_ c).

(** [enableAutoAdaptation(enable)] *)
Definition enableAutoAdaptation (c : BitrateCalculator) (enable : bool) :=
  mkBitrateCalculator (initialized_ c) (currentBitrate_ c) (recommendedBitrate_ c)
    (targetQuality_ c) (adaptationSpeed_ c) (stabilityThreshold_ c)
    (qualityMode_ c) enable (networkMetrics_ c)
    (audioMetrics_ c) (bitrateHistory_ c) (maxHistorySize_ c) (bitrateChanges_ c).

Definition withQualityMode (c : BitrateCalculator) (mode : QualityMode) :=
  mkBitrateCalculator (initialized_ c) (currentBitrate_ c) (recommendedBitrate_ c)
    (targetQuality_ c) (adaptationSpeed_ c) (stabilityThreshold_ c)
    mode (autoAdaptationEnabled_ c) (networkMetrics_ c)
    (audioMetrics_ c) (bitrateHistory_ c) (maxHistorySize_ c) (bitrateChanges_ c).

Section Conversions.
(** The result of a [float]-to-[uint32_t] conversion whose value does not
    fit. *)
Variable undef : F32.float -> Z.

Let to_uint32 := F32.to_uint32 undef.

(** [calculateNetworkBasedBitrate] *)
Definition calculateNetworkBasedBitrate (m : NetworkMetrics) : Z :=
  let half := (Config.LYRA_MIN_BITRATE + Config.LYRA_DEFAULT_BITRATE) / 2 in
  let base0 := Config.LYRA_DEFAULT_BITRATE in
  let base1 :=
    if F32.gtb (packetLossRate m) (F32.lit 5 100) then Config.LYRA_MIN_BITRATE
    else if F32.gtb (packetLossRate m) (F32.lit 2 100) then half
    else base0 in
  let base2 :=
    if 500 <? averageLatency m then Z.min base1 Config.LYRA_MIN_BITRATE
    else if 200 <? averageLatency m then Z.min base1 half
    else base1 in
  if F32.gtb (bandwidth m) (F32.of_Z 0) then
    let bandwidthBasedBitrate :=
      to_uint32 (F32.mul (F32.mul (bandwidth m) (F32.of_Z 1000)) (F32.lit 8 10)) in
    Z.min base2 bandwidthBasedBitrate
  else base2.

(** [calculateAudioBasedBitrate] *)
Definition calculateAudioBasedBitrate (m : AudioMetrics) : Z :=
  if negb (speechDetected m) then Config.LYRA_MIN_BITRATE
  else
    let base1 :=
      if F32.gtb (averageVolume m) (F32.lit 7 10) then Config.LYRA_MAX_BITRATE
      else if F32.ltb (averageVolume m) (F32.lit 1 10) then Config.LYRA_MIN_BITRATE
      else Config.LYRA_DEFAULT_BITRATE in
    if F32.gtb (signalToNoiseRatio m) (F32.of_Z 20)
    then Z.max base1 Config.LYRA_DEFAULT_BITRATE
    else if F32.ltb (signalToNoiseRatio m) (F32.of_Z 10)
    then Config.LYRA_MIN_BITRATE
    else base1.

(** [applyQualityMode] *)
Definition applyQualityMode (c : BitrateCalculator) (baseBitrate : Z) : Z :=
  match qualityMode_ c with
  | POWER_SAVE => Config.LYRA_MIN_BITRATE
  | BALANCED => Z.min baseBitrate Config.LYRA_DEFAULT_BITRATE
  | HIGH_QUALITY => Z.max baseBitrate Config.LYRA_MAX_BITRATE
  | ADAPTIVE =>
      let minBitrate := Config.LYRA_MIN_BITRATE in
      let maxBitrate := Config.LYRA_MAX_BITRATE in
      let targetBitrate :=
        to_uint32
          (F32.add (F32.of_Z minBitrate)
             (F32.mul (F32.of_Z (maxBitrate - minBitrate)) (targetQuality_ c))) in
      Z.min baseBitrate targetBitrate
  end.

(** [smoothBitrateTransition] *)
Definition smoothBitrateTransition (c : BitrateCalculator) (newBitrate : Z) : Z :=
  let currentBitrate := currentBitrate_ c in
  let diff := F32.sub (F32.of_Z newBitrate) (F32.of_Z currentBitrate) in
  let smoothedDiff := F32.mul diff (adaptationSpeed_ c) in
  to_uint32 (F32.add (F32.of_Z currentBitrate) smoothedDiff).

(** [shouldUpdateBitrate] *)
Definition shouldUpdateBitrate (c : BitrateCalculator) (newBitrate : Z) : bool :=
  let currentBitrate := currentBitrate_ c in
  let changeRatio :=
    F32.div (F32.abs (F32.sub (F32.of_Z newBitrate) (F32.of_Z currentBitrate)))
      (F32.of_Z currentBitrate) in
  F32.geb changeRatio (stabilityThreshold_ c).

(** [calculateOptimalBitrate(network, audio)] *)
Definition calculateOptimalBitrateFor (c : BitrateCalculator)
    (network : NetworkMetrics) (audio : AudioMetrics) : Z :=
  let networkBitrate := calculateNetworkBasedBitrate network in
  let audioBitrate := calculateAudioBasedBitrate audio in
  let networkWeight := F32.lit 6 10 in
  let audioWeight := F32.lit 4 10 in
  let combinedBitrate :=
    to_uint32
      (F32.add (F32.mul (F32.of_Z networkBitrate) networkWeight)
         (F32.mul (F32.of_Z audioBitrate) audioWeight)) in
  let adjustedBitrate := applyQualityMode c combinedBitrate in
  let finalBitrate := smoothBitrateTransition c adjustedBitrate in
  clampBitrate finalBitrate.

(** [calculateOptimalBitrate()] *)
Definition calculateOptimalBitrate (c : BitrateCalculator) : Z :=
  if negb (initialized_ c) then Config.LYRA_DEFAULT_BITRATE
  else calculateOptimalBitrateFor c (networkMetrics_ c) (audioMetrics_ c).

(** The body shared by [updateNetworkMetrics] and [updateAudioMetrics]
    once the new metrics are stored: what it stores if its call of
    [calculateOptimalBitrate()] comes back.  [BitrateLocks.adapt] tells
    when it does. *)
Definition adapt (c : BitrateCalculator) : BitrateCalculator :=
  if autoAdaptationEnabled_ c then
    let newBitrate := calculateOptimalBitrate c in
    if shouldUpdateBitrate c newBitrate then commit c newBitrate else c
  else c.

(** [updateNetworkMetrics(metrics)] *)
Definition updateNetworkMetrics (c : BitrateCalculator) (metrics : NetworkMetrics)
  : BitrateCalculator :=
  adapt (withNetworkMetrics c metrics).

(** [updateAudioMetrics(metrics)] *)
Definition updateAudioMetrics (c : BitrateCalculator) (metrics : AudioMetrics)
  : BitrateCalculator :=
  adapt (withAudioMetrics c metrics).

(** [reportLatency(latencyMs)] *)
Definition reportLatency (c : BitrateCalculator) (latencyMs : Z)
  : BitrateCalculator :=
  let alpha := F32.lit 3 10 in
  let m := networkMetrics_ c in
  let avg :=
    to_uint32
      (F32.add (F32.mul alpha (F32.of_Z latencyMs))
         (F32.mul (F32.sub (F32.of_Z 1) alpha) (F32.of_Z (averageLatency m)))) in
  withNetworkMetrics c
    (mkNetworkMetrics (packetLossRate m) avg (jitter m) (bandwidth m)).

(** [setQualityMode(mode)] *)
Definition setQualityMode (c : BitrateCalculator) (mode : QualityMode)
  : BitrateCalculator :=
  let c1 := withQualityMode c mode in
  if autoAdaptationEnabled_ c1 then
    let newBitrate := calculateOptimalBitrate c1 in
    if negb (newBitrate =? currentBitrate_ c1) then commit c1 newBitrate else c1
  else c1.

(** The calls a client can make on a calculator. *)
Inductive op : Type :=
| Initialize (initialBitrate : Z)
| Shutdown
| UpdateNetworkMetrics (metrics : NetworkMetrics)
| UpdateAudioMetrics (metrics : AudioMetrics)
| ReportPacketLoss (totalPackets lostPackets : Z)
| ReportLatency (latencyMs : Z)
| ReportBandwidth (bandwidthKbps : F32.float)
| SetTargetQuality (quality : F32.float)
| SetAdaptationSpeed (speed : F32.float)
| SetStabilityThreshold (threshold : F32.float)
| EnableAutoAdaptation (enable : bool)
| SetQualityMode (mode : QualityMode).

Definition step (c : BitrateCalculator) (o : op) : BitrateCalculator :=
  match o with
  | Initialize br => snd (initialize c br)
  | Shutdown => shutdown c
  | UpdateNetworkMetrics m => updateNetworkMetrics c m
  | UpdateAudioMetrics m => updateAudioMetrics c m
  | ReportPacketLoss t l => reportPacketLoss c t l
  | ReportLatency l => reportLatency c l
  | ReportBandwidth bw => reportBandwidth c bw
  | SetTargetQuality q => setTargetQuality c q
  | SetAdaptationSpeed s => setAdaptationSpeed c s
  | SetStabilityThreshold t => setStabilityThreshold c t
  | EnableAutoAdaptation e => enableAutoAdaptation c e
  | SetQualityMode mode => setQualityMode c mode
  end.

Definition run (c : BitrateCalculator) (ops : list op) : BitrateCalculator :=
  fold_left step ops c.

End Conversions.

End Bitrate.

(** ** [metricsMutex_]

    [metricsMutex_] is a [std::mutex] taken through [std::lock_guard] and
    released when the method ends.  It is not recursive: the language leaves
    open what happens when a thread locks it while it holds it, and with the
    mutex of the platform the thread does not come back from the guard's
    constructor.  The methods below are those of [Bitrate] with their guards
    written out; [held] tells whether the calling thread holds the mutex. *)

Module BitrateLocks.
Import Machine Bitrate.

(** How a call ends. *)
Inductive outcome (A : Type) : Type :=
| Returns (a : A)
| Blocks.

Arguments Returns {A} a.
Arguments Blocks {A}.

Definition bind {A B : Type} (o : outcome A) (k : A -> outcome B) : outcome B :=
  match o with
  | Returns a => k a
  | Blocks => Blocks
  end.

(** [std::lock_guard<std::mutex> lock(metricsMutex_);] *)
Definition lock_guard (held : bool) : outcome unit :=
  if held then Blocks else Returns tt.

Section Conversions.
Variable undef : F32.float -> Z.

(** [calculateOptimalBitrate()]: the guard comes after the test of
    [initialized_]. *)
Definition calculateOptimalBitrate (held : bool) (c : BitrateCalculator)
  : outcome Z :=
  if negb (initialized_ c) then Returns Config.LYRA_DEFAULT_BITRATE
  else
    bind (lock_guard held) (fun _ =>
      Returns
        (calculateOptimalBitrateFor undef c (networkMetrics_ c) (audioMetrics_ c))).

(** The body shared by [updateNetworkMetrics] and [updateAudioMetrics]
    once the guard is taken and the new metrics are stored: the mutex is
    held when [calculateOptimalBitrate()] is called. *)
Definition adapt (c : BitrateCalculator) : outcome BitrateCalculator :=
  if autoAdaptationEnabled_ c then
    bind (calculateOptimalBitrate true c) (fun newBitrate =>
      Returns (if shouldUpdateBitrate c newBitrate then commit c newBitrate else c))
  else Returns c.

(** [updateNetworkMetrics(metrics)] *)
Definition updateNetworkMetrics (c : BitrateCalculator) (metrics : NetworkMetrics)
  : outcome BitrateCalculator :=
  bind (lock_guard false) (fun _ => adapt (withNetworkMetrics c metrics)).

(** [updateAudioMetrics(metrics)] *)
Definition updateAudioMetrics (c : BitrateCalculator) (metrics : AudioMetrics)
  : outcome BitrateCalculator :=
  bind (lock_guard false) (fun _ => adapt (withAudioMetrics c metrics)).

(** [reportPacketLoss], [reportLatency], [reportBandwidth]: the guard, then
    the stores. *)
Definition reportPacketLoss (c : BitrateCalculator) (totalPackets lostPackets : Z)
  : outcome BitrateCalculator :=
  if totalPackets =? 0 then Returns c
  else
    bind (lock_guard false) (fun _ =>
      Returns (Bitrate.reportPacketLoss c totalPackets lostPackets)).

Definition reportLatency (c : BitrateCalculator) (latencyMs : Z)
  : outcome BitrateCalculator :=
  bind (lock_guard false) (fun _ => Returns (Bitrate.reportLatency undef c latencyMs)).

Definition reportBandwidth (c : BitrateCalculator) (bandwidthKbps : F32.float)
  : outcome BitrateCalculator :=
  bind (lock_guard false) (fun _ => Returns (Bitrate.reportBandwidth c bandwidthKbps)).

(** [setQualityMode(mode)] takes no guard of its own: the mutex is free
    when it calls [calculateOptimalBitrate()]. *)
Definition setQualityMode (c : BitrateCalculator) (mode : QualityMode)
  : outcome BitrateCalculator :=
  let c1 := withQualityMode c mode in
  if autoAdaptationEnabled_ c1 then
    bind (calculateOptimalBitrate false c1) (fun newBitrate =>
      Returns
        (if negb (newBitrate =? currentBitrate_ c1) then commit c1 newBitrate
         else c1))
  else Returns c1.

(** The other calls touch no mutex. *)
Definition step (c : BitrateCalculator) (o : op) : outcome BitrateCalculator :=
  match o with
  | UpdateNetworkMetrics m => updateNetworkMetrics c m
  | UpdateAudioMetrics m => updateAudioMetrics c m
  | ReportPacketLoss t l => reportPacketLoss c t l
  | ReportLatency l => reportLatency c l
  | ReportBandwidth bw => reportBandwidth c bw
  | SetQualityMode mode => setQualityMode c mode
  | Initialize _ | Shutdown | SetTargetQuality _ | SetAdaptationSpeed _
  | SetStabilityThreshold _ | EnableAutoAdaptation _ =>
      Returns (Bitrate.step undef c o)
  end.

(** The calls of one thread, one after the other: a call that blocks ends
    the run. *)
Fixpoint run (c : BitrateCalculator) (ops : list op) : outcome BitrateCalculator :=
  match ops with
  | [] => Returns c
  | o :: rest => bind (step c o) (fun c' => run c' rest)
  end.

End Conversions.

End BitrateLocks.

(** ** NoiseSuppresor.h: the interface the preprocessor uses

    The suppressor is a separate class whose denoiser comes from a library
    outside the repository.  The preprocessor is modelled over any
    implementation of the methods it calls. *)

Record NoiseSuppresorModel : Type := mkNoiseSuppresorModel {
  ns_state : Type;
  (* NoiseSuppresor() and initialize() *)
  ns_new : ns_state;
  ns_initialize : ns_state -> bool * ns_state;
  ns_setSuppressionLevel : ns_state -> F32.float -> ns_state;
  ns_setThreshold : ns_state -> F32.float -> ns_state;
  ns_enableVAD : ns_state -> bool -> ns_state;
  (* process(audioData, frameSize): the state and the frame afterwards *)
  ns_process : ns_state -> list F32.float -> ns_state * list F32.float;
  ns_isSpeechDetected : ns_state -> bool;
  ns_getCurrentSpeechProbability : ns_state -> F32.float
}.

(** ** AudioPreprocessor.h, AudioPreprocessor.cpp *)

Module Preproc.
Import Machine.

(** [struct PreprocessingConfig] *)
Record PreprocessingConfig : Type := mkPreprocessingConfig {
  enableNoiseSupression : bool;
  enableCodec : bool;
  enableBitrateAdaptation : bool;
  enableVAD : bool;
  enableAGC : bool;
  enableEcho : bool;
  noiseSuppressionLevel : F32.float;
  vadThreshold : F32.float;
  agcTargetLevel : F32.float;
  targetBitrate : Z
}.

(** [PreprocessingConfig()] *)
Definition defaultConfig : PreprocessingConfig :=
  mkPreprocessingConfig true true true true true false
    (F32.lit 8 10) (F32.lit 5 10) (F32.lit 7 10) Config.LYRA_DEFAULT_BITRATE.

(** What a method that converts a frame into the scratch vector yields:
    [tempBuffer_] holds [FRAMES_PER_BUFFER] numbers, and on a longer frame
    the conversion loops write past its end. *)
Inductive scratch (A : Type) : Type :=
| InBounds (a : A)
| Overrun.
Arguments InBounds {A} a.
Arguments Overrun {A}.

(** [validateConfig] *)
Definition validateConfig (config : PreprocessingConfig) : bool :=
  if F32.ltb (noiseSuppressionLevel config) (F32.of_Z 0)
     || F32.gtb (noiseSuppressionLevel config) (F32.of_Z 1) then false
  else if F32.ltb (vadThreshold config) (F32.of_Z 0)
          || F32.gtb (vadThreshold config) (F32.of_Z 1) then false
  else if F32.ltb (agcTargetLevel config) (F32.lit 1 10)
          || F32.gtb (agcTargetLevel config) (F32.of_Z 2) then false
  else if (targetBitrate config <? Config.LYRA_MIN_BITRATE)
          || (Config.LYRA_MAX_BITRATE <? targetBitrate config) then false
  else true.

(** [validateSampleCount] *)
Definition validateSampleCount (sampleCount : Z) : bool :=
  (0 <? sampleCount) && (sampleCount <=? Config.FRAMES_PER_BUFFER * 4).

(** [PreprocessingUtils::calculateRMS] on a non-null array. *)
Definition calculateRMS (audioData : list F32.float) : F32.float :=
  match audioData with
  | [] => F32.of_Z 0
  | _ =>
      let sum :=
        fold_left (fun acc x => F32.add acc (F32.mul x x)) audioData (F32.of_Z 0) in
      F32.sqrt (F32.div sum (F32.of_Z (Z.of_nat (length audioData))))
  end.

(** [int16ToFloat] *)
Definition int16ToFloat (input : list Z) : list F32.float :=
  let scale := F32.div (F32.of_Z 1) (F32.of_Z 32768) in
  map (fun x => F32.mul (F32.of_Z x) scale) input.

(** Write [new] over the beginning of [old]. *)
Definition overwrite {A : Type} (new old : list A) : list A :=
  firstn (length old) new ++ skipn (length new) old.

Section WithSuppressor.
Variable NS : NoiseSuppresorModel.
Variable host : byte_order.
Variable undef : F32.float -> Z.

(** [floatToInt16] *)
Definition floatToInt16 (input : list F32.float) : list Z :=
  map
    (fun x =>
       let sample := F32.max (F32.of_Z (- 1)) (F32.min (F32.of_Z 1) x) in
       F32.to_int16 undef (F32.mul sample (F32.of_Z 32767)))
    input.

(** [class AudioPreprocessor].  [onSpeechDetected_] tells whether the
    callback is installed and [speechEvents] lists the values passed to
    it; the timing history is left out. *)
Record AudioPreprocessor : Type := mkAudioPreprocessor {
  initialized_ : bool;
  config_ : PreprocessingConfig;
  noiseSuppresor_ : option (ns_state NS);
  codec_ : option Codec.LyraCodec;
  bitrateCalculator_ : option Bitrate.BitrateCalculator;
  totalProcessedSamples_ : Z;
  totalProcessedFrames_ : Z;
  currentGain_ : F32.float;
  targetGain_ : F32.float;
  gainHistory_ : list F32.float;
  maxGainHistorySize_ : Z;
  onSpeechDetected_ : bool;
  speechEvents : list bool
}.

(** [AudioPreprocessor::AudioPreprocessor()] *)
Definition new : AudioPreprocessor :=
  mkAudioPreprocessor false defaultConfig None None None 0 0
    (F32.of_Z 1) (F32.of_Z 1) [] 50 false [].

Definition withCodec (p : AudioPreprocessor) (c : option Codec.LyraCodec) :=
  mkAudioPreprocessor (initialized_ p) (config_ p) (noiseSuppresor_ p) c
    (bitrateCalculator_ p) (totalProcessedSamples_ p) (totalProcessedFrames_ p)
    (currentGain_ p) (targetGain_ p) (gainHistory_ p) (maxGainHistorySize_ p)
    (onSpeechDetected_ p) (speechEvents p).

Definition withSuppressor (p : AudioPreprocessor) (n : option (ns_state NS)) :=
  mkAudioPreprocessor (initialized_ p) (config_ p) n (codec_ p)
    (bitrateCalculator_ p) (totalProcessedSamples_ p) (totalProcessedFrames_ p)
    (currentGain_ p) (targetGain_ p) (gainHistory_ p) (maxGainHistorySize_ p)
    (onSpeechDetected_ p) (speechEvents p).

Definition withCalculator (p : AudioPreprocessor)
    (b : option Bitrate.BitrateCalculator) :=
  mkAudioPreprocessor (initialized_ p) (config_ p) (noiseSuppresor_ p) (codec_ p)
    b (totalProcessedSamples_ p) (totalProcessedFrames_ p)
    (currentGain_ p) (targetGain_ p) (gainHistory_ p) (maxGainHistorySize_ p)
    (onSpeechDetected_ p) (speechEvents p).

Definition withInitialized (p : AudioPreprocessor) (b : bool) :=
  mkAudioPreprocessor b (config_ p) (noiseSuppresor_ p) (codec_ p)
    (bitrateCalculator_ p) (totalProcessedSamples_ p) (totalProcessedFrames_ p)
    (currentGain_ p) (targetGain_ p) (gainHistory_ p) (maxGainHistorySize_ p)
    (onSpeechDetected_ p) (speechEvents p).

(** [setOnSpeechDetected(callback)] *)
Definition setOnSpeechDetected (p : AudioPreprocessor) :=
  mkAudioPreprocessor (initialized_ p) (config_ p) (noiseSuppresor_ p) (codec_ p)
    (bitrateCalculator_ p) (totalProcessedSamples_ p) (totalProcessedFrames_ p)
    (currentGain_ p) (targetGain_ p) (gainHistory_ p) (maxGainHistorySize_ p)
    true (speechEvents p).

(** The suppressor configured as [initializeComponents] and
    [updateConfig] do. *)
Definition configureSuppressor (n : ns_state NS) (config : PreprocessingConfig)
  : ns_state NS :=
  ns_enableVAD NS
    (ns_setThreshold NS
       (ns_setSuppressionLevel NS n (noiseSuppressionLevel config))
       (vadThreshold config))
    (enableVAD config).

(** [shutdownComponents()] *)
Definition shutdownComponents (p : AudioPreprocessor) : AudioPreprocessor :=
  withCalculator (withCodec (withSuppressor p None) None) None.

(** [initializeComponents()] *)
Definition initializeComponents (p : AudioPreprocessor)
  : bool * AudioPreprocessor :=
  let config := config_ p in
  let suppressor :=
    if enableNoiseSupression config then
      match ns_initialize NS (ns_new NS) with
      | (true, n) => inl (withSuppressor p (Some (configureSuppressor n config)))
      | (false, n) => inr (withSuppressor p (Some n))
      end
    else inl p in
  match suppressor with
  | inr failed => (false, failed)
  | inl p1 =>
      let codec :=
        if enableCodec config then
          match Codec.initialize Codec.new Config.LYRA_SAMPLE_RATE Config.CHANNELS
                  (targetBitrate config) with
          | (true, c) => inl (withCodec p1 (Some c))
          | (false, c) => inr (withCodec p1 (Some c))
          end
        else inl p1 in
      match codec with
      | inr failed => (false, failed)
      | inl p2 =>
          if enableBitrateAdaptation config then
            match Bitrate.initialize Bitrate.new (targetBitrate config) with
            | (true, b) => (true, withCalculator p2 (Some b))
            | (false, b) => (false, withCalculator p2 (Some b))
            end
          else (true, p2)
      end
  end.

(** [initialize(config)] *)
Definition initialize (p : AudioPreprocessor) (config : PreprocessingConfig)
  : bool * AudioPreprocessor :=
  if initialized_ p then (false, p)
  else if negb (validateConfig config) then (false, p)
  else
    let p1 :=
      mkAudioPreprocessor (initialized_ p) config (noiseSuppresor_ p) (codec_ p)
        (bitrateCalculator_ p) (totalProcessedSamples_ p)
        (totalProcessedFrames_ p) (F32.of_Z 1) (agcTargetLevel config)
        (gainHistory_ p) (maxGainHistorySize_ p)
        (onSpeechDetected_ p) (speechEvents p) in
    match initializeComponents p1 with
    | (false, p2) => (false, shutdownComponents p2)
    | (true, p2) => (true, withInitialized p2 true)
    end.

(** [updateConfig(config)] *)
Definition updateConfig (p : AudioPreprocessor) (config : PreprocessingConfig)
  : AudioPreprocessor :=
  if negb (validateConfig config) then p
  else
    mkAudioPreprocessor (initialized_ p) config
      (option_map (fun n => configureSuppressor n config) (noiseSuppresor_ p))
      (option_map (fun c => snd (Codec.setBitrate c (targetBitrate config)))
         (codec_ p))
      (bitrateCalculator_ p) (totalProcessedSamples_ p)
      (totalProcessedFrames_ p) (currentGain_ p) (agcTargetLevel config)
      (gainHistory_ p) (maxGainHistorySize_ p)
      (onSpeechDetected_ p) (speechEvents p).

(** [updateGainControl] *)
Definition updateGainControl (p : AudioPreprocessor) (audioData : list F32.float)
  : AudioPreprocessor :=
  let currentLevel := calculateRMS audioData in
  if F32.gtb currentLevel (F32.of_Z 0) then
    let desiredGain := F32.div (targetGain_ p) currentLevel in
    let alpha := F32.lit 1 10 in
    let smoothed :=
      F32.add (F32.mul alpha desiredGain)
        (F32.mul (F32.sub (F32.of_Z 1) alpha) (currentGain_ p)) in
    let gain := F32.max (F32.lit 1 10) (F32.min (F32.of_Z 2) smoothed) in
    let h := gainHistory_ p ++ [gain] in
    mkAudioPreprocessor (initialized_ p) (config_ p) (noiseSuppresor_ p) (codec_ p)
      (bitrateCalculator_ p) (totalProcessedSamples_ p) (totalProcessedFrames_ p)
      gain (targetGain_ p)
      (if maxGainHistorySize_ p <? Z.of_nat (length h) then tl h else h)
      (maxGainHistorySize_ p) (onSpeechDetected_ p) (speechEvents p)
  else p.

(** [applyAGC] *)
Definition applyAGC (p : AudioPreprocessor) (audioData : list F32.float)
  : AudioPreprocessor * list F32.float :=
  match audioData with
  | [] => (p, audioData)
  | _ =>
      let p' := updateGainControl p audioData in
      (p',
       map
         (fun x =>
            F32.max (F32.of_Z (- 1))
              (F32.min (F32.of_Z 1) (F32.mul x (currentGain_ p'))))
         audioData)
  end.

(** [applyVAD] *)
Definition applyVAD (p : AudioPreprocessor) (audioData : list F32.float)
    (speechProbability : F32.float) : list F32.float :=
  if F32.ltb speechProbability (vadThreshold (config_ p)) then
    let attenuation := F32.lit 1 10 in
    map (fun x => F32.mul x attenuation) audioData
  else audioData.

Definition notifySpeech (p : AudioPreprocessor) (speechDetected : bool) :=
  if onSpeechDetected_ p then
    mkAudioPreprocessor (initialized_ p) (config_ p) (noiseSuppresor_ p) (codec_ p)
      (bitrateCalculator_ p) (totalProcessedSamples_ p) (totalProcessedFrames_ p)
      (currentGain_ p) (targetGain_ p) (gainHistory_ p) (maxGainHistorySize_ p)
      (onSpeechDetected_ p) (speechEvents p ++ [speechDetected])
  else p.

(** [processAudioChain(audioData, sampleCount, isInput)] *)
Definition processAudioChain (p : AudioPreprocessor) (audioData : list F32.float)
    (isInput : bool) : bool * AudioPreprocessor * list F32.float :=
  match audioData with
  | [] => (false, p, audioData)
  | _ =>
      if isInput then
        let '(p1, a1) :=
          if enableAGC (config_ p) then applyAGC p audioData else (p, audioData) in
        let frameSize := Config.RNNOISE_FRAME_SIZE in
        let '(p2, a2, speech2) :=
          match noiseSuppresor_ p1 with
          | Some n =>
              if enableNoiseSupression (config_ p1)
                 && (frameSize <=? Z.of_nat (length a1))
              then
                let '(n', frame) :=
                  ns_process NS n (firstn (Z.to_nat frameSize) a1) in
                (withSuppressor p1 (Some n'), overwrite frame a1,
                 ns_isSpeechDetected NS n')
              else (p1, a1, false)
          | None => (p1, a1, false)
          end in
        let '(a3, speech3) :=
          if enableVAD (config_ p2) then
            let speechProb :=
              match noiseSuppresor_ p2 with
              | Some n => ns_getCurrentSpeechProbability NS n
              | None => F32.lit 5 10
              end in
            (applyVAD p2 a2 speechProb,
             F32.gtb speechProb (vadThreshold (config_ p2)))
          else (a2, speech2) in
        (true, notifySpeech p2 speech3, a3)
      else
        let a1 :=
          if enableAGC (config_ p)
          then map (fun x => F32.mul x (currentGain_ p)) audioData
          else audioData in
        (true, p, a1)
  end.

Definition countProcessed (p : AudioPreprocessor) (sampleCount : Z) :=
  mkAudioPreprocessor (initialized_ p) (config_ p) (noiseSuppresor_ p) (codec_ p)
    (bitrateCalculator_ p) (wrap64 (totalProcessedSamples_ p + sampleCount))
    (incr64 (totalProcessedFrames_ p))
    (currentGain_ p) (targetGain_ p) (gainHistory_ p) (maxGainHistorySize_ p)
    (onSpeechDetected_ p) (speechEvents p).

(** [processInput(int16_t* audioData, sampleCount)] on a non-null array:
    the result, the state and the array afterwards. *)
Definition processInput (p : AudioPreprocessor) (audioData : list Z)
  : scratch (bool * AudioPreprocessor * list Z) :=
  let sampleCount := Z.of_nat (length audioData) in
  if negb (initialized_ p) then InBounds (false, p, audioData)
  else if negb (validateSampleCount sampleCount) then InBounds (false, p, audioData)
  else if Config.FRAMES_PER_BUFFER <? sampleCount then Overrun
  else
    match processAudioChain p (int16ToFloat audioData) true with
    | (true, p', processed) =>
        InBounds (true, countProcessed p' sampleCount, floatToInt16 processed)
    | (false, p', _) => InBounds (false, p', audioData)
    end.

(** [processOutput(int16_t* audioData, sampleCount)] on a non-null array:
    the result and the array afterwards. *)
Definition processOutput (p : AudioPreprocessor) (audioData : list Z)
  : scratch (bool * list Z) :=
  let sampleCount := Z.of_nat (length audioData) in
  if negb (initialized_ p) then InBounds (false, audioData)
  else if negb (validateSampleCount sampleCount) then InBounds (false, audioData)
  else if Config.FRAMES_PER_BUFFER <? sampleCount then Overrun
  else
    match processAudioChain p (int16ToFloat audioData) false with
    | (true, _, processed) => InBounds (true, floatToInt16 processed)
    | (false, _, _) => InBounds (false, audioData)
    end.

(** [encode(audioData, sampleCount)] on a non-null array. *)
Definition encode (p : AudioPreprocessor) (now : Z) (audioData : list Z)
  : scratch (option Codec.EncodedPacket * AudioPreprocessor) :=
  match codec_ p with
  | None => InBounds (None, p)
  | Some c =>
      if negb (initialized_ p) then InBounds (None, p)
      else if negb (enableCodec (config_ p)) then
        let rawData := flat_map (int16_bytes host) audioData in
        InBounds (Some (Codec.mkEncodedPacket rawData 0 0 0), p)
      else
        match processInput p audioData with
        | Overrun => Overrun
        | InBounds (false, p', _) => InBounds (None, p')
        | InBounds (true, p', processedData) =>
            let frame :=
              if negb (Config.SAMPLE_RATE =? Config.LYRA_SAMPLE_RATE)
              then Codec.resampleTo16kHz undef processedData Config.SAMPLE_RATE
              else processedData in
            let '(r, c') := Codec.encode host c now frame in
            InBounds (r, withCodec p' (Some c'))
        end
  end.

Definition finishOutput (p : AudioPreprocessor) (samples : list Z)
  : scratch (option (list Z) * AudioPreprocessor) :=
  match processOutput p samples with
  | Overrun => Overrun
  | InBounds (true, out) => InBounds (Some out, p)
  | InBounds (false, _) => InBounds (None, p)
  end.

(** [decode(packet)] *)
Definition decode (p : AudioPreprocessor) (packet : Codec.EncodedPacket)
  : scratch (option (list Z) * AudioPreprocessor) :=
  match codec_ p with
  | None => InBounds (None, p)
  | Some c =>
      if negb (initialized_ p) then InBounds (None, p)
      else if negb (enableCodec (config_ p)) then
        if negb (Z.of_nat (length (Codec.data packet)) mod 2 =? 0)
        then InBounds (None, p)
        else finishOutput p (Codec.samples_of_bytes host (Codec.data packet))
      else
        let '(decoded, c') := Codec.decodePacket host c packet in
        let p' := withCodec p (Some c') in
        match decoded with
        | None => InBounds (None, p')
        | Some samples =>
            if negb (Config.SAMPLE_RATE =? Config.LYRA_SAMPLE_RATE)
            then finishOutput p'
                   (Codec.resampleFromLyra undef samples Config.SAMPLE_RATE)
            else finishOutput p' samples
        end
  end.

(** [decode(encodedData, dataSize)] on a non-null array. *)
Definition decodeBytes (p : AudioPreprocessor) (encodedData : list byte)
  : scratch (option (list Z) * AudioPreprocessor) :=
  match encodedData with
  | [] => InBounds (None, p)
  | _ => decode p (Codec.mkEncodedPacket encodedData 0 0 0)
  end.

(** [decode(encode(audioData))]: the packet that [encode] returns, passed
    to [decode]. *)
Definition decodeOfEncode (p : AudioPreprocessor) (now : Z) (audioData : list Z)
  : scratch (option (list Z)) :=
  match encode p now audioData with
  | Overrun => Overrun
  | InBounds (None, _) => InBounds None
  | InBounds (Some packet, p') =>
      match decode p' packet with
      | Overrun => Overrun
      | InBounds (r, _) => InBounds r
      end
  end.

(** The calls of a sender on its preprocessor, and the packets that
    [encode] returns; the session ends at the first overrun. *)
Inductive op : Type :=
| Encode (now : Z) (audioData : list Z)
| Decode (packet : Codec.EncodedPacket)
| UpdateConfig (config : PreprocessingConfig).

Fixpoint session (p : AudioPreprocessor) (ops : list op)
  : list Codec.EncodedPacket * AudioPreprocessor :=
  match ops with
  | [] => ([], p)
  | Encode now audioData :: rest =>
      match encode p now audioData with
      | Overrun => ([], p)
      | InBounds (r, p') =>
          let '(ps, p'') := session p' rest in
          (match r with Some pkt => pkt :: ps | None => ps end, p'')
      end
  | Decode packet :: rest =>
      match decode p packet with
      | Overrun => ([], p)
      | InBounds (_, p') => session p' rest
      end
  | UpdateConfig config :: rest => session (updateConfig p config) rest
  end.

End WithSuppressor.

Arguments InBounds {A} a.
Arguments Overrun {A}.
Arguments initialized_ {NS}.
Arguments config_ {NS}.
Arguments noiseSuppresor_ {NS}.
Arguments codec_ {NS}.
Arguments bitrateCalculator_ {NS}.
Arguments totalProcessedSamples_ {NS}.
Arguments totalProcessedFrames_ {NS}.
Arguments currentGain_ {NS}.
Arguments targetGain_ {NS}.
Arguments gainHistory_ {NS}.
Arguments maxGainHistorySize_ {NS}.
Arguments onSpeechDetected_ {NS}.
Arguments speechEvents {NS}.
Arguments withCodec {NS}.
Arguments withSuppressor {NS}.
Arguments withCalculator {NS}.
Arguments withInitialized {NS}.
Arguments setOnSpeechDetected {NS}.
Arguments shutdownComponents {NS}.
Arguments initializeComponents {NS}.
Arguments initialize {NS}.
Arguments updateConfig {NS}.
Arguments updateGainControl {NS}.
Arguments applyAGC {NS}.
Arguments applyVAD {NS}.
Arguments notifySpeech {NS}.
Arguments processAudioChain {NS}.
Arguments countProcessed {NS}.
Arguments processInput {NS}.
Arguments processOutput {NS}.
Arguments encode {NS}.
Arguments finishOutput {NS}.
Arguments decode {NS}.
Arguments decodeBytes {NS}.
Arguments decodeOfEncode {NS}.
Arguments session {NS}.

End Preproc.

(** A suppressor that leaves every frame as it is, to evaluate the
    preprocessor on concrete frames. *)
Definition idleSuppressor : NoiseSuppresorModel :=
  mkNoiseSuppresorModel unit tt (fun n => (true, n))
    (fun n _ => n) (fun n _ => n) (fun n _ => n)
    (fun n frame => (n, frame)) (fun _ => false) (fun _ => F32.lit 5 10).

(** * Vocabulary of the statements *)

(** The last [k] elements of a list. *)
Definition keep {A : Type} (k : nat) (l : list A) : list A :=
  skipn (length l - k) l.

(** What every call preserves on a buffer of capacity [K >= 1]. *)
Definition bounded (K : Z) (b : Buffer.BufferManager) : Prop :=
  Buffer.maxBufferSize_ b = K
  /\ Buffer.getInputBufferSize b <= K
  /\ Buffer.getOutputBufferSize b <= K.

(** The numbers [z], [z+1], ... as a [uint32_t] counter yields them. *)
Definition counting (z : Z) (n : nat) : list Z :=
  map (fun i => Machine.wrap32 (z + Z.of_nat i)) (seq 0 n).

(** A bitrate the codec accepts. *)
Definition in_range (br : Z) : Prop :=
  Config.LYRA_MIN_BITRATE <= br <= Config.LYRA_MAX_BITRATE.

(** A listener that is running, with a buffer manager and both callbacks
    installed. *)
Definition listener : Udp.UDPManager :=
  snd (Udp.startServer
         (Udp.setOnDataReceived
            (Udp.setOnPacketReceived (Udp.setBufferManager Udp.new Buffer.new)))
         (Some 3)).

(** The value taken for an out-of-range conversion when the model is run on
    concrete inputs; the runs below stay in range. *)
Definition unspecified : F32.float -> Z := fun _ => 0.

(** The default configuration with the codec switched off. *)
Definition rawConfig : Preproc.PreprocessingConfig :=
  Preproc.mkPreprocessingConfig true false true true true false
    (F32.lit 8 10) (F32.lit 5 10) (F32.lit 7 10) Config.LYRA_DEFAULT_BITRATE.

(** A preprocessor initialized with the default configuration. *)
Definition codecPreprocessor : Preproc.AudioPreprocessor idleSuppressor :=
  snd (Preproc.initialize (Preproc.new idleSuppressor) Preproc.defaultConfig).

(** The same preprocessor after [updateConfig] has switched the codec off. *)
Definition rawPreprocessor : Preproc.AudioPreprocessor idleSuppressor :=
  Preproc.updateConfig codecPreprocessor rawConfig.

(** A preprocessor initialized with the codec switched off. *)
Definition codeclessPreprocessor : Preproc.AudioPreprocessor idleSuppressor :=
  snd (Preproc.initialize (Preproc.new idleSuppressor) rawConfig).

(** No call of a session switches the codec off. *)
Definition codecStaysEnabled (ops : list Preproc.op) : Prop :=
  Forall
    (fun o =>
       match o with
       | Preproc.UpdateConfig config => Preproc.enableCodec config = true
       | _ => True
       end)
    ops.

(** One step toward zero: 0 stays, a positive sample loses one, a negative
    sample gains one. *)
Definition towardZero (s : Z) : Z := s - Z.sgn s.

(** [f] holds of every [z] with [0 <= z < 2^n]. *)
Fixpoint forall_bits (n : nat) (f : Z -> bool) : bool :=
  match n with
  | O => f 0
  | S k => forall_bits k (fun z => f (2 * z)) && forall_bits k (fun z => f (2 * z + 1))
  end.

(** The members of a preprocessor that decide which packets [encode]
    emits. *)
Definition core {NS : NoiseSuppresorModel} (p : Preproc.AudioPreprocessor NS)
  : bool * Preproc.PreprocessingConfig * option Codec.LyraCodec :=
  (Preproc.initialized_ p, Preproc.config_ p, Preproc.codec_ p).

(** The sequence counter of the codec the preprocessor holds. *)
Definition counter {NS : NoiseSuppresorModel} (p : Preproc.AudioPreprocessor NS)
  : option Z :=
  option_map Codec.nextSequenceNumber_ (Preproc.codec_ p).

(** The codec is enabled and its counter, when there is a codec, stands at
    [z]. *)
Definition counterAt {NS : NoiseSuppresorModel} (z : Z)
    (p : Preproc.AudioPreprocessor NS) : Prop :=
  Preproc.enableCodec (Preproc.config_ p) = true
  /\ (counter p = None \/ counter p = Some (Machine.wrap32 z)).

(** The packet at position [i] carries [i] modulo [2^32]: the numbers start
    at 0 and increase strictly over the first [2^32] packets. *)
Definition countsUp (seqs : list Z) : Prop :=
  (forall i : nat, (i < length seqs)%nat -> nth i seqs 0 = Z.of_nat i mod 2 ^ 32)
  /\ (forall i j : nat,
         (i < j < length seqs)%nat -> Z.of_nat j < 2 ^ 32 ->
         nth i seqs 0 < nth j seqs 0).

(** A 20 ms frame at 48 kHz with every sample equal to [s]. *)
Definition constantFrame (s : Z) : list Z := repeat s 960.

(** * Further code, and the vocabulary of its statements *)

(** ** Bursts and tallies on the buffer manager *)

Module BufferRuns.
Import Machine Buffer.

(** Push every packet of [ps] as it arrives from the network, oldest first. *)
Definition pushAllNetwork (b : BufferManager) (ps : list AudioPacket) : BufferManager :=
  fold_left (fun acc p => snd (pushNetworkPacket acc (Some p))) ps b.

(** Take playback packets until the null pointer comes back; [fuel] bounds
    the number of calls. *)
Fixpoint playAll (fuel : nat) (b : BufferManager) : list AudioPacket :=
  match fuel with
  | O => []
  | S k =>
      match getNextPlaybackPacket b with
      | (None, _) => []
      | (Some p, b') => p :: playAll k b'
      end
  end.

(** Hand every captured block of [blocks] to [pushInputBuffer], oldest
    first. *)
Definition pushInputAll (b : BufferManager) (blocks : list (list byte)) : BufferManager :=
  fold_left (fun acc d => snd (pushInputBuffer acc d)) blocks b.

Definition nonEmpty (d : list byte) : bool :=
  match d with
  | [] => false
  | _ => true
  end.

(** The packets made of [blocks] with the sequence numbers [z], [z+1], ... *)
Fixpoint numbered (z : Z) (blocks : list (list byte)) : list AudioPacket :=
  match blocks with
  | [] => []
  | d :: rest => newAudioPacket d z :: numbered (z + 1) rest
  end.

(** What a run of calls did with packets: how many it handed out through
    [popAudioPacket] and [getNextPlaybackPacket], how many it accepted from
    the network, and how many [clearBuffers] discarded. *)
Record tally : Type := mkTally {
  delivered : Z;
  acceptedNetwork : Z;
  cleared : Z
}.

Definition tallyStep (b : BufferManager) (o : op) (t : tally) : tally :=
  match o with
  | PopAudio =>
      match inputBuffer_ b with
      | [] => t
      | _ => mkTally (delivered t + 1) (acceptedNetwork t) (cleared t)
      end
  | NextPlayback =>
      match outputBuffer_ b with
      | [] => t
      | _ => mkTally (delivered t + 1) (acceptedNetwork t) (cleared t)
      end
  | PushNetwork (Some _) => mkTally (delivered t) (acceptedNetwork t + 1) (cleared t)
  | Clear =>
      mkTally (delivered t) (acceptedNetwork t)
        (cleared t + getInputBufferSize b + getOutputBufferSize b)
  | _ => t
  end.

Fixpoint tallyRun (b : BufferManager) (ops : list op) (t : tally) : tally :=
  match ops with
  | [] => t
  | o :: rest => tallyRun (step b o) rest (tallyStep b o t)
  end.

(** Every packet accepted so far is queued, was handed out, was discarded by
    [clearBuffers], or is counted as dropped (all modulo [2^64]). *)
Definition balanced (b : BufferManager) (t : tally) : Prop :=
  wrap64 (getInputBufferSize b + getOutputBufferSize b + droppedPackets_ b
          + delivered t + cleared t)
  = wrap64 (totalPackets_ b + acceptedNetwork t).

End BufferRuns.

(** Counting the calls of a codec session, and the state every session
    keeps. *)
Module CodecRuns.
Import Machine Codec.

Definition isEncode (o : op) : bool :=
  match o with Encode _ _ => true | _ => false end.

Definition isDecode (o : op) : bool :=
  match o with Decode _ => true | _ => false end.

Definition encodeCalls (ops : list op) : Z := Z.of_nat (length (filter isEncode ops)).

Definition decodeCalls (ops : list op) : Z := Z.of_nat (length (filter isDecode ops)).

(** The bitrate is one the codec accepts, and a started codec is mono with a
    20 ms frame at 16, 32 or 48 kHz. *)
Definition configured (c : LyraCodec) : Prop :=
  isValidBitrate (currentBitrate_ c) = true
  /\ (initialized_ c = true ->
      channels_ c = 1
      /\ (frameSize_ c = 320 \/ frameSize_ c = 640 \/ frameSize_ c = 960)).

End CodecRuns.

(** [UDPManager::closeSocket], [stop], and the traffic of a manager. *)
Module UdpRuns.
Import Machine Buffer Udp.

Definition withSocket (u : UDPManager) (fd : Z) : UDPManager :=
  mkUDPManager fd (remoteAddr_ u) (isRunning_ u) (isServer_ u)
    (bufferManager_ u) (onDataReceived_ u) (onPacketReceived_ u)
    (sentPackets_ u) (receivedPackets_ u) (failedSends_ u) (invoked u).

Definition withRunning (u : UDPManager) (running : bool) : UDPManager :=
  mkUDPManager (socketFd_ u) (remoteAddr_ u) running (isServer_ u)
    (bufferManager_ u) (onDataReceived_ u) (onPacketReceived_ u)
    (sentPackets_ u) (receivedPackets_ u) (failedSends_ u) (invoked u).

(** [closeSocket()] *)
Definition closeSocket (u : UDPManager) : UDPManager :=
  if 0 <=? socketFd_ u then withSocket u (-1) else u.

(** The datagrams the loop takes before [recvfrom] first fails. *)
Fixpoint taken (incoming : list recv) : list (list byte * sockaddr) :=
  match incoming with
  | Datagram bytes fromAddr :: rest => (bytes, fromAddr) :: taken rest
  | _ => []
  end.

Definition nonEmptyDatagram (d : list byte * sockaddr) : bool :=
  match fst d with [] => false | _ => true end.

(** The source of the last datagram that carried at least one byte. *)
Definition lastSource (ds : list (list byte * sockaddr)) (start : sockaddr) : sockaddr :=
  fold_left (fun a d => if nonEmptyDatagram d then snd d else a) ds start.

(** A send attempt: the bytes, and what [sendto] returns for them. *)
Definition attempt : Type := (list byte * Z)%type.

Section HostOrder.
Variable host : byte_order.

(** The packet a datagram yields, if any. *)
Definition parsed (d : list byte * sockaddr) : list AudioPacket :=
  match deserializePacket host (received (fst d)) with
  | Some p => [p]
  | None => []
  end.

(** [stop()].  The flag is cleared and the socket closed while the receiver
    thread is in its loop, and [join] returns once that thread has left it.
    [pending] is what the [recvfrom] the thread is blocked in gives back,
    [None] when the thread is not in one: a datagram is processed and
    counted before the loop tests [isRunning_] again and ends. *)
Definition stop (u : UDPManager) (pending : option recv) : UDPManager :=
  if negb (isRunning_ u) then u
  else
    let u1 := closeSocket (withRunning u false) in
    match pending with
    | Some (Datagram bytes fromAddr) => receiveDatagram host u1 bytes fromAddr
    | Some RecvError => u1
    | None => u1
    end.

End HostOrder.

(** The [recvfrom] in flight, as the one result the loop still has to take. *)
Definition inFlight (pending : option recv) : list recv :=
  match pending with
  | Some r => [r]
  | None => []
  end.

Definition sendAll (u : UDPManager) (attempts : list attempt) : UDPManager :=
  fold_left (fun acc a => snd (sendData acc (fst a) (snd a))) attempts u.

Definition reachesSendto (a : attempt) : bool :=
  match fst a with [] => false | _ => true end.

Definition complete (a : attempt) : bool :=
  reachesSendto a && (snd a =? Z.of_nat (length (fst a))).

End UdpRuns.

(** Calls of a bitrate calculator, and the state every run keeps. *)
Module BitrateRuns.
Import Machine Bitrate.

Definition isInitialize (o : op) : bool :=
  match o with Initialize _ => true | _ => false end.

(** Calls that neither start the calculator nor switch adaptation on. *)
Definition passive (o : op) : bool :=
  match o with
  | Initialize _ => false
  | EnableAutoAdaptation enable => negb enable
  | _ => true
  end.

(** The recommended bitrate is the current one, and the history holds at
    most a hundred bitrates of the codec's range, the newest being the
    current one. *)
Definition consistent (c : BitrateCalculator) : Prop :=
  recommendedBitrate_ c = currentBitrate_ c
  /\ maxHistorySize_ c = 100
  /\ (length (bitrateHistory_ c) <= 100)%nat
  /\ Forall in_range (bitrateHistory_ c)
  /\ last (bitrateHistory_ c) (currentBitrate_ c) = currentBitrate_ c.

(** A [float] between [lo] and [hi]; no NaN is. *)
Definition within (lo hi x : F32.float) : bool := F32.leb lo x && F32.leb x hi.

(** The three settings a client can tune. *)
Definition settingsWithinUnit (c : BitrateCalculator) : Prop :=
  within (F32.of_Z 0) (F32.of_Z 1) (targetQuality_ c) = true
  /\ within (F32.of_Z 0) (F32.of_Z 1) (adaptationSpeed_ c) = true
  /\ within (F32.of_Z 0) (F32.of_Z 1) (stabilityThreshold_ c) = true.

End BitrateRuns.

(** [namespace BitrateUtils] *)
Module BitrateUtils.
Import Machine Bitrate.

(** [evaluateNetworkQuality(metrics)]; the subtractions on [uint32_t] are
    made under the guards [> 100] and [> 50]. *)
Definition evaluateNetworkQuality (metrics : NetworkMetrics) : F32.float :=
  let quality0 := F32.of_Z 1 in
  let quality1 :=
    F32.mul quality0 (F32.sub (F32.of_Z 1) (packetLossRate metrics)) in
  let quality2 :=
    if 100 <? averageLatency metrics then
      F32.mul quality1
        (F32.max (F32.lit 1 10)
           (F32.sub (F32.of_Z 1)
              (F32.div (F32.of_Z (wrap32 (averageLatency metrics - 100)))
                 (F32.of_Z 1000))))
    else quality1 in
  let quality3 :=
    if 50 <? jitter metrics then
      F32.mul quality2
        (F32.max (F32.lit 5 10)
           (F32.sub (F32.of_Z 1)
              (F32.div (F32.of_Z (wrap32 (jitter metrics - 50))) (F32.of_Z 500))))
    else quality2 in
  F32.max (F32.of_Z 0) (F32.min (F32.of_Z 1) quality3).

(** [evaluateAudioComplexity(metrics)] *)
Definition evaluateAudioComplexity (metrics : AudioMetrics) : F32.float :=
  let complexity0 :=
    if speechDetected metrics then F32.lit 8 10 else F32.lit 5 10 in
  let complexity1 :=
    F32.add complexity0 (F32.mul (averageVolume metrics) (F32.lit 3 10)) in
  let complexity2 :=
    if F32.gtb (signalToNoiseRatio metrics) (F32.of_Z 0) then
      F32.sub complexity1
        (F32.min (F32.lit 3 10)
           (F32.div (signalToNoiseRatio metrics) (F32.of_Z 100)))
    else complexity1 in
  F32.max (F32.lit 1 10) (F32.min (F32.of_Z 1) complexity2).

End BitrateUtils.

(** What the automatic gain control keeps: a gain between 0.1 and 2, and a
    history of at most fifty such gains. *)
Module PreprocRuns.
Import Machine Preproc.

Definition gainWithin (g : F32.float) : bool :=
  BitrateRuns.within (F32.lit 1 10) (F32.of_Z 2) g.

Definition gainBounded {NS : NoiseSuppresorModel} (p : AudioPreprocessor NS) : Prop :=
  gainWithin (currentGain_ p) = true
  /\ maxGainHistorySize_ p = 50
  /\ (length (gainHistory_ p) <= 50)%nat
  /\ Forall (fun g => gainWithin g = true) (gainHistory_ p).

(** A sample between -1 and 1. *)
Definition unitSample (x : F32.float) : bool :=
  BitrateRuns.within (F32.of_Z (- 1)) (F32.of_Z 1) x.

(** The preprocessor holds a started 16 kHz mono codec and has it
    enabled. *)
Definition codecReady {NS : NoiseSuppresorModel} (p : AudioPreprocessor NS) : Prop :=
  initialized_ p = true
  /\ enableCodec (config_ p) = true
  /\ exists c, codec_ p = Some c
               /\ Codec.initialized_ c = true
               /\ Codec.frameSize_ c = 320
               /\ Codec.channels_ c = 1.

(** The number of samples a frame of [n] samples has after conversion
    from 48 kHz to 16 kHz, and after conversion back, as
    [simpleSampleRateConversion] computes them; [None] when the product is
    not a finite number. *)
Definition downsampled (n : Z) : option Z :=
  F32.trunc
    (F32.mul (F32.of_Z n)
       (F32.div (F32.of_Z Config.LYRA_SAMPLE_RATE) (F32.of_Z Config.SAMPLE_RATE))).

Definition upsampled (n : Z) : option Z :=
  F32.trunc
    (F32.mul (F32.of_Z n)
       (F32.div (F32.of_Z Config.SAMPLE_RATE) (F32.of_Z Config.LYRA_SAMPLE_RATE))).

End PreprocRuns.

(** ** AudioCapture.h, AudioCapture.cpp, AudioPlayer.h, AudioPlayer.cpp

    The sound device is outside the repository: capture starts from the
    bytes [snd_pcm_readi] has delivered, and playback ends with the calls of
    [snd_pcm_writei], whose answers are inputs of the model. *)

Module Pcm.
Import Machine.

(** [Config::BITS_PER_SAMPLE] *)
Definition BITS_PER_SAMPLE : Z := 16.

(** [a != b] on [float]: true also when either is a NaN. *)
Definition neqb (a b : F32.float) : bool := negb (SFeqb a b).

(** [std::max(0.0f, std::min(2.0f, x))], the range of a gain and of a
    volume. *)
Definition clampFactor (x : F32.float) : F32.float :=
  F32.max (F32.of_Z 0) (F32.min (F32.of_Z 2) x).

Section HostOrder.
Variable host : byte_order.
Variable undef : F32.float -> Z.

(** The loop body of [applyGain] and of [applyVolume] on one sample. *)
Definition scaleSample (factor : F32.float) (s : Z) : Z :=
  let sample := F32.mul (F32.of_Z s) factor in
  let clipped :=
    F32.max (F32.of_Z (- 32768)) (F32.min (F32.of_Z 32767) sample) in
  F32.to_int16 undef clipped.

(** The loop over the [size / 2] samples that lie in the [size] bytes; an
    odd last byte is left as it is. *)
Fixpoint scaleBytes (factor : F32.float) (data : list byte) : list byte :=
  match data with
  | b0 :: b1 :: rest =>
      int16_bytes host (scaleSample factor (int16_value host [b0; b1]))
      ++ scaleBytes factor rest
  | _ => data
  end.

End HostOrder.

End Pcm.

Module Capture.
Import Machine Buffer.

(** [class AudioCapture] without the device: the gain, the buffer manager
    it points to, whether a callback is installed, and the blocks passed to
    the callback, oldest first. *)
Record AudioCapture : Type := mkAudioCapture {
  gain_ : F32.float;
  bufferManager_ : option BufferManager;
  onAudioCaptured_ : bool;
  captured : list (list byte)
}.

(** [AudioCapture::AudioCapture()]; [Config::VOLUME_GAIN] is [1.0f]. *)
Definition new : AudioCapture := mkAudioCapture (F32.of_Z 1) None false [].

Definition setBufferManager (c : AudioCapture) (bm : BufferManager) : AudioCapture :=
  mkAudioCapture (gain_ c) (Some bm) (onAudioCaptured_ c) (captured c).

Definition setOnAudioCaptured (c : AudioCapture) : AudioCapture :=
  mkAudioCapture (gain_ c) (bufferManager_ c) true (captured c).

(** [setGain(gain)] *)
Definition setGain (c : AudioCapture) (gain : F32.float) : AudioCapture :=
  mkAudioCapture (Pcm.clampFactor gain) (bufferManager_ c) (onAudioCaptured_ c)
    (captured c).

Section HostOrder.
Variable host : byte_order.
Variable undef : F32.float -> Z.

(** [applyGain(data, size)] *)
Definition applyGain (c : AudioCapture) (data : list byte) : list byte :=
  Pcm.scaleBytes host undef (gain_ c) data.

(** [processAudioData(data, size)] on a non-null [data]. *)
Definition processAudioData (c : AudioCapture) (data : list byte) : AudioCapture :=
  match data with
  | [] => c
  | _ =>
      let processedData :=
        if Pcm.neqb (gain_ c) (F32.of_Z 1) then applyGain c data else data in
      mkAudioCapture (gain_ c)
        (option_map (fun bm => snd (pushInputBuffer bm processedData))
           (bufferManager_ c))
        (onAudioCaptured_ c)
        (if onAudioCaptured_ c then captured c ++ [processedData] else captured c)
  end.

(** The blocks the device delivers, one call each. *)
Definition captureAll (c : AudioCapture) (blocks : list (list byte)) : AudioCapture :=
  fold_left processAudioData blocks c.

End HostOrder.

End Capture.

Module Player.
Import Machine Buffer.

(** [class AudioPlayer].  [pcmHandle_] tells whether the handle is set and
    [onAudioPlayed_] whether a callback is installed; [requested] lists the
    blocks [snd_pcm_writei] was asked to write and [reported] the arguments
    the callback was called with, oldest first. *)
Record AudioPlayer : Type := mkAudioPlayer {
  pcmHandle_ : bool;
  isInitialized_ : bool;
  isPlaying_ : bool;
  bufferManager_ : option BufferManager;
  volume_ : F32.float;
  isMuted_ : bool;
  onAudioPlayed_ : bool;
  playedFrames_ : Z;
  bufferUnderruns_ : Z;
  requested : list (list byte);
  reported : list Z
}.

(** [AudioPlayer::AudioPlayer()] *)
Definition new : AudioPlayer :=
  mkAudioPlayer false false false None (F32.of_Z 1) false false 0 0 [] [].

(** The size of [playbackBuffer_] and of [silenceBuffer_] in bytes. *)
Definition bufferSize : Z :=
  Config.FRAMES_PER_BUFFER * Config.CHANNELS * (Pcm.BITS_PER_SAMPLE / 8).

Definition silenceBuffer_ : list byte := repeat x00 (Z.to_nat bufferSize).

Definition setBufferManager (p : AudioPlayer) (bm : BufferManager) : AudioPlayer :=
  mkAudioPlayer (pcmHandle_ p) (isInitialized_ p) (isPlaying_ p) (Some bm)
    (volume_ p) (isMuted_ p) (onAudioPlayed_ p) (playedFrames_ p)
    (bufferUnderruns_ p) (requested p) (reported p).

(** [setVolume(volume)], [setMuted(muted)] *)
Definition setVolume (p : AudioPlayer) (volume : F32.float) : AudioPlayer :=
  mkAudioPlayer (pcmHandle_ p) (isInitialized_ p) (isPlaying_ p) (bufferManager_ p)
    (Pcm.clampFactor volume) (isMuted_ p) (onAudioPlayed_ p) (playedFrames_ p)
    (bufferUnderruns_ p) (requested p) (reported p).

Definition setMuted (p : AudioPlayer) (muted : bool) : AudioPlayer :=
  mkAudioPlayer (pcmHandle_ p) (isInitialized_ p) (isPlaying_ p) (bufferManager_ p)
    (volume_ p) muted (onAudioPlayed_ p) (playedFrames_ p)
    (bufferUnderruns_ p) (requested p) (reported p).

Definition setOnAudioPlayed (p : AudioPlayer) : AudioPlayer :=
  mkAudioPlayer (pcmHandle_ p) (isInitialized_ p) (isPlaying_ p) (bufferManager_ p)
    (volume_ p) (isMuted_ p) true (playedFrames_ p)
    (bufferUnderruns_ p) (requested p) (reported p).

(** [initialize(deviceName)]; [opened] and [configured] tell whether
    [snd_pcm_open] and [configureDevice] succeed.  After a failure of the
    second, [cleanup] closes the handle. *)
Definition initialize (p : AudioPlayer) (opened configured : bool)
  : bool * AudioPlayer :=
  if isInitialized_ p then (false, p)
  else if negb opened then (false, p)
  else
    (configured,
     mkAudioPlayer configured configured (isPlaying_ p) (bufferManager_ p)
       (volume_ p) (isMuted_ p) (onAudioPlayed_ p) (playedFrames_ p)
       (bufferUnderruns_ p) (requested p) (reported p)).

(** [start()]; [prepared] tells whether [snd_pcm_prepare] succeeds. *)
Definition start (p : AudioPlayer) (prepared : bool) : bool * AudioPlayer :=
  if negb (isInitialized_ p) then (false, p)
  else if isPlaying_ p then (false, p)
  else if negb prepared then (false, p)
  else
    (true,
     mkAudioPlayer (pcmHandle_ p) (isInitialized_ p) true (bufferManager_ p)
       (volume_ p) (isMuted_ p) (onAudioPlayed_ p) (playedFrames_ p)
       (bufferUnderruns_ p) (requested p) (reported p)).

(** [getNextAudioData(buffer, size)] called with the playback buffer: the
    bytes copied, if any, and the player afterwards. *)
Definition getNextAudioData (p : AudioPlayer) : option (list byte) * AudioPlayer :=
  match bufferManager_ p with
  | None => (None, p)
  | Some bm =>
      let (packet, bm') := getNextPlaybackPacket bm in
      let p' := setBufferManager p bm' in
      match packet with
      | None => (None, p')
      | Some pkt =>
          match data pkt with
          | [] => (None, p')
          | _ => (Some (firstn (Z.to_nat bufferSize) (data pkt)), p')
          end
      end
  end.

(** What the device answers to one call of [writeAudioData]: the result of
    [snd_pcm_writei], which writes no more frames than it is asked, and the
    result of the [snd_pcm_prepare] that follows an underrun. *)
Record answer : Type := mkAnswer {
  framesWritten : Z;
  prepareError : Z
}.

(** [EPIPE] *)
Definition EPIPE : Z := 32.

(** [Config::CHANNELS * (Config::BITS_PER_SAMPLE / 8)], the bytes of a
    frame. *)
Definition frameSize : Z := Config.CHANNELS * (Pcm.BITS_PER_SAMPLE / 8).

(** The bytes [snd_pcm_writei(pcmHandle_, data, frames)] is given to write. *)
Definition framesOf (data : list byte) (frames : Z) : list byte :=
  firstn (Z.to_nat (frames * frameSize)) data.

Definition request (p : AudioPlayer) (block : list byte) : AudioPlayer :=
  mkAudioPlayer (pcmHandle_ p) (isInitialized_ p) (isPlaying_ p) (bufferManager_ p)
    (volume_ p) (isMuted_ p) (onAudioPlayed_ p) (playedFrames_ p)
    (bufferUnderruns_ p) (requested p ++ [block]) (reported p).

Definition countUnderrun (p : AudioPlayer) : AudioPlayer :=
  mkAudioPlayer (pcmHandle_ p) (isInitialized_ p) (isPlaying_ p) (bufferManager_ p)
    (volume_ p) (isMuted_ p) (onAudioPlayed_ p) (playedFrames_ p)
    (incr64 (bufferUnderruns_ p)) (requested p) (reported p).

Definition countPlayed (p : AudioPlayer) (frames : Z) : AudioPlayer :=
  mkAudioPlayer (pcmHandle_ p) (isInitialized_ p) (isPlaying_ p) (bufferManager_ p)
    (volume_ p) (isMuted_ p) (onAudioPlayed_ p)
    (wrap64 (playedFrames_ p + frames))
    (bufferUnderruns_ p) (requested p) (reported p).

Definition report (p : AudioPlayer) (bytes : Z) : AudioPlayer :=
  mkAudioPlayer (pcmHandle_ p) (isInitialized_ p) (isPlaying_ p) (bufferManager_ p)
    (volume_ p) (isMuted_ p) (onAudioPlayed_ p) (playedFrames_ p)
    (bufferUnderruns_ p) (requested p) (reported p ++ [bytes]).

(** [writeAudioData(data, size)] on a non-null [data].  The device is asked
    to write [size / 2] frames: an odd last byte is not passed on.  After an
    underrun or an error the block is not offered again. *)
Definition writeAudioData (p : AudioPlayer) (data : list byte) (a : answer)
  : bool * AudioPlayer :=
  let size := Z.of_nat (length data) in
  if negb (pcmHandle_ p) || negb (isPlaying_ p) || (size =? 0) then (false, p)
  else
    let framesToWrite := size / frameSize in
    let p1 := request p (framesOf data framesToWrite) in
    if framesWritten a <? 0 then
      if framesWritten a =? - EPIPE then
        let p2 := countUnderrun p1 in
        if prepareError a <? 0 then (false, p2) else (true, p2)
      else (false, p1)
    else if 0 <? framesWritten a then
      let p2 := countPlayed p1 (framesWritten a) in
      (true,
       if onAudioPlayed_ p2
       then report p2 (wrap64 (framesWritten a * frameSize))
       else p2)
    else (true, p1).

Section HostOrder.
Variable host : byte_order.
Variable undef : F32.float -> Z.

(** [applyVolume(data, size)] *)
Definition applyVolume (p : AudioPlayer) (data : list byte) : list byte :=
  Pcm.scaleBytes host undef (volume_ p) data.

(** [processAudioData(data, size)]: the bytes afterwards. *)
Definition processAudioData (p : AudioPlayer) (data : list byte) : list byte :=
  match data with
  | [] => data
  | _ =>
      if negb (isMuted_ p) && Pcm.neqb (volume_ p) (F32.of_Z 1)
      then applyVolume p data
      else if isMuted_ p then repeat x00 (length data)
      else data
  end.

(** One turn of [playbackLoop] up to its call of [writeAudioData], made by
    the loop or by [playSilence]: the bytes passed in that call, and the
    player before it. *)
Definition playbackTurn (p : AudioPlayer) : list byte * AudioPlayer :=
  match getNextAudioData p with
  | (Some bytes, p') => (processAudioData p' bytes, p')
  | (None, p') => (silenceBuffer_, p')
  end.

(** The bytes passed to [writeAudioData] in [n] successive turns. *)
Fixpoint playbackLoop (n : nat) (p : AudioPlayer) : list (list byte) :=
  match n with
  | O => []
  | S k => let (bytes, p') := playbackTurn p in bytes :: playbackLoop k p'
  end.

(** One whole turn of [playbackLoop()]: the block goes to [writeAudioData],
    which the device answers with [a]. *)
Definition deviceTurn (p : AudioPlayer) (a : answer) : AudioPlayer :=
  let (bytes, p') := playbackTurn p in snd (writeAudioData p' bytes a).

(** [playbackLoop()]: a turn for each answer of the device, as long as
    [isPlaying_] is set. *)
Fixpoint deviceLoop (answers : list answer) (p : AudioPlayer) : AudioPlayer :=
  match answers with
  | [] => p
  | a :: rest =>
      if isPlaying_ p then deviceLoop rest (deviceTurn p a) else p
  end.

End HostOrder.

End Player.

(** What the statements on capture and playback speak of. *)
Module PcmRuns.
Import Machine Buffer.

(** Twice the sample, held within the range of [int16_t]. *)
Definition saturatingDouble (s : Z) : Z := Z.max (- 32768) (Z.min 32767 (2 * s)).

(** What a turn of the playback loop hands over for a queued packet. *)
Definition played (host : byte_order) (undef : F32.float -> Z)
    (p : Player.AudioPlayer) (pkt : AudioPacket) : list byte :=
  match data pkt with
  | [] => Player.silenceBuffer_
  | _ =>
      Player.processAudioData host undef p
        (firstn (Z.to_nat Player.bufferSize) (data pkt))
  end.

Definition allZero (bytes : list byte) : bool :=
  forallb (fun b => Byte.eqb b x00) bytes.

(** The whole 16-bit samples of a block: all of it but an odd last byte. *)
Definition wholeSamples (bytes : list byte) : list byte :=
  firstn (2 * (length bytes / 2)) bytes.

(** A player attached to [bm], initialized and started on a device that
    opens, configures and prepares without error. *)
Definition started (bm : BufferManager) : Player.AudioPlayer :=
  snd (Player.start
         (snd (Player.initialize (Player.setBufferManager Player.new bm) true true))
         true).

(** The block [processAudioData] passes on for a captured block. *)
Definition processed (host : byte_order) (undef : F32.float -> Z)
    (c : Capture.AudioCapture) (block : list byte) : list byte :=
  if Pcm.neqb (Capture.gain_ c) (F32.of_Z 1)
  then Capture.applyGain host undef c block
  else block.

End PcmRuns.

(** ** NoiseSuppresor.cpp as compiled without [HAVE_RNNOISE]

    Without the denoiser library [process] runs [processFallback], which is
    code of the repository. *)

Module NoiseUtils.

(** [NoiseUtils::calculateRMS] on a non-null array. *)
Definition calculateRMS (audioData : list F32.float) : F32.float :=
  match audioData with
  | [] => F32.of_Z 0
  | _ =>
      let sum :=
        fold_left (fun acc x => F32.add acc (F32.mul x x)) audioData (F32.of_Z 0) in
      F32.sqrt (F32.div sum (F32.of_Z (Z.of_nat (length audioData))))
  end.

(** The number of sign changes between neighbours, [previous] being the
    sample before the first of [audioData]. *)
Fixpoint crossings (previous : F32.float) (audioData : list F32.float) : Z :=
  match audioData with
  | [] => 0
  | x :: rest =>
      (if negb (Bool.eqb (F32.geb x (F32.of_Z 0)) (F32.geb previous (F32.of_Z 0)))
       then 1 else 0)
      + crossings x rest
  end.

(** [NoiseUtils::calculateZeroCrossingRate] on a non-null array. *)
Definition calculateZeroCrossingRate (audioData : list F32.float) : F32.float :=
  match audioData with
  | [] | [_] => F32.of_Z 0
  | x :: rest =>
      F32.div (F32.of_Z (crossings x rest))
        (F32.of_Z (Z.of_nat (length audioData) - 1))
  end.

(** [NoiseUtils::simpleNoiseReduction]: the array afterwards. *)
Definition simpleNoiseReduction (audioData : list F32.float) (strength : F32.float)
  : list F32.float :=
  let threshold := F32.mul (F32.lit 1 100) (F32.sub (F32.of_Z 1) strength) in
  map
    (fun sample =>
       let magnitude := F32.abs sample in
       if F32.ltb magnitude threshold
       then F32.mul sample (F32.sub (F32.of_Z 1) strength)
       else sample)
    audioData.

End NoiseUtils.

Module Noise.
Import Machine.

(** [struct NoiseMetrics] *)
Record NoiseMetrics : Type := mkNoiseMetrics {
  noiseLevel : F32.float;
  speechProbability : F32.float;
  suppression : F32.float;
  processedFrames : Z
}.

(** [class NoiseSuppresor] *)
Record NoiseSuppresor : Type := mkNoiseSuppresor {
  initialized_ : bool;
  sampleRate_ : Z;
  suppressionLevel_ : F32.float;
  threshold_ : F32.float;
  vadEnabled_ : bool;
  adaptiveEnabled_ : bool;
  currentMetrics_ : NoiseMetrics;
  processedFrames_ : Z;
  totalSamples_ : Z;
  noiseHistory_ : list F32.float;
  speechHistory_ : list F32.float;
  maxHistorySize_ : Z
}.

(** [NoiseSuppresor::NoiseSuppresor()] *)
Definition new : NoiseSuppresor :=
  mkNoiseSuppresor false Config.RNNOISE_SAMPLE_RATE (F32.lit 8 10) (F32.lit 5 10)
    true true (mkNoiseMetrics (F32.of_Z 0) (F32.of_Z 0) (F32.of_Z 0) 0)
    0 0 [] [] 100.

(** [validateFrameSize], [validateSampleRate] *)
Definition validateFrameSize (frameSize : Z) : bool :=
  frameSize =? Config.RNNOISE_FRAME_SIZE.

Definition validateSampleRate (sampleRate : Z) : bool :=
  sampleRate =? Config.RNNOISE_SAMPLE_RATE.

(** [initialize(sampleRate)] *)
Definition initialize (n : NoiseSuppresor) (sampleRate : Z) : bool * NoiseSuppresor :=
  if initialized_ n then (false, n)
  else if negb (validateSampleRate sampleRate) then (false, n)
  else
    (true,
     mkNoiseSuppresor true sampleRate (suppressionLevel_ n) (threshold_ n)
       (vadEnabled_ n) (adaptiveEnabled_ n) (currentMetrics_ n)
       (processedFrames_ n) (totalSamples_ n) (noiseHistory_ n)
       (speechHistory_ n) (maxHistorySize_ n)).

(** [shutdown()] *)
Definition shutdown (n : NoiseSuppresor) : NoiseSuppresor :=
  if negb (initialized_ n) then n
  else
    mkNoiseSuppresor false (sampleRate_ n) (suppressionLevel_ n) (threshold_ n)
      (vadEnabled_ n) (adaptiveEnabled_ n) (currentMetrics_ n)
      (processedFrames_ n) (totalSamples_ n) [] [] (maxHistorySize_ n).

(** [setSuppressionLevel], [setThreshold], [enableVAD], [enableAdaptive] *)
Definition setSuppressionLevel (n : NoiseSuppresor) (level : F32.float) :=
  mkNoiseSuppresor (initialized_ n) (sampleRate_ n)
    (F32.max (F32.of_Z 0) (F32.min (F32.of_Z 1) level)) (threshold_ n)
    (vadEnabled_ n) (adaptiveEnabled_ n) (currentMetrics_ n)
    (processedFrames_ n) (totalSamples_ n) (noiseHistory_ n)
    (speechHistory_ n) (maxHistorySize_ n).

Definition setThreshold (n : NoiseSuppresor) (threshold : F32.float) :=
  mkNoiseSuppresor (initialized_ n) (sampleRate_ n) (suppressionLevel_ n)
    (F32.max (F32.of_Z 0) (F32.min (F32.of_Z 1) threshold))
    (vadEnabled_ n) (adaptiveEnabled_ n) (currentMetrics_ n)
    (processedFrames_ n) (totalSamples_ n) (noiseHistory_ n)
    (speechHistory_ n) (maxHistorySize_ n).

Definition enableVAD (n : NoiseSuppresor) (enable : bool) :=
  mkNoiseSuppresor (initialized_ n) (sampleRate_ n) (suppressionLevel_ n)
    (threshold_ n) enable (adaptiveEnabled_ n) (currentMetrics_ n)
    (processedFrames_ n) (totalSamples_ n) (noiseHistory_ n)
    (speechHistory_ n) (maxHistorySize_ n).

Definition enableAdaptive (n : NoiseSuppresor) (enable : bool) :=
  mkNoiseSuppresor (initialized_ n) (sampleRate_ n) (suppressionLevel_ n)
    (threshold_ n) (vadEnabled_ n) enable (currentMetrics_ n)
    (processedFrames_ n) (totalSamples_ n) (noiseHistory_ n)
    (speechHistory_ n) (maxHistorySize_ n).

(** [getCurrentSpeechProbability()], [isSpeechDetected()] *)
Definition getCurrentSpeechProbability (n : NoiseSuppresor) : F32.float :=
  speechProbability (currentMetrics_ n).

Definition isSpeechDetected (n : NoiseSuppresor) : bool :=
  F32.gtb (getCurrentSpeechProbability n) (threshold_ n).

(** [calculateNoiseLevel] *)
Definition calculateNoiseLevel (audioData : list F32.float) : F32.float :=
  let rms := NoiseUtils.calculateRMS audioData in
  F32.min (F32.of_Z 1) (F32.mul rms (F32.of_Z 10)).

(** [calculateSpeechProbability] *)
Definition calculateSpeechProbability (n : NoiseSuppresor)
    (audioData : list F32.float) : F32.float :=
  let rms := NoiseUtils.calculateRMS audioData in
  let zcr := NoiseUtils.calculateZeroCrossingRate audioData in
  let speechProb0 := F32.of_Z 0 in
  let speechProb1 :=
    F32.add speechProb0
      (F32.mul (F32.min (F32.of_Z 1) (F32.mul rms (F32.of_Z 5))) (F32.lit 6 10)) in
  let normalizedZCR :=
    F32.div zcr (F32.mul (F32.of_Z (sampleRate_ n)) (F32.lit 1 10)) in
  let speechProb2 :=
    F32.add speechProb1
      (F32.mul
         (F32.sub (F32.of_Z 1)
            (F32.div (F32.abs (F32.sub normalizedZCR (F32.lit 1 10)))
               (F32.lit 1 10)))
         (F32.lit 4 10)) in
  F32.max (F32.of_Z 0) (F32.min (F32.of_Z 1) speechProb2).

(** [applyVAD]: the array afterwards. *)
Definition applyVAD (n : NoiseSuppresor) (audioData : list F32.float)
    (speechProb : F32.float) : list F32.float :=
  if F32.ltb speechProb (threshold_ n)
  then map (fun x => F32.mul x (F32.lit 1 10)) audioData
  else audioData.

(** [clampAudio]: the array afterwards. *)
Definition clampAudio (audioData : list F32.float) : list F32.float :=
  map (fun x => F32.max (F32.of_Z (- 1)) (F32.min (F32.of_Z 1) x)) audioData.

(** One of the two vectors after [addToHistory]. *)
Definition pushHistory (n : NoiseSuppresor) (history : list F32.float)
    (x : F32.float) : list F32.float :=
  let h := history ++ [x] in
  if maxHistorySize_ n <? Z.of_nat (length h) then tl h else h.

(** [updateMetrics(noiseLevel, speechProb, suppression)] *)
Definition updateMetrics (n : NoiseSuppresor)
    (noise speechProb applied : F32.float) : NoiseSuppresor :=
  mkNoiseSuppresor (initialized_ n) (sampleRate_ n) (suppressionLevel_ n)
    (threshold_ n) (vadEnabled_ n) (adaptiveEnabled_ n)
    (mkNoiseMetrics noise speechProb applied (processedFrames_ n))
    (processedFrames_ n) (totalSamples_ n)
    (pushHistory n (noiseHistory_ n) noise)
    (pushHistory n (speechHistory_ n) speechProb)
    (maxHistorySize_ n).

(** [processFallback(audioData, frameSize)]: the state and the array
    afterwards; it returns [true]. *)
Definition processFallback (n : NoiseSuppresor) (audioData : list F32.float)
  : NoiseSuppresor * list F32.float :=
  let noise := calculateNoiseLevel audioData in
  let speechProb := calculateSpeechProbability n audioData in
  let reduced := NoiseUtils.simpleNoiseReduction audioData (suppressionLevel_ n) in
  let appliedSuppression := F32.mul (suppressionLevel_ n) noise in
  let n1 := updateMetrics n noise speechProb appliedSuppression in
  let gated := if vadEnabled_ n1 then applyVAD n1 reduced speechProb else reduced in
  (n1, clampAudio gated).

(** [process(float* audioData, frameSize)] on a non-null array. *)
Definition process (n : NoiseSuppresor) (audioData : list F32.float)
  : bool * NoiseSuppresor * list F32.float :=
  if negb (initialized_ n) then (false, n, audioData)
  else if negb (validateFrameSize (Z.of_nat (length audioData)))
  then (false, n, audioData)
  else
    let (n1, out) := processFallback n audioData in
    (true,
     mkNoiseSuppresor (initialized_ n1) (sampleRate_ n1) (suppressionLevel_ n1)
       (threshold_ n1) (vadEnabled_ n1) (adaptiveEnabled_ n1) (currentMetrics_ n1)
       (incr64 (processedFrames_ n1))
       (wrap64 (totalSamples_ n1 + Z.of_nat (length audioData)))
       (noiseHistory_ n1) (speechHistory_ n1) (maxHistorySize_ n1),
     out).

(** The calls a client can make on a suppressor. *)
Inductive op : Type :=
| Initialize (sampleRate : Z)
| Shutdown
| Process (audioData : list F32.float)
| SetSuppressionLevel (level : F32.float)
| SetThreshold (threshold : F32.float)
| EnableVAD (enable : bool)
| EnableAdaptive (enable : bool).

Definition step (n : NoiseSuppresor) (o : op) : NoiseSuppresor :=
  match o with
  | Initialize sampleRate => snd (initialize n sampleRate)
  | Shutdown => shutdown n
  | Process audioData => snd (fst (process n audioData))
  | SetSuppressionLevel level => setSuppressionLevel n level
  | SetThreshold threshold => setThreshold n threshold
  | EnableVAD enable => enableVAD n enable
  | EnableAdaptive enable => enableAdaptive n enable
  end.

Definition run (n : NoiseSuppresor) (ops : list op) : NoiseSuppresor :=
  fold_left step ops n.

End Noise.

(** The suppressor of the repository as the preprocessor uses it. *)
Definition fallbackSuppressor : NoiseSuppresorModel :=
  mkNoiseSuppresorModel Noise.NoiseSuppresor Noise.new
    (fun n => Noise.initialize n Config.RNNOISE_SAMPLE_RATE)
    Noise.setSuppressionLevel Noise.setThreshold Noise.enableVAD
    (fun n frame =>
       let '(_, n', out) := Noise.process n frame in (n', out))
    Noise.isSpeechDetected Noise.getCurrentSpeechProbability.

Module NoiseRuns.
Import Machine Noise.

Definition unit01 (x : F32.float) : bool :=
  BitrateRuns.within (F32.of_Z 0) (F32.of_Z 1) x.

(** What every call keeps on a suppressor. *)
Definition steady (n : NoiseSuppresor) : Prop :=
  unit01 (suppressionLevel_ n) = true
  /\ unit01 (threshold_ n) = true
  /\ unit01 (speechProbability (currentMetrics_ n)) = true
  /\ F32.leb (noiseLevel (currentMetrics_ n)) (F32.of_Z 1) = true
  /\ maxHistorySize_ n = 100
  /\ length (noiseHistory_ n) = length (speechHistory_ n)
  /\ (length (noiseHistory_ n) <= 100)%nat
  /\ wrap64 (totalSamples_ n) = wrap64 (480 * processedFrames_ n).

End NoiseRuns.

(** * Properties *)

(** ** Bytes and object representations *)

Section MachineFacts.
Import Machine.

Lemma Z_of_byte_of_Z (z : Z) : Z_of_byte (byte_of_Z z) = z mod 256.
Proof.
  unfold Z_of_byte, byte_of_Z.
  assert (Hr : 0 <= z mod 256 < 256) by (apply Z.mod_pos_bound; lia).
  destruct (Byte.of_N (Z.to_N (z mod 256))) as [b|] eqn:E.
  - apply Byte.to_of_N in E. rewrite E. apply Z2N.id. lia.
  - apply Byte.of_N_None_iff in E. lia.
Qed.

Lemma length_le_bytes (n : nat) (z : Z) : length (le_bytes n z) = n.
Proof. revert z. induction n as [|k IH]; intros z; simpl; [|rewrite IH]; reflexivity. Qed.

Lemma le_value_le_bytes (n : nat) (z : Z) :
  le_value (le_bytes n z) = z mod 256 ^ Z.of_nat n.
Proof.
  revert z. induction n as [|k IH]; intros z.
  - simpl. now rewrite Z.mod_1_r.
  - cbn [le_bytes le_value]. rewrite Z_of_byte_of_Z, IH.
    rewrite Nat2Z.inj_succ, Z.pow_succ_r by lia.
    rewrite Z.rem_mul_r by lia. reflexivity.
Qed.

Lemma length_object_bytes (host : byte_order) (n : nat) (z : Z) :
  length (object_bytes host n z) = n.
Proof.
  destruct host; simpl; [|rewrite length_rev]; apply length_le_bytes.
Qed.

Lemma object_value_object_bytes (host : byte_order) (n : nat) (z : Z) :
  object_value host (object_bytes host n z) = z mod 256 ^ Z.of_nat n.
Proof.
  destruct host; simpl; [|rewrite rev_involutive]; apply le_value_le_bytes.
Qed.

Lemma wrap32_small (z : Z) : is_uint32 z -> wrap32 z = z.
Proof. unfold is_uint32, wrap32. intros H. now apply Z.mod_small. Qed.

Lemma int16_value_int16_bytes (host : byte_order) (s : Z) :
  is_int16 s -> int16_value host (int16_bytes host s) = s.
Proof.
  unfold is_int16, int16_value, int16_bytes, int16_of_uint16. intros H.
  rewrite object_value_object_bytes.
  change (256 ^ Z.of_nat 2) with 65536. rewrite Z.mod_mod by lia.
  destruct (Z.ltb_spec (s mod 65536) 32768) as [L|L];
    Z.to_euclidean_division_equations; lia.
Qed.

End MachineFacts.

(** ** The wire format *)

Section WireFacts.
Import Machine Buffer Udp.

Lemma length_serializePacket (host : byte_order) (p : AudioPacket) :
  length (serializePacket host (Some p)) = (4 + length (data p))%nat.
Proof.
  unfold serializePacket. now rewrite length_app, length_object_bytes.
Qed.

Lemma received_short (bytes : list byte) :
  Z.of_nat (length bytes) <= Config.PACKET_SIZE * 2 -> received bytes = bytes.
Proof.
  unfold received, Config.PACKET_SIZE. intros H. apply firstn_all2. lia.
Qed.

(** A datagram made of a four-byte header and a payload deserializes to the
    payload and the header read as an object of the host. *)
Lemma deserializePacket_app (host : byte_order) (header payload : list byte) :
  length header = 4%nat ->
  deserializePacket host (header ++ payload)
  = Some (newAudioPacket payload (object_value host header)).
Proof.
  intros H. unfold deserializePacket.
  rewrite length_app, H.
  destruct (Z.ltb_spec (Z.of_nat (4 + length payload)) 4) as [L|_]; [lia|].
  rewrite <- H at 1 2.
  rewrite firstn_app, Nat.sub_diag, firstn_all, firstn_O, app_nil_r.
  now rewrite skipn_app, Nat.sub_diag, skipn_all, skipn_O.
Qed.

Lemma serialize_deserialize (host : byte_order) (p : AudioPacket) :
  deserializePacket host (serializePacket host (Some p))
  = Some (newAudioPacket (data p) (sequenceNumber p)).
Proof.
  unfold serializePacket.
  rewrite deserializePacket_app by apply length_object_bytes.
  rewrite object_value_object_bytes.
  unfold newAudioPacket, wrap32. change (256 ^ Z.of_nat 4) with (2 ^ 32).
  now rewrite Z.mod_mod by lia.
Qed.

End WireFacts.

(** C3. Wire round trip: a packet whose sequence number is a [uint32_t] and
    whose payload has at most 1020 bytes, serialized and then read back from
    the receive buffer and deserialized, comes out with the same sequence
    number and the same payload bytes.  Both steps run on hosts of the same
    byte order, whichever it is. *)
Theorem wire_round_trip (host : Machine.byte_order) (seq : Z) (payload : list byte) :
  Machine.is_uint32 seq ->
  (length payload <= 1020)%nat ->
  let sent := Udp.serializePacket host (Some (Buffer.newAudioPacket payload seq)) in
  exists q,
    Udp.deserializePacket host (Udp.received sent) = Some q
    /\ Buffer.sequenceNumber q = seq
    /\ Buffer.data q = payload.
Proof.
  intros Hseq Hlen sent. subst sent.
  eexists. split; [|split].
  - rewrite received_short.
    + apply serialize_deserialize.
    + rewrite length_serializePacket. simpl Buffer.data.
      unfold Config.PACKET_SIZE. lia.
  - simpl. unfold Machine.wrap32. rewrite Z.mod_mod by lia.
    now apply wrap32_small.
  - reflexivity.
Qed.

Lemma wire_round_trip_witness :
  exists q,
    Udp.deserializePacket Machine.BigEndian
      (Udp.received
         (Udp.serializePacket Machine.BigEndian
            (Some (Buffer.newAudioPacket [x01; xff; x80] 4000000000))))
    = Some q
    /\ Buffer.sequenceNumber q = 4000000000
    /\ Buffer.data q = [x01; xff; x80].
Proof.
  apply (wire_round_trip Machine.BigEndian 4000000000 [x01; xff; x80]).
  - unfold Machine.is_uint32. lia.
  - simpl. lia.
Defined.

(** C8, as the code has it.  The sequence number is copied out of the
    datagram with [memcpy], so it is read in the byte order of the host: a
    datagram that starts with 39 30 00 00 has the sequence number 12345 on a
    little-endian host and 959447040 on a big-endian host. *)
Theorem sequence_number_host_order (payload : list byte) :
  Udp.deserializePacket Machine.LittleEndian ([x39; x30; x00; x00] ++ payload)
  = Some (Buffer.newAudioPacket payload 12345)
  /\ Udp.deserializePacket Machine.BigEndian ([x39; x30; x00; x00] ++ payload)
     = Some (Buffer.newAudioPacket payload 959447040).
Proof.
  split; now rewrite deserializePacket_app.
Qed.

(** C8, as stated, fails: on a big-endian host the four bytes 39 30 00 00 do
    not deserialize to 12345. *)
Lemma sequence_number_depends_on_host :
  ~ (forall host : Machine.byte_order,
       option_map Buffer.sequenceNumber
         (Udp.deserializePacket host [x39; x30; x00; x00]) = Some 12345).
Proof.
  intros H. specialize (H Machine.BigEndian). vm_compute in H. discriminate H.
Qed.

(** ** The receive loop *)

Section ReceiveFacts.
Import Machine Buffer Udp.

Lemma deserializePacket_short (host : byte_order) (bytes : list byte) :
  (length bytes < 4)%nat -> deserializePacket host bytes = None.
Proof.
  intros H. unfold deserializePacket.
  destruct (Z.ltb_spec (Z.of_nat (length bytes)) 4) as [_|L]; [reflexivity|lia].
Qed.

Lemma receiverLoop_datagram (host : byte_order) (u : UDPManager)
    (bytes : list byte) (fromAddr : sockaddr) (rest : list (recv)) :
  isRunning_ u = true ->
  receiverLoop host u (Datagram bytes fromAddr :: rest)
  = receiverLoop host (receiveDatagram host u bytes fromAddr) rest.
Proof. intros H. simpl. now rewrite H. Qed.

End ReceiveFacts.

(** C7, as the code has it.  A datagram of fewer than four bytes is never
    delivered: the buffer manager is left as it was and the packet callback
    is not invoked.  The class has no counter of malformed datagrams: a
    datagram of one to three bytes is handed to the raw-data callback when
    one is installed and counted in [receivedPackets_], an empty datagram is
    skipped without any effect.  In both cases the loop goes on with the next
    datagram. *)
Theorem short_datagram_discarded (host : Machine.byte_order) (u : Udp.UDPManager)
    (bytes : list byte) (fromAddr : Udp.sockaddr) (rest : list Udp.recv) :
  Udp.isRunning_ u = true ->
  (length bytes < 4)%nat ->
  let u' := Udp.receiveDatagram host u bytes fromAddr in
  Udp.bufferManager_ u' = Udp.bufferManager_ u
  /\ Udp.invoked u'
     = Udp.invoked u
       ++ (if Udp.onDataReceived_ u && negb (Nat.eqb (length bytes) 0)
           then [Udp.DataReceived bytes] else [])
  /\ Udp.counters u'
     = (Udp.sentPackets_ u,
        (if Nat.eqb (length bytes) 0 then Udp.receivedPackets_ u
         else Machine.incr64 (Udp.receivedPackets_ u)),
        Udp.failedSends_ u)
  /\ Udp.isRunning_ u' = true
  /\ Udp.receiverLoop host u (Udp.Datagram bytes fromAddr :: rest)
     = Udp.receiverLoop host u' rest.
Proof.
  intros Hrun Hlen u'.
  assert (Hloop : Udp.receiverLoop host u (Udp.Datagram bytes fromAddr :: rest)
                  = Udp.receiverLoop host u' rest)
    by now apply receiverLoop_datagram.
  subst u'. revert Hloop. unfold Udp.receiveDatagram.
  rewrite received_short by (unfold Config.PACKET_SIZE; lia).
  destruct bytes as [|b0 tl0].
  - simpl. rewrite andb_false_r, app_nil_r. intros Hloop. repeat split; assumption.
  - assert (Hpos : (0 <? Z.of_nat (length (b0 :: tl0))) = true)
      by (apply Z.ltb_lt; simpl length; lia).
    rewrite Hpos. unfold Udp.processReceivedData.
    assert (Hnz : (Z.of_nat (length (b0 :: tl0)) =? 0) = false)
      by (apply Z.eqb_neq; simpl length; lia).
    rewrite Hnz, deserializePacket_short by assumption.
    intros Hloop.
    destruct u as [fd ra run srv bm odr opr sp rp fs inv].
    simpl in Hrun. subst run.
    destruct srv, odr; simpl; rewrite ?app_nil_r; repeat split;
      try reflexivity; exact Hloop.
Qed.

Lemma short_datagram_discarded_witness :
  let u' := Udp.receiveDatagram Machine.LittleEndian listener [x01; x02; x03] (7, 9) in
  Udp.bufferManager_ u' = Some Buffer.new
  /\ Udp.invoked u' = [Udp.DataReceived [x01; x02; x03]]
  /\ Udp.counters u' = (0, 1, 0)
  /\ Udp.isRunning_ u' = true
  /\ Udp.receiverLoop Machine.LittleEndian listener
       [Udp.Datagram [x01; x02; x03] (7, 9)]
     = Udp.receiverLoop Machine.LittleEndian u' [].
Proof.
  apply (short_datagram_discarded Machine.LittleEndian listener
           [x01; x02; x03] (7, 9) []).
  - reflexivity.
  - simpl. lia.
Defined.

(** C7, as stated, fails.  An empty datagram changes nothing in the manager,
    so no counter records it; a three-byte datagram moves the counters
    exactly as a well-formed datagram does, by one received packet. *)
Lemma short_datagram_not_counted_as_malformed :
  Udp.receiverLoop Machine.LittleEndian listener [Udp.Datagram [] (7, 9)] = listener
  /\ Udp.counters
       (Udp.receiverLoop Machine.LittleEndian listener
          [Udp.Datagram [x01; x02; x03] (7, 9)])
     = (0, 1, 0)
  /\ Udp.counters
       (Udp.receiverLoop Machine.LittleEndian listener
          [Udp.Datagram [x01; x02; x03; x04] (7, 9)])
     = (0, 1, 0).
Proof. repeat split; vm_compute; reflexivity. Qed.

(** ** The frame buffer *)

Section BufferFacts.
Import Machine Buffer.

Lemma length_keep {A : Type} (k : nat) (l : list A) :
  length (keep k l) = Nat.min k (length l).
Proof. unfold keep. rewrite length_skipn. lia. Qed.

Lemma keep_all {A : Type} (k : nat) (l : list A) :
  (length l <= k)%nat -> keep k l = l.
Proof.
  intros H. unfold keep. replace (length l - k)%nat with 0%nat by lia.
  reflexivity.
Qed.

Lemma keep_snoc {A : Type} (k : nat) (l : list A) (x : A) :
  (1 <= k)%nat -> keep k (keep k l ++ [x]) = keep k (l ++ [x]).
Proof.
  intros Hk. unfold keep at 1 3.
  rewrite !length_app, length_keep. simpl length.
  destruct (Nat.le_gt_cases (length l) k) as [Hle|Hgt].
  - rewrite keep_all by assumption. f_equal. lia.
  - unfold keep.
    replace (Nat.min k (length l) + 1 - k)%nat with 1%nat by lia.
    replace (length l + 1 - k)%nat with (1 + (length l - k))%nat by lia.
    rewrite <- skipn_skipn.
    rewrite (skipn_app (length l - k)).
    replace (length l - k - length l)%nat with 0%nat by lia.
    reflexivity.
Qed.

Lemma wrap64_incr (z : Z) : incr64 (wrap64 z) = wrap64 (z + 1).
Proof.
  unfold incr64, wrap64. now rewrite Zplus_mod_idemp_l.
Qed.

(** The queue after a push onto a buffer with room for at least one frame. *)
Lemma pushAudioPacket_queue (b : BufferManager) (p : AudioPacket) :
  1 <= maxBufferSize_ b ->
  Z.of_nat (length (inputBuffer_ b)) <= maxBufferSize_ b ->
  inputBuffer_ (snd (pushAudioPacket b (Some p)))
  = keep (Z.to_nat (maxBufferSize_ b)) (inputBuffer_ b ++ [p]).
Proof.
  intros HK Hlen. unfold pushAudioPacket, isBufferFull. simpl.
  destruct (Z.leb_spec (maxBufferSize_ b) (Z.of_nat (length (inputBuffer_ b))))
    as [Hfull|Hroom].
  - destruct (inputBuffer_ b) as [|oldest rest] eqn:E; simpl in *; [lia|].
    unfold keep. simpl length. rewrite length_app. simpl length.
    replace (S (length rest + 1) - Z.to_nat (maxBufferSize_ b))%nat with 1%nat by lia.
    reflexivity.
  - rewrite keep_all; [reflexivity|]. rewrite length_app. simpl length. lia.
Qed.

Lemma pushAll_snoc (b : BufferManager) (ps : list AudioPacket) (p : AudioPacket) :
  pushAll b (ps ++ [p]) = snd (pushAudioPacket (pushAll b ps) (Some p)).
Proof. unfold pushAll. now rewrite fold_left_app. Qed.

Lemma pushAudioPacket_capacity (b : BufferManager) (p : option AudioPacket) :
  maxBufferSize_ (snd (pushAudioPacket b p)) = maxBufferSize_ b.
Proof. destruct p; reflexivity. Qed.

(** The state after a burst of pushes into an empty buffer. *)
Lemma pushAll_state (K : Z) (ps : list AudioPacket) :
  1 <= K ->
  let b := pushAll (setMaxBufferSize new K) ps in
  maxBufferSize_ b = K
  /\ inputBuffer_ b = keep (Z.to_nat K) ps
  /\ droppedPackets_ b = wrap64 (Z.of_nat (length ps - Z.to_nat K)).
Proof.
  intros HK. induction ps as [|p ps IH] using rev_ind.
  - simpl. repeat split.
  - cbv zeta in *. destruct IH as (Hmax & Hq & Hd).
    rewrite pushAll_snoc.
    set (b := pushAll (setMaxBufferSize new K) ps) in *.
    assert (Hlen : Z.of_nat (length (inputBuffer_ b)) <= maxBufferSize_ b).
    { rewrite Hq, Hmax, length_keep. lia. }
    split; [|split].
    + now rewrite pushAudioPacket_capacity.
    + rewrite pushAudioPacket_queue by lia.
      rewrite Hq, Hmax. apply keep_snoc. lia.
    + unfold pushAudioPacket, isBufferFull. simpl.
      rewrite Hd, Hq, Hmax, length_keep, length_app. simpl length.
      destruct (Z.leb_spec K (Z.of_nat (Nat.min (Z.to_nat K) (length ps))))
        as [Hfull|Hroom].
      * rewrite wrap64_incr. f_equal. lia.
      * f_equal. lia.
Qed.

Lemma popAll_drains (fuel : nat) (b : BufferManager) :
  (length (inputBuffer_ b) <= fuel)%nat -> popAll fuel b = inputBuffer_ b.
Proof.
  revert b. induction fuel as [|k IH]; intros b H.
  - destruct (inputBuffer_ b); [reflexivity|simpl in H; lia].
  - simpl. unfold popAudioPacket.
    destruct (inputBuffer_ b) as [|p rest] eqn:E; [reflexivity|].
    f_equal. rewrite IH; simpl; [reflexivity|]. simpl in H. lia.
Qed.

Lemma length_removeOldPackets_snoc (q : queue) (p : AudioPacket) (K : Z) :
  1 <= K -> Z.of_nat (length q) <= K ->
  Z.of_nat
    (length ((if K <=? Z.of_nat (length q) then removeOldPackets q else q) ++ [p]))
  <= K.
Proof.
  intros HK Hq. rewrite length_app. simpl length.
  destruct (Z.leb_spec K (Z.of_nat (length q))) as [Hfull|Hroom]; [|lia].
  destruct q; simpl in *; lia.
Qed.

Lemma step_bounded (K : Z) (b : BufferManager) (o : op) :
  1 <= K -> bounded K b -> bounded K (step b o).
Proof.
  intros HK (Hmax & Hin & Hout).
  unfold bounded, getInputBufferSize, getOutputBufferSize in *.
  destruct o as [[p|]| |bytes|[p|]| |]; simpl; try (repeat split; assumption).
  - unfold isBufferFull. rewrite Hmax. repeat split; try assumption.
    now apply length_removeOldPackets_snoc.
  - unfold popAudioPacket. destruct (inputBuffer_ b) as [|p rest] eqn:E; simpl.
    + rewrite E. repeat split; simpl; assumption.
    + repeat split; try assumption. simpl in Hin. lia.
  - destruct bytes as [|b0 bytes]; simpl.
    + repeat split; assumption.
    + unfold isBufferFull. simpl. rewrite Hmax. repeat split; try assumption.
      now apply length_removeOldPackets_snoc.
  - unfold isBufferFull. rewrite Hmax. repeat split; try assumption.
    now apply length_removeOldPackets_snoc.
  - unfold getNextPlaybackPacket.
    destruct (outputBuffer_ b) as [|p rest] eqn:E; simpl.
    + rewrite E. repeat split; simpl; assumption.
    + repeat split; try assumption. simpl in Hout. lia.
  - repeat split; try assumption; simpl; lia.
Qed.

Lemma run_bounded (K : Z) (ops : list op) (b : BufferManager) :
  1 <= K -> bounded K b -> bounded K (run b ops).
Proof.
  intros HK. revert b. induction ops as [|o ops IH]; intros b Hb; simpl.
  - exact Hb.
  - apply IH. now apply step_bounded.
Qed.

End BufferFacts.

(** C1.  On a buffer of capacity [K], which is at least one frame (10 by
    default, 4 in the burst below):
    - a push onto a full buffer evicts exactly the oldest queued frame, adds
      one to the dropped counter, enqueues the new frame and returns true;
    - after any sequence of calls on a buffer that starts empty, neither
      queue holds more than [K] frames;
    - after a burst of pushes into an empty buffer the queue holds the last
      [K] frames pushed, in the order pushed, the dropped counter is the
      number of frames beyond [K], and popping returns exactly those frames
      in that order;
    - with [K = 4] and the frames 0..9, the size is 4, the dropped counter 6,
      and the pops return 6, 7, 8, 9. *)
Theorem push_drop_oldest_fifo (K : Z) (HK : 1 <= K) :
  (forall (b : Buffer.BufferManager) (p : Buffer.AudioPacket),
      Buffer.maxBufferSize_ b = K ->
      Buffer.isBufferFull b (Buffer.inputBuffer_ b) = true ->
      exists oldest rest,
        Buffer.inputBuffer_ b = oldest :: rest
        /\ Buffer.pushAudioPacket b (Some p)
           = (true,
              Buffer.mkBufferManager (rest ++ [p]) (Buffer.outputBuffer_ b) K
                (Buffer.nextSequenceNumber_ b)
                (Machine.incr64 (Buffer.droppedPackets_ b))
                (Machine.incr64 (Buffer.totalPackets_ b))))
  /\ (forall ops : list Buffer.op,
         let b := Buffer.run (Buffer.setMaxBufferSize Buffer.new K) ops in
         Buffer.getInputBufferSize b <= K /\ Buffer.getOutputBufferSize b <= K)
  /\ (forall ps : list Buffer.AudioPacket,
         let b := Buffer.pushAll (Buffer.setMaxBufferSize Buffer.new K) ps in
         Buffer.inputBuffer_ b = keep (Z.to_nat K) ps
         /\ Buffer.getInputBufferSize b = Z.min K (Z.of_nat (length ps))
         /\ Buffer.getDroppedPackets b
            = Machine.wrap64 (Z.max 0 (Z.of_nat (length ps) - K))
         /\ Buffer.popAll (length ps) b = keep (Z.to_nat K) ps)
  /\ (let b := Buffer.pushAll (Buffer.setMaxBufferSize Buffer.new 4)
                 (map Buffer.frame [0; 1; 2; 3; 4; 5; 6; 7; 8; 9]) in
      Buffer.getInputBufferSize b = 4
      /\ Buffer.getDroppedPackets b = 6
      /\ map Buffer.sequenceNumber (Buffer.popAll 10 b) = [6; 7; 8; 9]).
Proof.
  split; [|split; [|split]].
  - intros b p Hmax Hfull. unfold Buffer.isBufferFull in Hfull.
    apply Z.leb_le in Hfull.
    destruct (Buffer.inputBuffer_ b) as [|oldest rest] eqn:E.
    + simpl in Hfull. lia.
    + exists oldest, rest. split; [reflexivity|].
      unfold Buffer.pushAudioPacket, Buffer.isBufferFull. rewrite E, Hmax.
      apply Z.leb_le in Hfull. rewrite Hmax in Hfull. rewrite Hfull.
      reflexivity.
  - intros ops b.
    assert (Hb : bounded K b).
    { apply run_bounded; [assumption|].
      unfold bounded, Buffer.getInputBufferSize, Buffer.getOutputBufferSize.
      simpl. lia. }
    destruct Hb as (_ & Hin & Hout). split; assumption.
  - intros ps b. destruct (pushAll_state K ps HK) as (Hmax & Hq & Hd).
    fold b in Hmax, Hq, Hd.
    split; [exact Hq|split; [|split]].
    + unfold Buffer.getInputBufferSize. rewrite Hq, length_keep. lia.
    + unfold Buffer.getDroppedPackets. rewrite Hd. f_equal. lia.
    + rewrite popAll_drains; [exact Hq|]. rewrite Hq, length_keep. lia.
  - vm_compute. repeat split.
Qed.

Lemma push_drop_oldest_fifo_witness :
  let full :=
    Buffer.pushAll (Buffer.setMaxBufferSize Buffer.new 4)
      (map Buffer.frame [0; 1; 2; 3]) in
  let b :=
    Buffer.pushAll (Buffer.setMaxBufferSize Buffer.new 4)
      (map Buffer.frame [0; 1; 2; 3; 4; 5; 6; 7; 8; 9]) in
  (exists oldest rest,
      Buffer.inputBuffer_ full = oldest :: rest
      /\ Buffer.pushAudioPacket full (Some (Buffer.frame 4))
         = (true,
            Buffer.mkBufferManager (rest ++ [Buffer.frame 4])
              (Buffer.outputBuffer_ full) 4 (Buffer.nextSequenceNumber_ full)
              (Machine.incr64 (Buffer.droppedPackets_ full))
              (Machine.incr64 (Buffer.totalPackets_ full))))
  /\ Buffer.inputBuffer_ b = map Buffer.frame [6; 7; 8; 9]
  /\ Buffer.getInputBufferSize b = 4
  /\ Buffer.getDroppedPackets b = 6
  /\ Buffer.popAll 10 b = map Buffer.frame [6; 7; 8; 9].
Proof.
  assert (H4 : 1 <= 4) by lia.
  split.
  - apply (proj1 (push_drop_oldest_fifo 4 H4)); reflexivity.
  - exact (proj1 (proj2 (proj2 (push_drop_oldest_fifo 4 H4)))
             (map Buffer.frame [0; 1; 2; 3; 4; 5; 6; 7; 8; 9])).
Defined.

(** ** The codec *)

Section CodecFacts.
Import Machine Codec.
Variable host : byte_order.

Lemma odd_length_not_even (bytes : list byte) :
  Nat.odd (length bytes) = true ->
  (Z.of_nat (length bytes) =? 0) = false
  /\ (Z.of_nat (length bytes) mod 2 =? 0) = false.
Proof.
  intros H. apply Nat.odd_spec in H. destruct H as [k Hk]. rewrite Hk.
  split; apply Z.eqb_neq.
  - lia.
  - rewrite Nat2Z.inj_add, Nat2Z.inj_mul. simpl Z.of_nat.
    rewrite Z.add_comm, Z.mul_comm, Z_mod_plus_full. discriminate.
Qed.

Lemma decodeRaw_odd (bytes : list byte) :
  Nat.odd (length bytes) = true -> decodeRaw host bytes = [].
Proof.
  intros H. unfold decodeRaw.
  now rewrite (proj2 (odd_length_not_even bytes H)).
Qed.

(** What [encode] does to the sequence counter: a failure leaves it, a
    success stamps the packet with it and steps it. *)
Lemma encode_sequence (c : LyraCodec) (now : Z) (samples : list Z) :
  (fst (encode host c now samples) = None
   /\ nextSequenceNumber_ (snd (encode host c now samples)) = nextSequenceNumber_ c)
  \/ (exists p,
        fst (encode host c now samples) = Some p
        /\ sequenceNumber p = nextSequenceNumber_ c
        /\ nextSequenceNumber_ (snd (encode host c now samples))
           = incr32 (nextSequenceNumber_ c)).
Proof.
  unfold encode.
  destruct (negb (initialized_ c)); [left; split; reflexivity|].
  destruct (Z.of_nat (length samples) =? 0); [left; split; reflexivity|].
  destruct (negb (validateInputSize c (Z.of_nat (length samples))));
    [left; split; reflexivity|].
  destruct (encodeRaw host samples) as [|b bytes].
  - left; split; reflexivity.
  - right. eexists. repeat split.
Qed.

Lemma decode_sequence (c : LyraCodec) (bytes : list byte) :
  nextSequenceNumber_ (snd (decode host c bytes)) = nextSequenceNumber_ c.
Proof.
  unfold decode.
  destruct (negb (initialized_ c)); [reflexivity|].
  destruct (Z.of_nat (length bytes) =? 0); [reflexivity|].
  destruct (decodeRaw host bytes); reflexivity.
Qed.

Lemma setBitrate_sequence (c : LyraCodec) (br : Z) :
  nextSequenceNumber_ (snd (setBitrate c br)) = nextSequenceNumber_ c.
Proof. unfold setBitrate. destruct (negb (isValidBitrate br)); reflexivity. Qed.

Lemma initialize_sequence (c : LyraCodec) (sampleRate channels br : Z) :
  nextSequenceNumber_ (snd (initialize c sampleRate channels br))
  = nextSequenceNumber_ c.
Proof.
  unfold initialize. destruct (initialized_ c); [reflexivity|].
  destruct (negb (validateParameters sampleRate channels br)); reflexivity.
Qed.

Lemma counting_S (z : Z) (n : nat) :
  counting z (S n) = wrap32 z :: counting (z + 1) n.
Proof.
  unfold counting. simpl. rewrite Z.add_0_r. f_equal.
  rewrite <- seq_shift, map_map. apply map_ext. intros i.
  f_equal. lia.
Qed.

Lemma incr32_wrap32 (z : Z) : incr32 (wrap32 z) = wrap32 (z + 1).
Proof. unfold incr32, wrap32. now rewrite Zplus_mod_idemp_l. Qed.

Lemma wrap32_idem (z : Z) : wrap32 (wrap32 z) = wrap32 z.
Proof. unfold wrap32. apply Z.mod_mod. lia. Qed.

Lemma session_counting (ops : list op) (c : LyraCodec) (z : Z) :
  nextSequenceNumber_ c = wrap32 z ->
  map sequenceNumber (fst (session host c ops))
  = counting z (length (fst (session host c ops))).
Proof.
  revert c z. induction ops as [|o ops IH]; intros c z Hc.
  - reflexivity.
  - destruct o as [sr ch br|now samples|bytes|br]; simpl.
    + apply IH. now rewrite initialize_sequence.
    + destruct (encode_sequence c now samples) as [[Hn Hs]|(p & Hp & Hseq & Hs)];
        destruct (encode host c now samples) as [r c'] eqn:E; simpl in *; subst r.
      * specialize (IH c' z). rewrite Hs in IH. specialize (IH Hc).
        destruct (session host c' ops) as [ps c'']. exact IH.
      * specialize (IH c' (z + 1)). rewrite Hs, Hc, incr32_wrap32 in IH.
        specialize (IH eq_refl).
        destruct (session host c' ops) as [ps c'']. simpl in *.
        rewrite counting_S, IH, Hseq, Hc. reflexivity.
    + apply IH. now rewrite decode_sequence.
    + apply IH. now rewrite setBitrate_sequence.
Qed.

Lemma nth_counting (z : Z) (n i : nat) :
  (i < n)%nat -> nth i (counting z n) 0 = wrap32 (z + Z.of_nat i).
Proof.
  intros Hi. unfold counting.
  transitivity ((fun k => wrap32 (z + Z.of_nat k)) (nth i (seq 0 n) 0%nat)).
  - rewrite <- (map_nth (fun k => wrap32 (z + Z.of_nat k)) (seq 0 n) 0%nat i).
    apply nth_indep. rewrite length_map, length_seq. lia.
  - now rewrite seq_nth by lia.
Qed.

Lemma counting_increasing (n i j : nat) :
  (i < j < n)%nat -> Z.of_nat j < 2 ^ 32 ->
  nth i (counting 0 n) 0 < nth j (counting 0 n) 0.
Proof.
  intros Hij Hj. rewrite !nth_counting by lia.
  unfold wrap32. rewrite !Z.mod_small by lia. lia.
Qed.

End CodecFacts.

(** C10. On an initialized codec, decoding a payload with an odd number of
    bytes returns absent and adds one to the decoding-error counter; the
    decoded-frames counter, like everything else in the codec, is unchanged. *)
Theorem odd_payload_rejected (host : Machine.byte_order) (c : Codec.LyraCodec)
    (encodedData : list byte) :
  Codec.initialized_ c = true ->
  Nat.odd (length encodedData) = true ->
  Codec.decode host c encodedData = (None, Codec.countDecodingError c)
  /\ Codec.decodingErrors_ (snd (Codec.decode host c encodedData))
     = Machine.incr64 (Codec.decodingErrors_ c)
  /\ (0 <= Codec.decodingErrors_ c < 2 ^ 64 - 1 ->
      Codec.decodingErrors_ (snd (Codec.decode host c encodedData))
      = Codec.decodingErrors_ c + 1)
  /\ Codec.decodedFrames_ (snd (Codec.decode host c encodedData))
     = Codec.decodedFrames_ c.
Proof.
  intros Hinit Hodd.
  assert (E : Codec.decode host c encodedData = (None, Codec.countDecodingError c)).
  { unfold Codec.decode. rewrite Hinit. simpl negb.
    rewrite (proj1 (odd_length_not_even encodedData Hodd)).
    now rewrite decodeRaw_odd. }
  rewrite E. simpl. repeat split.
  intros Hr. unfold Machine.incr64, Machine.wrap64. apply Z.mod_small. lia.
Qed.

Lemma odd_payload_rejected_witness :
  let c := snd (Codec.initialize Codec.new 16000 1 6000) in
  let r := Codec.decode Machine.LittleEndian c [x01; x02; x03] in
  fst r = None
  /\ Codec.decodingErrors_ c = 0
  /\ Codec.decodingErrors_ (snd r) = 1
  /\ Codec.decodedFrames_ (snd r) = Codec.decodedFrames_ c.
Proof.
  cbv zeta.
  destruct (odd_payload_rejected Machine.LittleEndian
              (snd (Codec.initialize Codec.new 16000 1 6000)) [x01; x02; x03]
              eq_refl eq_refl) as (H1 & _ & H3 & H4).
  split; [|split; [|split]].
  - now rewrite H1.
  - reflexivity.
  - rewrite H3; [reflexivity|]. simpl. lia.
  - exact H4.
Defined.

(** ** The bitrate controller *)

Section BitrateFacts.
Import Machine Bitrate.
Variable undef : F32.float -> Z.

Lemma clampBitrate_in_range (br : Z) : in_range (clampBitrate br).
Proof.
  unfold in_range, clampBitrate, Config.LYRA_MIN_BITRATE, Config.LYRA_MAX_BITRATE.
  lia.
Qed.

Lemma calculateOptimalBitrate_in_range (c : BitrateCalculator) :
  in_range (calculateOptimalBitrate undef c).
Proof.
  unfold calculateOptimalBitrate.
  destruct (negb (initialized_ c)).
  - unfold in_range, Config.LYRA_DEFAULT_BITRATE, Config.LYRA_MIN_BITRATE,
      Config.LYRA_MAX_BITRATE. lia.
  - apply clampBitrate_in_range.
Qed.

Lemma adapt_in_range (c : BitrateCalculator) :
  in_range (currentBitrate_ c) -> in_range (currentBitrate_ (adapt undef c)).
Proof.
  intros H. unfold adapt.
  destruct (autoAdaptationEnabled_ c); [|exact H].
  destruct (shouldUpdateBitrate c (calculateOptimalBitrate undef c)); [|exact H].
  apply calculateOptimalBitrate_in_range.
Qed.

Lemma step_in_range (c : BitrateCalculator) (o : op) :
  in_range (currentBitrate_ c) -> in_range (currentBitrate_ (step undef c o)).
Proof.
  intros H. destruct o; simpl; try exact H.
  - unfold initialize. destruct (initialized_ c); [exact H|].
    apply clampBitrate_in_range.
  - unfold shutdown. destruct (negb (initialized_ c)); exact H.
  - apply adapt_in_range. exact H.
  - apply adapt_in_range. exact H.
  - unfold reportPacketLoss. destruct (totalPackets =? 0); exact H.
  - unfold setQualityMode. simpl.
    destruct (autoAdaptationEnabled_ c); [|exact H].
    match goal with
    | |- context [negb ?b] => destruct (negb b); [|exact H]
    end.
    apply calculateOptimalBitrate_in_range.
Qed.

Lemma run_in_range (ops : list op) (c : BitrateCalculator) :
  in_range (currentBitrate_ c) -> in_range (currentBitrate_ (run undef c ops)).
Proof.
  revert c. induction ops as [|o ops IH]; intros c H; simpl.
  - exact H.
  - apply IH. now apply step_in_range.
Qed.

End BitrateFacts.

(** C5. Whatever calls are made on a calculator, in whatever order and with
    whatever metrics, the current bitrate stays within 3200..9200: from
    construction, through initialization, after every update. *)
Theorem bitrate_always_clamped (undef : F32.float -> Z) (ops : list Bitrate.op) :
  let c := Bitrate.run undef Bitrate.new ops in
  3200 <= Bitrate.currentBitrate_ c <= 9200.
Proof.
  intros c. subst c. apply (run_in_range undef ops Bitrate.new).
  unfold in_range. simpl. unfold Config.LYRA_DEFAULT_BITRATE,
    Config.LYRA_MIN_BITRATE, Config.LYRA_MAX_BITRATE. lia.
Qed.

(** C9. [reportPacketLoss] with no packets in total returns the calculator
    unchanged: the loss rate and every other member keep their values, and
    the quotient is not formed. *)
Theorem report_no_packets_is_noop (c : Bitrate.BitrateCalculator) (lostPackets : Z) :
  Bitrate.reportPacketLoss c 0 lostPackets = c.
Proof. reflexivity. Qed.

(** *** The guards on [metricsMutex_] *)

Section BitrateLockFacts.
Import Machine Bitrate.
Variable undef : F32.float -> Z.

(** A call that comes back has computed and stored what [Bitrate] says. *)
Lemma step_returns (c c' : BitrateCalculator) (o : op) :
  BitrateLocks.step undef c o = BitrateLocks.Returns c' ->
  Bitrate.step undef c o = c'.
Proof.
  destruct o; cbn [BitrateLocks.step Bitrate.step]; intros H;
    try (injection H as <-; reflexivity).
  - unfold BitrateLocks.updateNetworkMetrics, BitrateLocks.adapt,
      BitrateLocks.calculateOptimalBitrate in H.
    unfold Bitrate.updateNetworkMetrics, Bitrate.adapt,
      Bitrate.calculateOptimalBitrate.
    cbn [BitrateLocks.bind BitrateLocks.lock_guard] in H.
    destruct (autoAdaptationEnabled_ (withNetworkMetrics c metrics));
      [|injection H as <-; reflexivity].
    destruct (negb (initialized_ (withNetworkMetrics c metrics)));
      cbn [BitrateLocks.bind] in H; [|discriminate H].
    injection H as <-. reflexivity.
  - unfold BitrateLocks.updateAudioMetrics, BitrateLocks.adapt,
      BitrateLocks.calculateOptimalBitrate in H.
    unfold Bitrate.updateAudioMetrics, Bitrate.adapt,
      Bitrate.calculateOptimalBitrate.
    cbn [BitrateLocks.bind BitrateLocks.lock_guard] in H.
    destruct (autoAdaptationEnabled_ (withAudioMetrics c metrics));
      [|injection H as <-; reflexivity].
    destruct (negb (initialized_ (withAudioMetrics c metrics)));
      cbn [BitrateLocks.bind] in H; [|discriminate H].
    injection H as <-. reflexivity.
  - unfold BitrateLocks.reportPacketLoss in H.
    destruct (totalPackets =? 0) eqn:E;
      cbn [BitrateLocks.bind BitrateLocks.lock_guard] in H; injection H as <-;
      [unfold Bitrate.reportPacketLoss; rewrite E|]; reflexivity.
  - unfold BitrateLocks.setQualityMode, BitrateLocks.calculateOptimalBitrate in H.
    unfold Bitrate.setQualityMode, Bitrate.calculateOptimalBitrate.
    cbv zeta in *.
    destruct (autoAdaptationEnabled_ (withQualityMode c mode));
      [|injection H as <-; reflexivity].
    destruct (negb (initialized_ (withQualityMode c mode)));
      cbn [BitrateLocks.bind BitrateLocks.lock_guard] in H;
      injection H as <-; reflexivity.
Qed.

(** The runs with the guards are runs of [Bitrate]: what holds of every
    run of [Bitrate] holds of every run that comes back. *)
Lemma run_returns (ops : list op) (c c' : BitrateCalculator) :
  BitrateLocks.run undef c ops = BitrateLocks.Returns c' ->
  Bitrate.run undef c ops = c'.
Proof.
  revert c. induction ops as [|o ops IH]; intros c H; cbn in H.
  - injection H as <-. reflexivity.
  - destruct (BitrateLocks.step undef c o) as [c1|] eqn:E;
      cbn [BitrateLocks.bind] in H; [|discriminate H].
    apply step_returns in E. cbn. rewrite E. apply IH. exact H.
Qed.

Lemma threshold_not_reached (t : F32.float) :
  F32.ltb (F32.of_Z 0) t = true -> F32.geb (S754_zero false) t = false.
Proof.
  destruct t as [s|s| |s m e]; try destruct s; vm_compute; congruence.
Qed.

(** A step of nothing is below every positive threshold. *)
Lemma shouldUpdateBitrate_default (c : BitrateCalculator) :
  currentBitrate_ c = Config.LYRA_DEFAULT_BITRATE ->
  F32.ltb (F32.of_Z 0) (stabilityThreshold_ c) = true ->
  shouldUpdateBitrate c Config.LYRA_DEFAULT_BITRATE = false.
Proof.
  intros Hc Ht. unfold shouldUpdateBitrate. rewrite Hc.
  apply threshold_not_reached. exact Ht.
Qed.

(** Where an update comes back (the calculator is not initialized, or
    adaptation is off) and the threshold is positive, the same update again
    changes nothing: whatever the first update committed is final. *)
Lemma returning_update_settles (c c1 : BitrateCalculator) (m : NetworkMetrics) :
  BitrateLocks.updateNetworkMetrics undef c m = BitrateLocks.Returns c1 ->
  F32.ltb (F32.of_Z 0) (stabilityThreshold_ c) = true ->
  BitrateLocks.updateNetworkMetrics undef c1 m = BitrateLocks.Returns c1.
Proof.
  unfold BitrateLocks.updateNetworkMetrics, BitrateLocks.adapt,
    BitrateLocks.calculateOptimalBitrate.
  cbn [BitrateLocks.bind BitrateLocks.lock_guard].
  destruct c as [ini cur rec tq sp th qm auto nm am hist mx ch].
  unfold withNetworkMetrics at 1 2 3 4 5.
  cbn [initialized_ autoAdaptationEnabled_ currentBitrate_
       recommendedBitrate_ targetQuality_ adaptationSpeed_ stabilityThreshold_
       qualityMode_ networkMetrics_ audioMetrics_ bitrateHistory_
       maxHistorySize_ bitrateChanges_].
  intros H Ht. destruct auto.
  - destruct ini; cbn [negb BitrateLocks.bind BitrateLocks.lock_guard] in H;
      [discriminate H|].
    match type of H with
    | BitrateLocks.Returns (if ?b then _ else _) = _ => destruct b eqn:E
    end; injection H as <-.
    + unfold commit, withNetworkMetrics.
      cbn [initialized_ autoAdaptationEnabled_
           currentBitrate_ recommendedBitrate_ targetQuality_ adaptationSpeed_
           stabilityThreshold_ qualityMode_ networkMetrics_ audioMetrics_
           bitrateHistory_ maxHistorySize_ bitrateChanges_ negb
           BitrateLocks.bind].
      rewrite shouldUpdateBitrate_default; [reflexivity|reflexivity|exact Ht].
    + unfold withNetworkMetrics.
      cbn [initialized_ autoAdaptationEnabled_
           currentBitrate_ recommendedBitrate_ targetQuality_ adaptationSpeed_
           stabilityThreshold_ qualityMode_ networkMetrics_ audioMetrics_
           bitrateHistory_ maxHistorySize_ bitrateChanges_ negb
           BitrateLocks.bind].
      rewrite E. reflexivity.
  - injection H as <-. reflexivity.
Qed.

End BitrateLockFacts.



(** ** The preprocessor *)

Section PreprocFacts.
Import Machine Preproc.
Variable NS : NoiseSuppresorModel.
Variable host : byte_order.
Variable undef : F32.float -> Z.

Lemma forall_bits_spec (n : nat) (f : Z -> bool) :
  forall_bits n f = true -> forall z, 0 <= z < 2 ^ Z.of_nat n -> f z = true.
Proof.
  revert f. induction n as [|k IH]; intros f H z Hz.
  - simpl in Hz. replace z with 0 by lia. exact H.
  - simpl in H. apply andb_prop in H. destruct H as [He Ho].
    rewrite Nat2Z.inj_succ, Z.pow_succ_r in Hz by lia.
    assert (Hq : 0 <= z / 2 < 2 ^ Z.of_nat k)
      by (split; [apply Z.div_pos; lia|apply Z.div_lt_upper_bound; lia]).
    assert (Hcases : z = 2 * (z / 2) \/ z = 2 * (z / 2) + 1).
    { pose proof (Z.div_mod z 2 ltac:(lia)) as D.
      pose proof (Z.mod_pos_bound z 2 ltac:(lia)) as B. lia. }
    destruct Hcases as [E|E]; rewrite E.
    + exact (IH _ He _ Hq).
    + exact (IH _ Ho _ Hq).
Qed.

(** A property checked on the 65536 values [u - 32768] holds of every
    16-bit sample. *)
Lemma every_sample (f : Z -> bool) (s : Z) :
  forall_bits 16 (fun u => f (u - 32768)) = true -> is_int16 s -> f s = true.
Proof.
  intros H Hs. unfold is_int16 in Hs.
  pose proof (forall_bits_spec 16 _ H (s + 32768)) as Hspec.
  cbv beta in Hspec. replace (s + 32768 - 32768) with s in Hspec by lia.
  apply Hspec. simpl. lia.
Qed.

(** Close [chain [s] = [towardZero s]] by running the chain on every 16-bit
    value. *)
Ltac by_every_sample chain s Hs :=
  let check := constr:(fun x : Z => match chain [x] with
                                    | [r] => r =? towardZero x
                                    | _ => false
                                    end) in
  let H := fresh "H" in
  assert (H : forall_bits 16 (fun u => check (u - 32768)) = true)
    by (vm_compute; reflexivity);
  apply (every_sample check s) in H; [|exact Hs];
  cbv beta in H;
  destruct (chain [s]) as [|? [|? ?]]; try discriminate H;
  apply Z.eqb_eq in H; now rewrite H.

(** Through the output chain without gain, every 16-bit sample comes back
    one step nearer to zero. *)
Lemma output_sample_plain (s : Z) :
  is_int16 s -> floatToInt16 undef (int16ToFloat [s]) = [towardZero s].
Proof.
  intros Hs.
  by_every_sample (fun l => floatToInt16 undef (int16ToFloat l)) s Hs.
Qed.

(** The same with the gain at its initial value 1. *)
Lemma output_sample_unit_gain (s : Z) :
  is_int16 s ->
  floatToInt16 undef (map (fun x => F32.mul x (F32.of_Z 1)) (int16ToFloat [s]))
  = [towardZero s].
Proof.
  intros Hs.
  by_every_sample
    (fun l => floatToInt16 undef
                (map (fun x => F32.mul x (F32.of_Z 1)) (int16ToFloat l))) s Hs.
Qed.

Lemma output_frame_plain (frame : list Z) :
  Forall is_int16 frame ->
  floatToInt16 undef (int16ToFloat frame) = map towardZero frame.
Proof.
  induction 1 as [|s frame Hs _ IH]; [reflexivity|].
  change (floatToInt16 undef (int16ToFloat (s :: frame)))
    with (floatToInt16 undef (int16ToFloat [s])
            ++ floatToInt16 undef (int16ToFloat frame)).
  now rewrite output_sample_plain, IH.
Qed.

Lemma output_frame_unit_gain (frame : list Z) :
  Forall is_int16 frame ->
  floatToInt16 undef (map (fun x => F32.mul x (F32.of_Z 1)) (int16ToFloat frame))
  = map towardZero frame.
Proof.
  induction 1 as [|s frame Hs _ IH]; [reflexivity|].
  change (floatToInt16 undef
            (map (fun x => F32.mul x (F32.of_Z 1)) (int16ToFloat (s :: frame))))
    with (floatToInt16 undef
            (map (fun x => F32.mul x (F32.of_Z 1)) (int16ToFloat [s]))
          ++ floatToInt16 undef
               (map (fun x => F32.mul x (F32.of_Z 1)) (int16ToFloat frame))).
  now rewrite output_sample_unit_gain, IH.
Qed.

(** [processOutput] on a frame that fits the scratch vector, with the gain
    control off or the gain at 1. *)
Lemma processOutput_toward_zero (p : AudioPreprocessor NS) (frame : list Z) :
  initialized_ p = true ->
  enableAGC (config_ p) = false \/ currentGain_ p = F32.of_Z 1 ->
  Forall is_int16 frame ->
  (1 <= length frame <= 1024)%nat ->
  processOutput undef p frame = InBounds (true, map towardZero frame).
Proof.
  intros Hinit Hgain Hframe Hlen. unfold processOutput.
  rewrite Hinit. simpl negb.
  assert (Hv : validateSampleCount (Z.of_nat (length frame)) = true).
  { unfold validateSampleCount, Config.FRAMES_PER_BUFFER.
    apply andb_true_intro. split; [apply Z.ltb_lt|apply Z.leb_le]; lia. }
  rewrite Hv. simpl negb.
  assert (Hfit : (Config.FRAMES_PER_BUFFER <? Z.of_nat (length frame)) = false)
    by (unfold Config.FRAMES_PER_BUFFER; apply Z.ltb_ge; lia).
  rewrite Hfit.
  destruct frame as [|s frame]; [simpl in Hlen; lia|].
  unfold processAudioChain.
  change (int16ToFloat (s :: frame))
    with (F32.mul (F32.of_Z s) (F32.div (F32.of_Z 1) (F32.of_Z 32768))
          :: int16ToFloat frame) at 1.
  cbv iota.
  change (F32.mul (F32.of_Z s) (F32.div (F32.of_Z 1) (F32.of_Z 32768))
          :: int16ToFloat frame)
    with (int16ToFloat (s :: frame)).
  destruct (enableAGC (config_ p)) eqn:Eagc.
  - destruct Hgain as [Hoff|Hone]; [discriminate Hoff|].
    rewrite Hone. now rewrite output_frame_unit_gain.
  - now rewrite output_frame_plain.
Qed.

Lemma int16_bytes_pair (s : Z) :
  exists b0 b1, int16_bytes host s = [b0; b1].
Proof.
  pose proof (length_object_bytes host 2 (s mod 65536)) as H.
  unfold int16_bytes.
  destruct (object_bytes host 2 (s mod 65536)) as [|b0 [|b1 [|b2 l]]];
    try discriminate H.
  now exists b0, b1.
Qed.

(** Reading a sample array back from its bytes. *)
Lemma samples_of_bytes_raw (frame : list Z) :
  Forall is_int16 frame ->
  Codec.samples_of_bytes host (flat_map (int16_bytes host) frame) = frame.
Proof.
  induction 1 as [|s frame Hs _ IH]; [reflexivity|].
  simpl flat_map.
  pose proof (int16_value_int16_bytes host s Hs) as Hv.
  destruct (int16_bytes_pair s) as (b0 & b1 & E).
  rewrite E in *. simpl. now rewrite Hv, IH.
Qed.

Lemma length_raw (frame : list Z) :
  length (flat_map (int16_bytes host) frame) = (2 * length frame)%nat.
Proof.
  induction frame as [|s frame IH]; [reflexivity|].
  simpl flat_map. rewrite length_app, IH.
  destruct (int16_bytes_pair s) as (b0 & b1 & E). rewrite E. simpl. lia.
Qed.

Lemma updateGainControl_core (p : AudioPreprocessor NS) (a : list F32.float) :
  core (updateGainControl p a) = core p.
Proof.
  unfold updateGainControl. destruct (F32.gtb _ _); reflexivity.
Qed.

Lemma notifySpeech_core (p : AudioPreprocessor NS) (b : bool) :
  core (notifySpeech p b) = core p.
Proof. unfold notifySpeech. destruct (onSpeechDetected_ p); reflexivity. Qed.

Lemma processAudioChain_core (p : AudioPreprocessor NS) (a : list F32.float)
    (isInput : bool) :
  core (snd (fst (processAudioChain p a isInput))) = core p.
Proof.
  unfold processAudioChain.
  destruct a as [|x a]; [reflexivity|].
  destruct isInput; [|reflexivity].
  set (a0 := x :: a).
  assert (H1 : exists p1 a1,
             (if enableAGC (config_ p) then applyAGC p a0 else (p, a0)) = (p1, a1)
             /\ core p1 = core p).
  { destruct (enableAGC (config_ p)).
    - unfold applyAGC, a0. eexists. eexists. split; [reflexivity|].
      apply updateGainControl_core.
    - eexists. eexists. split; reflexivity. }
  destruct H1 as (p1 & a1 & E1 & C1). rewrite E1.
  assert (H2 : exists p2 a2 s2,
             match noiseSuppresor_ p1 with
             | Some n =>
                 if enableNoiseSupression (config_ p1)
                    && (Config.RNNOISE_FRAME_SIZE <=? Z.of_nat (length a1))
                 then
                   let '(n', frame) :=
                     ns_process NS n
                       (firstn (Z.to_nat Config.RNNOISE_FRAME_SIZE) a1) in
                   (withSuppressor p1 (Some n'), overwrite frame a1,
                    ns_isSpeechDetected NS n')
                 else (p1, a1, false)
             | None => (p1, a1, false)
             end = (p2, a2, s2)
             /\ core p2 = core p1).
  { destruct (noiseSuppresor_ p1) as [n|]; [|repeat eexists].
    destruct (enableNoiseSupression (config_ p1)
              && (Config.RNNOISE_FRAME_SIZE <=? Z.of_nat (length a1)));
      [|repeat eexists].
    destruct (ns_process NS n (firstn (Z.to_nat Config.RNNOISE_FRAME_SIZE) a1))
      as [n' frame].
    repeat eexists. }
  destruct H2 as (p2 & a2 & s2 & E2 & C2). rewrite E2.
  destruct (enableVAD (config_ p2)); simpl;
    rewrite notifySpeech_core; congruence.
Qed.

Lemma processInput_core (p : AudioPreprocessor NS) (a : list Z) :
  match processInput undef p a with
  | InBounds (_, p', _) => core p' = core p
  | Overrun => True
  end.
Proof.
  unfold processInput.
  destruct (negb (initialized_ p)); [reflexivity|].
  destruct (negb (validateSampleCount (Z.of_nat (length a)))); [reflexivity|].
  destruct (Config.FRAMES_PER_BUFFER <? Z.of_nat (length a)); [exact I|].
  pose proof (processAudioChain_core p (int16ToFloat a) true) as H.
  destruct (processAudioChain p (int16ToFloat a) true) as [[ok p'] a'].
  simpl in H. destruct ok; simpl; exact H.
Qed.

(** What [encode] does with the codec enabled: the session ends in an
    overrun, or nothing is emitted and the counter stays, or the packet
    carries the counter and the counter steps. *)
Lemma encode_counter (p : AudioPreprocessor NS) (now : Z) (a : list Z) :
  enableCodec (config_ p) = true ->
  match encode host undef p now a with
  | Overrun => True
  | InBounds (None, p') =>
      config_ p' = config_ p /\ counter p' = counter p
  | InBounds (Some pkt, p') =>
      config_ p' = config_ p
      /\ counter p = Some (Codec.sequenceNumber pkt)
      /\ counter p' = Some (incr32 (Codec.sequenceNumber pkt))
  end.
Proof.
  intros Hen. unfold encode.
  destruct (codec_ p) as [c|] eqn:Ec; [|split; reflexivity].
  destruct (negb (initialized_ p)); [split; reflexivity|].
  rewrite Hen. simpl negb. cbv iota.
  pose proof (processInput_core p a) as Hcore.
  destruct (processInput undef p a) as [[[ok p'] processed]|]; [|exact I].
  unfold core in Hcore. injection Hcore as Hi Hc Hcd.
  destruct ok.
  - match goal with
    | |- context [Codec.encode host c now ?f] =>
        pose proof (encode_sequence host c now f) as Hs;
        destruct (Codec.encode host c now f) as [r c']
    end.
    simpl in Hs. unfold counter. rewrite Ec. simpl.
    destruct Hs as [[Hn Hs]|(pk & Hp & Hseq & Hs)]; subst r.
    + repeat split; [exact Hc|]. now rewrite Hs.
    + repeat split; [exact Hc|now rewrite Hseq|now rewrite Hs, Hseq].
  - split; [exact Hc|]. unfold counter. now rewrite Hcd, Ec.
Qed.

Lemma finishOutput_state (p : AudioPreprocessor NS) (samples : list Z) :
  match finishOutput undef p samples with
  | Overrun => True
  | InBounds (_, p') => p' = p
  end.
Proof.
  unfold finishOutput.
  destruct (processOutput undef p samples) as [[ok out]|]; [|exact I].
  destruct ok; reflexivity.
Qed.

Lemma decode_counter (p : AudioPreprocessor NS) (packet : Codec.EncodedPacket) :
  match decode host undef p packet with
  | Overrun => True
  | InBounds (_, p') => config_ p' = config_ p /\ counter p' = counter p
  end.
Proof.
  unfold decode.
  destruct (codec_ p) as [c|] eqn:Ec; [|split; reflexivity].
  destruct (negb (initialized_ p)); [split; reflexivity|].
  destruct (negb (enableCodec (config_ p))).
  - destruct (negb (Z.of_nat (length (Codec.data packet)) mod 2 =? 0));
      [split; reflexivity|].
    match goal with
    | |- context [finishOutput undef p ?s] =>
        pose proof (finishOutput_state p s) as H;
        destruct (finishOutput undef p s) as [[r p']|]; [|exact I]
    end.
    subst p'. split; reflexivity.
  - unfold Codec.decodePacket.
    pose proof (decode_sequence host c (Codec.data packet)) as Hs.
    destruct (Codec.decode host c (Codec.data packet)) as [decoded c'].
    simpl in Hs.
    assert (Hc : counter (withCodec p (Some c')) = counter p)
      by (unfold counter; rewrite Ec; simpl; now rewrite Hs).
    destruct decoded as [samples|]; [|split; [reflexivity|exact Hc]].
    destruct (negb (Config.SAMPLE_RATE =? Config.LYRA_SAMPLE_RATE));
      match goal with
      | |- context [finishOutput undef ?q ?s] =>
          pose proof (finishOutput_state q s) as H;
          destruct (finishOutput undef q s) as [[r p']|]; [|exact I]
      end;
      subst p'; (split; [reflexivity|exact Hc]).
Qed.

Lemma updateConfig_counter (p : AudioPreprocessor NS) (config : PreprocessingConfig) :
  counter (updateConfig p config) = counter p
  /\ (config_ (updateConfig p config) = config_ p
      \/ config_ (updateConfig p config) = config).
Proof.
  unfold updateConfig.
  destruct (negb (validateConfig config)); [split; [reflexivity|now left]|].
  split; [|now right].
  unfold counter. simpl. destruct (codec_ p) as [c|]; [|reflexivity].
  simpl. now rewrite setBitrate_sequence.
Qed.

Lemma preproc_session_counting (ops : list op) (p : AudioPreprocessor NS) (z : Z) :
  counterAt z p ->
  codecStaysEnabled ops ->
  map Codec.sequenceNumber (fst (session host undef p ops))
  = counting z (length (fst (session host undef p ops))).
Proof.
  revert p z. induction ops as [|o ops IH]; intros p z [Hen Hc] Hops.
  - reflexivity.
  - inversion Hops as [|o' ops' Ho Hrest]; subst.
    destruct o as [now a|packet|config]; simpl.
    + pose proof (encode_counter p now a Hen) as H.
      destruct (encode host undef p now a) as [[[pkt|] p']|]; [| |reflexivity].
      * destruct H as (Hcfg & Hp & Hp').
        assert (Hseq : Codec.sequenceNumber pkt = wrap32 z).
        { destruct Hc as [Hc|Hc]; rewrite Hc in Hp; congruence. }
        assert (J : counterAt (z + 1) p').
        { split; [now rewrite Hcfg|]. right.
          now rewrite Hp', Hseq, incr32_wrap32. }
        specialize (IH p' (z + 1) J Hrest).
        destruct (session host undef p' ops) as [ps p'']. simpl in *.
        now rewrite counting_S, IH, Hseq.
      * destruct H as (Hcfg & Hp').
        assert (J : counterAt z p').
        { split; [now rewrite Hcfg|]. now rewrite Hp'. }
        specialize (IH p' z J Hrest).
        destruct (session host undef p' ops) as [ps p'']. exact IH.
    + pose proof (decode_counter p packet) as H.
      destruct (decode host undef p packet) as [[r p']|]; [|reflexivity].
      destruct H as (Hcfg & Hp').
      apply IH; [|exact Hrest]. split; [now rewrite Hcfg|now rewrite Hp'].
    + destruct (updateConfig_counter p config) as (Hp' & Hcfg).
      apply IH; [|exact Hrest]. split; [|now rewrite Hp'].
      destruct Hcfg as [E|E]; rewrite E; assumption.
Qed.

Lemma initialize_counterAt (config : PreprocessingConfig) :
  enableCodec config = true ->
  counterAt 0 (snd (initialize (new NS) config)).
Proof.
  intros Hen. unfold initialize. simpl initialized_. cbv iota.
  destruct (negb (validateConfig config)) eqn:Hv.
  - split; [reflexivity|now left].
  - match goal with
    | |- context [initializeComponents ?q] =>
        destruct (initializeComponents q) as [ok p2] eqn:E
    end.
    unfold initializeComponents in E. simpl config_ in E. rewrite Hen in E.
    destruct (enableNoiseSupression config);
      [destruct (ns_initialize NS (ns_new NS)) as [okn n]; destruct okn|];
      simpl in E;
      try (injection E as <- <-; split; [exact Hen|now left]);
      (destruct (Codec.initialize Codec.new Config.LYRA_SAMPLE_RATE
                   Config.CHANNELS (targetBitrate config)) as [okc c] eqn:Ei;
       pose proof (initialize_sequence Codec.new Config.LYRA_SAMPLE_RATE
                     Config.CHANNELS (targetBitrate config)) as Hs;
       rewrite Ei in Hs; simpl in Hs;
       destruct okc;
       [destruct (enableBitrateAdaptation config); simpl in E;
        injection E as <- <-;
        (split; [exact Hen|right; unfold counter; simpl; now rewrite Hs])
       |injection E as <- <-; split; [exact Hen|now left]]).
Qed.


End PreprocFacts.

Lemma counting_countsUp (seqs : list Z) :
  seqs = counting 0 (length seqs) -> countsUp seqs.
Proof.
  intros E. split.
  - intros i Hi. rewrite E. rewrite nth_counting by exact Hi. reflexivity.
  - intros i j Hij Hj. rewrite E. now apply counting_increasing.
Qed.

(** C2, as the code has it.  The packets a freshly constructed codec emits
    during any session of [initialize], [encode], [decode] and [setBitrate]
    calls carry 0, 1, 2, ... modulo [2^32], whatever calls fail in between;
    so do the packets of a preprocessor initialized with the codec enabled,
    for as long as the codec stays enabled.  With the codec disabled the
    preprocessor stamps the sequence number 0 on every packet. *)
Theorem sequence_numbers_count_up (NS : NoiseSuppresorModel)
    (host : Machine.byte_order) (undef : F32.float -> Z) :
  (forall ops : list Codec.op,
      countsUp (map Codec.sequenceNumber (fst (Codec.session host Codec.new ops))))
  /\ (forall (config : Preproc.PreprocessingConfig) (ops : list Preproc.op),
         Preproc.enableCodec config = true ->
         codecStaysEnabled ops ->
         countsUp
           (map Codec.sequenceNumber
              (fst (Preproc.session host undef
                      (snd (Preproc.initialize (Preproc.new NS) config)) ops))))
  /\ (forall (p : Preproc.AudioPreprocessor NS) (now : Z) (audioData : list Z),
         Preproc.initialized_ p = true ->
         Preproc.codec_ p <> None ->
         Preproc.enableCodec (Preproc.config_ p) = false ->
         exists packet,
           Preproc.encode host undef p now audioData
           = Preproc.InBounds (Some packet, p)
           /\ Codec.sequenceNumber packet = 0).
Proof.
  split; [|split].
  - intros ops. apply counting_countsUp. rewrite length_map.
    now apply session_counting.
  - intros config ops Hen Hops. apply counting_countsUp. rewrite length_map.
    apply preproc_session_counting; [|exact Hops].
    now apply initialize_counterAt.
  - intros p now audioData Hinit Hcodec Hraw. unfold Preproc.encode.
    destruct (Preproc.codec_ p) as [c|]; [|congruence].
    rewrite Hinit, Hraw. simpl. eexists. split; reflexivity.
Qed.

Lemma sequence_numbers_count_up_witness :
  countsUp
    (map Codec.sequenceNumber
       (fst (Preproc.session Machine.LittleEndian unspecified codecPreprocessor
               [Preproc.Encode 0 (constantFrame 100);
                Preproc.UpdateConfig Preproc.defaultConfig;
                Preproc.Encode 20 (constantFrame 100)])))
  /\ exists packet,
       Preproc.encode Machine.LittleEndian unspecified rawPreprocessor 0 [1; 2; 3]
       = Preproc.InBounds (Some packet, rawPreprocessor)
       /\ Codec.sequenceNumber packet = 0.
Proof.
  destruct (sequence_numbers_count_up idleSuppressor Machine.LittleEndian unspecified)
    as (_ & Hcodec & Hraw).
  split.
  - apply (Hcodec Preproc.defaultConfig).
    + reflexivity.
    + repeat constructor.
  - apply Hraw.
    + reflexivity.
    + discriminate.
    + reflexivity.
Defined.

(** C2, as stated for the raw path, fails: with the codec disabled two
    successive frames are both emitted with the sequence number 0. *)
Lemma raw_path_repeats_zero :
  let seqs :=
    map Codec.sequenceNumber
      (fst (Preproc.session Machine.LittleEndian unspecified rawPreprocessor
              [Preproc.Encode 0 (constantFrame 100);
               Preproc.Encode 20 (constantFrame 100)])) in
  seqs = [0; 0] /\ ~ (nth 0 seqs 0 < nth 1 seqs 0).
Proof.
  cbv zeta. split.
  - vm_compute. reflexivity.
  - vm_compute. discriminate.
Qed.

(** C4, as the code has it.  On a preprocessor that holds a codec and has
    the codec disabled, with the gain control off or the gain at 1, the
    decoded frame of an encoded frame of 1 to 1024 samples has the same
    length and every sample one step nearer to zero: [decode] passes the raw
    samples through [processOutput], which scales them by 1/32768 into
    [float] and back by 32767 with truncation. *)
Theorem raw_round_trip_toward_zero (NS : NoiseSuppresorModel)
    (host : Machine.byte_order) (undef : F32.float -> Z)
    (p : Preproc.AudioPreprocessor NS) (now : Z) (frame : list Z) :
  Preproc.initialized_ p = true ->
  Preproc.codec_ p <> None ->
  Preproc.enableCodec (Preproc.config_ p) = false ->
  Preproc.enableAGC (Preproc.config_ p) = false
  \/ Preproc.currentGain_ p = F32.of_Z 1 ->
  Forall Machine.is_int16 frame ->
  (1 <= length frame <= 1024)%nat ->
  Preproc.decodeOfEncode host undef p now frame
  = Preproc.InBounds (Some (map towardZero frame)).
Proof.
  intros Hinit Hcodec Hraw Hgain Hframe Hlen.
  unfold Preproc.decodeOfEncode, Preproc.encode, Preproc.decode.
  destruct (Preproc.codec_ p) as [c|] eqn:Ec; [|congruence].
  rewrite Hinit, Hraw. simpl negb. cbv iota. rewrite Ec, Hinit, Hraw.
  simpl negb. cbv iota. simpl Codec.data.
  rewrite length_raw.
  replace (Z.of_nat (2 * length frame) mod 2 =? 0) with true.
  - simpl negb. cbv iota. rewrite samples_of_bytes_raw by exact Hframe.
    unfold Preproc.finishOutput.
    now rewrite (processOutput_toward_zero NS undef p frame Hinit Hgain Hframe Hlen).
  - symmetry. apply Z.eqb_eq. rewrite Nat2Z.inj_mul. simpl Z.of_nat.
    rewrite Z.mul_comm. apply Z_mod_mult.
Qed.

Lemma raw_round_trip_toward_zero_witness :
  Preproc.decodeOfEncode Machine.LittleEndian unspecified rawPreprocessor 0
    [0; 1; -1; 1000; -1000; 32767; -32768]
  = Preproc.InBounds (Some [0; 0; 0; 999; -999; 32766; -32767]).
Proof.
  apply (raw_round_trip_toward_zero idleSuppressor Machine.LittleEndian
           unspecified rawPreprocessor 0 [0; 1; -1; 1000; -1000; 32767; -32768]).
  - reflexivity.
  - discriminate.
  - reflexivity.
  - right. reflexivity.
  - repeat constructor; unfold Machine.is_int16; lia.
  - simpl. lia.
Defined.

(** C4, as stated, fails.  With the codec switched off, a 20 ms frame whose
    samples are all 1000 is decoded as a frame whose samples are all 999; and
    a preprocessor initialized with the codec disabled holds no codec, so its
    [encode] returns absent. *)
Lemma raw_round_trip_alters_samples :
  Preproc.decodeOfEncode Machine.LittleEndian unspecified rawPreprocessor 0
    (constantFrame 1000)
  = Preproc.InBounds (Some (constantFrame 999))
  /\ constantFrame 999 <> constantFrame 1000
  /\ Preproc.decodeOfEncode Machine.LittleEndian unspecified codeclessPreprocessor 0
       (constantFrame 1000)
     = Preproc.InBounds None.
Proof.
  split; [|split].
  - vm_compute. reflexivity.
  - intros H. discriminate H.
  - vm_compute. reflexivity.
Qed.

(** * Further properties *)

(** ** More on the frame buffer *)

Section BufferRunFacts.
Import Machine Buffer BufferRuns.

Lemma pushAllNetwork_snoc (b : BufferManager) (ps : list AudioPacket) (p : AudioPacket) :
  pushAllNetwork b (ps ++ [p]) = snd (pushNetworkPacket (pushAllNetwork b ps) (Some p)).
Proof. unfold pushAllNetwork. now rewrite fold_left_app. Qed.

Lemma pushNetworkPacket_queue (b : BufferManager) (p : AudioPacket) :
  1 <= maxBufferSize_ b ->
  Z.of_nat (length (outputBuffer_ b)) <= maxBufferSize_ b ->
  outputBuffer_ (snd (pushNetworkPacket b (Some p)))
  = keep (Z.to_nat (maxBufferSize_ b)) (outputBuffer_ b ++ [p]).
Proof.
  intros HK Hlen. unfold pushNetworkPacket, isBufferFull. simpl.
  destruct (Z.leb_spec (maxBufferSize_ b) (Z.of_nat (length (outputBuffer_ b))))
    as [Hfull|Hroom].
  - destruct (outputBuffer_ b) as [|oldest rest] eqn:E; simpl in *; [lia|].
    unfold keep. simpl length. rewrite length_app. simpl length.
    replace (S (length rest + 1) - Z.to_nat (maxBufferSize_ b))%nat with 1%nat by lia.
    reflexivity.
  - rewrite keep_all; [reflexivity|]. rewrite length_app. simpl length. lia.
Qed.

Lemma pushAllNetwork_state (K : Z) (ps : list AudioPacket) :
  1 <= K ->
  let b := pushAllNetwork (setMaxBufferSize new K) ps in
  maxBufferSize_ b = K
  /\ outputBuffer_ b = keep (Z.to_nat K) ps
  /\ droppedPackets_ b = wrap64 (Z.of_nat (length ps - Z.to_nat K))
  /\ inputBuffer_ b = []
  /\ totalPackets_ b = 0
  /\ nextSequenceNumber_ b = 0.
Proof.
  intros HK. induction ps as [|p ps IH] using rev_ind.
  - simpl. repeat split.
  - cbv zeta in *. destruct IH as (Hmax & Hq & Hd & Hin & Ht & Hn).
    rewrite pushAllNetwork_snoc.
    set (b := pushAllNetwork (setMaxBufferSize new K) ps) in *.
    assert (Hlen : Z.of_nat (length (outputBuffer_ b)) <= maxBufferSize_ b).
    { rewrite Hq, Hmax, length_keep. lia. }
    split; [|split; [|split; [|split; [|split]]]]; try assumption.
    + rewrite pushNetworkPacket_queue by lia.
      rewrite Hq, Hmax. apply keep_snoc. lia.
    + unfold pushNetworkPacket, isBufferFull. simpl.
      rewrite Hd, Hq, Hmax, length_keep, length_app. simpl length.
      destruct (Z.leb_spec K (Z.of_nat (Nat.min (Z.to_nat K) (length ps))))
        as [Hfull|Hroom].
      * rewrite wrap64_incr. f_equal. lia.
      * f_equal. lia.
Qed.

Lemma playAll_drains (fuel : nat) (b : BufferManager) :
  (length (outputBuffer_ b) <= fuel)%nat -> playAll fuel b = outputBuffer_ b.
Proof.
  revert b. induction fuel as [|k IH]; intros b H.
  - destruct (outputBuffer_ b); [reflexivity|simpl in H; lia].
  - simpl. unfold getNextPlaybackPacket.
    destruct (outputBuffer_ b) as [|p rest] eqn:E; [reflexivity|].
    f_equal. rewrite IH; simpl; [reflexivity|]. simpl in H. lia.
Qed.

End BufferRunFacts.

(** X1. The playback queue follows the same drop-oldest discipline as the
    capture queue.  After a burst of packets from the network into an empty
    buffer of capacity [K >= 1], the playback queue holds the last [K] of
    them in arrival order, [getNextPlaybackPacket] hands out exactly those in
    that order, and the dropped counter is the number of packets beyond [K];
    the capture queue, the total counter and the sequence counter are not
    touched. *)
Theorem network_burst_keeps_latest (K : Z) (ps : list Buffer.AudioPacket) :
  1 <= K ->
  let b := BufferRuns.pushAllNetwork (Buffer.setMaxBufferSize Buffer.new K) ps in
  Buffer.outputBuffer_ b = keep (Z.to_nat K) ps
  /\ BufferRuns.playAll (length ps) b = keep (Z.to_nat K) ps
  /\ Buffer.getDroppedPackets b = Machine.wrap64 (Z.max 0 (Z.of_nat (length ps) - K))
  /\ Buffer.inputBuffer_ b = []
  /\ Buffer.getTotalPackets b = 0
  /\ Buffer.nextSequenceNumber_ b = 0.
Proof.
  intros HK b.
  destruct (pushAllNetwork_state K ps HK) as (Hmax & Hq & Hd & Hin & Ht & Hn).
  fold b in Hmax, Hq, Hd, Hin, Ht, Hn.
  split; [exact Hq|split; [|split; [|split; [|split]]]]; try assumption.
  - rewrite playAll_drains; [exact Hq|]. rewrite Hq, length_keep. lia.
  - unfold Buffer.getDroppedPackets. rewrite Hd. f_equal. lia.
Qed.

Lemma network_burst_keeps_latest_witness :
  let b :=
    BufferRuns.pushAllNetwork (Buffer.setMaxBufferSize Buffer.new 2)
      (map Buffer.frame [10; 11; 12; 13; 14]) in
  Buffer.outputBuffer_ b = map Buffer.frame [13; 14]
  /\ BufferRuns.playAll 5 b = map Buffer.frame [13; 14]
  /\ Buffer.getDroppedPackets b = 3
  /\ Buffer.inputBuffer_ b = []
  /\ Buffer.getTotalPackets b = 0
  /\ Buffer.nextSequenceNumber_ b = 0.
Proof.
  apply (network_burst_keeps_latest 2 (map Buffer.frame [10; 11; 12; 13; 14])).
  lia.
Defined.

Section LedgerSteps.
Import Machine Buffer BufferRuns.

Ltac ledger :=
  unfold balanced, getInputBufferSize, getOutputBufferSize, incr64, wrap64 in *;
  cbn [inputBuffer_ outputBuffer_ droppedPackets_ totalPackets_ delivered
       acceptedNetwork cleared length removeOldPackets clearBuffers snd] in *;
  rewrite ?length_app in *; cbn [length] in *;
  change (2 ^ 64) with 18446744073709551616 in *;
  Z.to_euclidean_division_equations; lia.

Lemma step_balanced (b : BufferManager) (o : op) (t : tally) :
  1 <= maxBufferSize_ b -> balanced b t -> balanced (step b o) (tallyStep b o t).
Proof.
  intros HK H.
  destruct o as [[p|]| |bytes|[p|]| |]; simpl step; simpl tallyStep.
  - unfold pushAudioPacket, isBufferFull.
    destruct (Z.leb_spec (maxBufferSize_ b) (Z.of_nat (length (inputBuffer_ b))))
      as [Hfull|Hroom].
    + destruct (inputBuffer_ b) as [|oldest rest] eqn:E; [simpl in Hfull; lia|].
      unfold balanced, getInputBufferSize in H. rewrite E in H. ledger.
    + ledger.
  - exact H.
  - unfold popAudioPacket.
    destruct (inputBuffer_ b) as [|p rest] eqn:E.
    + exact H.
    + unfold balanced, getInputBufferSize in H. rewrite E in H. ledger.
  - destruct bytes as [|b0 bytes]; [exact H|].
    unfold pushInputBuffer, pushAudioPacket, isBufferFull. simpl.
    destruct (Z.leb_spec (maxBufferSize_ b) (Z.of_nat (length (inputBuffer_ b))))
      as [Hfull|Hroom].
    + destruct (inputBuffer_ b) as [|oldest rest] eqn:E; [simpl in Hfull; lia|].
      unfold balanced, getInputBufferSize in H. rewrite E in H. ledger.
    + ledger.
  - unfold pushNetworkPacket, isBufferFull.
    destruct (Z.leb_spec (maxBufferSize_ b) (Z.of_nat (length (outputBuffer_ b))))
      as [Hfull|Hroom].
    + destruct (outputBuffer_ b) as [|oldest rest] eqn:E; [simpl in Hfull; lia|].
      unfold balanced, getOutputBufferSize in H. rewrite E in H. ledger.
    + ledger.
  - exact H.
  - unfold getNextPlaybackPacket.
    destruct (outputBuffer_ b) as [|p rest] eqn:E.
    + exact H.
    + unfold balanced, getOutputBufferSize in H. rewrite E in H. ledger.
  - ledger.
Qed.

Lemma step_capacity (b : BufferManager) (o : op) :
  maxBufferSize_ (step b o) = maxBufferSize_ b.
Proof.
  destruct o as [[p|]| |bytes|[p|]| |]; simpl; try reflexivity.
  - unfold popAudioPacket. destruct (inputBuffer_ b); reflexivity.
  - destruct bytes; reflexivity.
  - unfold getNextPlaybackPacket. destruct (outputBuffer_ b); reflexivity.
Qed.

Lemma run_balanced (ops : list op) (b : BufferManager) (t : tally) :
  1 <= maxBufferSize_ b -> balanced b t ->
  balanced (run b ops) (tallyRun b ops t).
Proof.
  revert b t. induction ops as [|o ops IH]; intros b t HK H; simpl.
  - exact H.
  - apply IH; [now rewrite step_capacity|now apply step_balanced].
Qed.

End LedgerSteps.

(** X2. No packet is lost without being counted.  On a buffer of capacity
    [K >= 1] that starts empty, after any sequence of calls the packets still
    queued on either side, those handed out by [popAudioPacket] and
    [getNextPlaybackPacket], those discarded by [clearBuffers] and the dropped
    counter together equal the total counter plus the packets accepted from
    the network, modulo [2^64]. *)
Theorem packets_accounted_for (K : Z) (ops : list Buffer.op) :
  1 <= K ->
  let fresh := Buffer.setMaxBufferSize Buffer.new K in
  let b := Buffer.run fresh ops in
  let t := BufferRuns.tallyRun fresh ops (BufferRuns.mkTally 0 0 0) in
  (Buffer.getInputBufferSize b + Buffer.getOutputBufferSize b
   + Buffer.getDroppedPackets b
   + BufferRuns.delivered t + BufferRuns.cleared t) mod 2 ^ 64
  = (Buffer.getTotalPackets b + BufferRuns.acceptedNetwork t) mod 2 ^ 64.
Proof.
  intros HK fresh b t.
  apply (run_balanced ops fresh (BufferRuns.mkTally 0 0 0)).
  - exact HK.
  - reflexivity.
Qed.

Lemma packets_accounted_for_witness :
  let fresh := Buffer.setMaxBufferSize Buffer.new 1 in
  let ops :=
    [Buffer.PushAudio (Some (Buffer.frame 0)); Buffer.PushInput [x01; x02];
     Buffer.PushNetwork (Some (Buffer.frame 7)); Buffer.NextPlayback;
     Buffer.PushNetwork (Some (Buffer.frame 8)); Buffer.Clear;
     Buffer.PushInput [x03]] in
  let b := Buffer.run fresh ops in
  let t := BufferRuns.tallyRun fresh ops (BufferRuns.mkTally 0 0 0) in
  (Buffer.getInputBufferSize b + Buffer.getOutputBufferSize b
   + Buffer.getDroppedPackets b
   + BufferRuns.delivered t + BufferRuns.cleared t) mod 2 ^ 64
  = (Buffer.getTotalPackets b + BufferRuns.acceptedNetwork t) mod 2 ^ 64.
Proof.
  apply (packets_accounted_for 1). lia.
Defined.

Section InputNumbering.
Import Machine Buffer BufferRuns.

Lemma pushInputAll_snoc (b : BufferManager) (blocks : list (list byte)) (d : list byte) :
  pushInputAll b (blocks ++ [d]) = snd (pushInputBuffer (pushInputAll b blocks) d).
Proof. unfold pushInputAll. now rewrite fold_left_app. Qed.

Lemma numbered_snoc (blocks : list (list byte)) (d : list byte) (z : Z) :
  numbered z (blocks ++ [d])
  = numbered z blocks ++ [newAudioPacket d (z + Z.of_nat (length blocks))].
Proof.
  revert z. induction blocks as [|e blocks IH]; intros z.
  - simpl. now rewrite Z.add_0_r.
  - cbn [numbered app length]. rewrite IH.
    replace (z + 1 + Z.of_nat (length blocks)) with (z + Z.of_nat (S (length blocks)))
      by lia.
    reflexivity.
Qed.

Lemma length_numbered (blocks : list (list byte)) (z : Z) :
  length (numbered z blocks) = length blocks.
Proof.
  revert z. induction blocks as [|e blocks IH]; intros z; simpl; [|rewrite IH];
    reflexivity.
Qed.

Lemma newAudioPacket_wrap32 (d : list byte) (z : Z) :
  newAudioPacket d (wrap32 z) = newAudioPacket d z.
Proof.
  unfold newAudioPacket, wrap32. rewrite Z.mod_mod by lia. reflexivity.
Qed.

Lemma pushInputAll_state (b0 : BufferManager) (blocks : list (list byte)) :
  1 <= maxBufferSize_ b0 ->
  let good := filter nonEmpty blocks in
  let b := pushInputAll (clearBuffers b0) blocks in
  maxBufferSize_ b = maxBufferSize_ b0
  /\ inputBuffer_ b = keep (Z.to_nat (maxBufferSize_ b0)) (numbered 0 good)
  /\ nextSequenceNumber_ b = wrap32 (Z.of_nat (length good))
  /\ outputBuffer_ b = [].
Proof.
  intros HK. induction blocks as [|d blocks IH] using rev_ind.
  - simpl. repeat split.
  - cbv zeta in *. destruct IH as (Hmax & Hq & Hn & Ho).
    rewrite pushInputAll_snoc, filter_app.
    set (b := pushInputAll (clearBuffers b0) blocks) in *.
    destruct d as [|x d].
    + simpl. rewrite app_nil_r. auto.
    + change (filter nonEmpty [x :: d]) with [x :: d].
      set (good := filter nonEmpty blocks) in *.
      unfold pushInputBuffer.
      set (b' := mkBufferManager (inputBuffer_ b) (outputBuffer_ b) (maxBufferSize_ b)
                   (incr32 (nextSequenceNumber_ b)) (droppedPackets_ b)
                   (totalPackets_ b)).
      assert (Hlen : Z.of_nat (length (inputBuffer_ b')) <= maxBufferSize_ b').
      { unfold b'. cbn [inputBuffer_ maxBufferSize_].
        rewrite Hq, Hmax, length_keep. lia. }
      split; [|split; [|split]].
      * rewrite pushAudioPacket_capacity. exact Hmax.
      * rewrite pushAudioPacket_queue;
          [|unfold b'; cbn [maxBufferSize_]; rewrite Hmax; exact HK|exact Hlen].
        unfold b'. cbn [maxBufferSize_ inputBuffer_].
        rewrite Hq, Hmax, Hn, newAudioPacket_wrap32, numbered_snoc.
        rewrite Z.add_0_l.
        apply keep_snoc. lia.
      * simpl. rewrite Hn, length_app. simpl length.
        unfold incr32, wrap32. rewrite Zplus_mod_idemp_l. f_equal. lia.
      * exact Ho.
Qed.

End InputNumbering.

(** X3. Blocks handed to [pushInputBuffer] are numbered in arrival order
    from zero after [clearBuffers], modulo [2^32]; an empty block is refused
    without consuming a number; with capacity [K >= 1] the queue holds the
    last [K] accepted blocks, which [getNextOutputPacket] hands back oldest
    first. *)
Theorem input_blocks_numbered (b0 : Buffer.BufferManager) (blocks : list (list byte)) :
  1 <= Buffer.maxBufferSize_ b0 ->
  let good := filter BufferRuns.nonEmpty blocks in
  let b := BufferRuns.pushInputAll (Buffer.clearBuffers b0) blocks in
  Buffer.inputBuffer_ b
  = keep (Z.to_nat (Buffer.maxBufferSize_ b0)) (BufferRuns.numbered 0 good)
  /\ Buffer.popAll (length blocks) b
     = keep (Z.to_nat (Buffer.maxBufferSize_ b0)) (BufferRuns.numbered 0 good)
  /\ Buffer.nextSequenceNumber_ b = Machine.wrap32 (Z.of_nat (length good))
  /\ Buffer.outputBuffer_ b = [].
Proof.
  intros HK good b.
  destruct (pushInputAll_state b0 blocks HK) as (Hmax & Hq & Hn & Ho).
  fold good in Hq, Hn. fold b in Hmax, Hq, Hn, Ho.
  split; [exact Hq|split; [|split; [exact Hn|exact Ho]]].
  rewrite popAll_drains; [exact Hq|].
  rewrite Hq, length_keep, length_numbered.
  apply Nat.le_trans with (length good); [apply Nat.le_min_r|].
  apply filter_length_le.
Qed.

Lemma input_blocks_numbered_witness :
  let b0 := Buffer.setMaxBufferSize Buffer.new 2 in
  let blocks := [[x01]; []; [x02; x03]; [x04]] in
  let good := filter BufferRuns.nonEmpty blocks in
  let b := BufferRuns.pushInputAll (Buffer.clearBuffers b0) blocks in
  Buffer.inputBuffer_ b
  = keep (Z.to_nat (Buffer.maxBufferSize_ b0)) (BufferRuns.numbered 0 good)
  /\ Buffer.popAll (length blocks) b
     = keep (Z.to_nat (Buffer.maxBufferSize_ b0)) (BufferRuns.numbered 0 good)
  /\ Buffer.nextSequenceNumber_ b = Machine.wrap32 (Z.of_nat (length good))
  /\ Buffer.outputBuffer_ b = [].
Proof.
  apply (input_blocks_numbered (Buffer.setMaxBufferSize Buffer.new 2)
           [[x01]; []; [x02; x03]; [x04]]).
  simpl. lia.
Defined.

Section CodecRunFacts.
Import Machine Codec CodecRuns.
Variable host : byte_order.

Lemma encode_counts (c : LyraCodec) (now : Z) (samples : list Z) :
  let r := encode host c now samples in
  (fst r = None
   /\ encodedFrames_ (snd r) = encodedFrames_ c
   /\ encodingErrors_ (snd r) = incr64 (encodingErrors_ c)
   \/ (exists p, fst r = Some p)
      /\ encodedFrames_ (snd r) = incr64 (encodedFrames_ c)
      /\ encodingErrors_ (snd r) = encodingErrors_ c)
  /\ decodedFrames_ (snd r) = decodedFrames_ c
  /\ decodingErrors_ (snd r) = decodingErrors_ c.
Proof.
  assert (Hfail : forall c' : LyraCodec,
             let r := (@None EncodedPacket, countEncodingError c') in
             (fst r = None
              /\ encodedFrames_ (snd r) = encodedFrames_ c'
              /\ encodingErrors_ (snd r) = incr64 (encodingErrors_ c')
              \/ (exists p, fst r = Some p)
                 /\ encodedFrames_ (snd r) = incr64 (encodedFrames_ c')
                 /\ encodingErrors_ (snd r) = encodingErrors_ c')
             /\ decodedFrames_ (snd r) = decodedFrames_ c'
             /\ decodingErrors_ (snd r) = decodingErrors_ c').
  { intros c'. simpl. split; [left|]; repeat split. }
  unfold encode.
  destruct (negb (initialized_ c)); [apply Hfail|].
  destruct (Z.of_nat (length samples) =? 0); [apply Hfail|].
  destruct (negb (validateInputSize c (Z.of_nat (length samples)))); [apply Hfail|].
  destruct (encodeRaw host samples); [apply Hfail|].
  simpl. split; [right; split; [eexists; reflexivity|split; reflexivity]|].
  split; reflexivity.
Qed.

Lemma decode_counts (c : LyraCodec) (bytes : list byte) :
  let r := decode host c bytes in
  (decodedFrames_ (snd r) = decodedFrames_ c
   /\ decodingErrors_ (snd r) = incr64 (decodingErrors_ c)
   \/ decodedFrames_ (snd r) = incr64 (decodedFrames_ c)
      /\ decodingErrors_ (snd r) = decodingErrors_ c)
  /\ encodedFrames_ (snd r) = encodedFrames_ c
  /\ encodingErrors_ (snd r) = encodingErrors_ c.
Proof.
  unfold decode.
  destruct (negb (initialized_ c)); [simpl; repeat split; left; split; reflexivity|].
  destruct (Z.of_nat (length bytes) =? 0);
    [simpl; repeat split; left; split; reflexivity|].
  destruct (decodeRaw host bytes); simpl.
  - repeat split; left; split; reflexivity.
  - repeat split; right; split; reflexivity.
Qed.

Lemma initialize_counts (c : LyraCodec) (sampleRate channels br : Z) :
  let c' := snd (initialize c sampleRate channels br) in
  encodedFrames_ c' = encodedFrames_ c /\ encodingErrors_ c' = encodingErrors_ c
  /\ decodedFrames_ c' = decodedFrames_ c /\ decodingErrors_ c' = decodingErrors_ c.
Proof.
  unfold initialize. destruct (initialized_ c); [simpl; repeat split|].
  destruct (negb (validateParameters sampleRate channels br)); simpl; repeat split.
Qed.

Lemma setBitrate_counts (c : LyraCodec) (br : Z) :
  let c' := snd (setBitrate c br) in
  encodedFrames_ c' = encodedFrames_ c /\ encodingErrors_ c' = encodingErrors_ c
  /\ decodedFrames_ c' = decodedFrames_ c /\ decodingErrors_ c' = decodingErrors_ c.
Proof.
  unfold setBitrate. destruct (negb (isValidBitrate br)); simpl; repeat split.
Qed.

Ltac wrap_arith :=
  unfold incr64, wrap64 in *;
  change (2 ^ 64) with 18446744073709551616 in *;
  Z.to_euclidean_division_equations; lia.

Lemma session_counts (ops : list op) (c : LyraCodec) :
  let r := session host c ops in
  wrap64 (encodedFrames_ (snd r) + encodingErrors_ (snd r))
  = wrap64 (encodedFrames_ c + encodingErrors_ c + encodeCalls ops)
  /\ wrap64 (decodedFrames_ (snd r) + decodingErrors_ (snd r))
     = wrap64 (decodedFrames_ c + decodingErrors_ c + decodeCalls ops)
  /\ wrap64 (encodedFrames_ (snd r))
     = wrap64 (encodedFrames_ c + Z.of_nat (length (fst r))).
Proof.
  revert c. induction ops as [|o ops IH]; intros c.
  - unfold encodeCalls, decodeCalls. simpl. rewrite !Z.add_0_r. auto.
  - destruct o as [sr ch br|now samples|bytes|br]; cbn [session].
    + specialize (IH (snd (initialize c sr ch br))).
      destruct (initialize_counts c sr ch br) as (E1 & E2 & E3 & E4).
      cbv zeta in *. rewrite E1, E2, E3, E4 in IH. exact IH.
    + pose proof (encode_counts c now samples) as HE. cbv zeta in *.
      destruct (encode host c now samples) as [r c'].
      specialize (IH c').
      destruct (session host c' ops) as [ps c''].
      cbn [fst snd] in *.
      unfold encodeCalls, decodeCalls in *. cbn [filter isEncode isDecode length].
      destruct HE as ([(Hr & E1 & E2)|((p & Hr) & E1 & E2)] & E3 & E4);
        rewrite Hr, E1, E2, E3, E4 in *; cbn [length];
        rewrite ?Nat2Z.inj_succ; wrap_arith.
    + specialize (IH (snd (decode host c bytes))).
      pose proof (decode_counts c bytes) as HD. cbv zeta in *.
      unfold encodeCalls, decodeCalls in *. cbn [filter isEncode isDecode length].
      destruct HD as ([(E1 & E2)|(E1 & E2)] & E3 & E4);
        rewrite E1, E2, E3, E4 in *; rewrite ?Nat2Z.inj_succ; wrap_arith.
    + specialize (IH (snd (setBitrate c br))).
      destruct (setBitrate_counts c br) as (E1 & E2 & E3 & E4).
      cbv zeta in *. rewrite E1, E2, E3, E4 in IH. exact IH.
Qed.

End CodecRunFacts.

(** X4. Every call of a codec session is counted once.  After any sequence
    of calls the encoded-frame and encoding-error counters have together
    advanced by the number of [encode] calls, the decoded-frame and
    decoding-error counters by the number of [decode] calls, and the
    encoded-frame counter by the number of packets emitted, modulo [2^64]. *)
Theorem codec_calls_accounted_for (host : Machine.byte_order)
    (c : Codec.LyraCodec) (ops : list Codec.op) :
  let r := Codec.session host c ops in
  (Codec.encodedFrames_ (snd r) + Codec.encodingErrors_ (snd r)) mod 2 ^ 64
  = (Codec.encodedFrames_ c + Codec.encodingErrors_ c + CodecRuns.encodeCalls ops)
    mod 2 ^ 64
  /\ (Codec.decodedFrames_ (snd r) + Codec.decodingErrors_ (snd r)) mod 2 ^ 64
     = (Codec.decodedFrames_ c + Codec.decodingErrors_ c + CodecRuns.decodeCalls ops)
       mod 2 ^ 64
  /\ Codec.encodedFrames_ (snd r) mod 2 ^ 64
     = (Codec.encodedFrames_ c + Z.of_nat (length (fst r))) mod 2 ^ 64.
Proof. exact (session_counts host ops c). Qed.

Section CodecFrameFacts.
Import Machine Codec CodecRuns.
Variable host : byte_order.

Lemma initialize_configured (c : LyraCodec) (sampleRate channels br : Z) :
  configured c -> configured (snd (initialize c sampleRate channels br)).
Proof.
  intros Hc. unfold initialize.
  destruct (initialized_ c); [exact Hc|].
  destruct (validateParameters sampleRate channels br) eqn:V; [|exact Hc].
  cbn [negb snd]. unfold validateParameters in V.
  destruct (Z.eqb_spec channels 1) as [Hch|]; [|discriminate V].
  cbn [negb] in V.
  destruct (isValidBitrate br) eqn:Hbr;
    [|destruct (negb (sampleRate =? 16000) && negb (sampleRate =? 32000)
                && negb (sampleRate =? 48000)); discriminate V].
  split; [exact Hbr|]. intros _. cbn [channels_ frameSize_].
  split; [exact Hch|].
  destruct (Z.eqb_spec sampleRate 16000) as [->|_]; [left; reflexivity|].
  destruct (Z.eqb_spec sampleRate 32000) as [->|_]; [right; left; reflexivity|].
  destruct (Z.eqb_spec sampleRate 48000) as [->|_]; [right; right; reflexivity|].
  discriminate V.
Qed.

Lemma setBitrate_configured (c : LyraCodec) (br : Z) :
  configured c -> configured (snd (setBitrate c br)).
Proof.
  intros Hc. unfold setBitrate.
  destruct (isValidBitrate br) eqn:Hbr; [|exact Hc].
  cbn [negb snd]. destruct Hc as (_ & Hc). split; [exact Hbr|exact Hc].
Qed.

Lemma decode_configured (c : LyraCodec) (bytes : list byte) :
  configured c -> configured (snd (decode host c bytes)).
Proof.
  intros Hc. unfold decode.
  destruct (negb (initialized_ c)); [exact Hc|].
  destruct (Z.of_nat (length bytes) =? 0); [exact Hc|].
  destruct (decodeRaw host bytes); exact Hc.
Qed.

Lemma encode_configured (c : LyraCodec) (now : Z) (samples : list Z) :
  configured c -> configured (snd (encode host c now samples)).
Proof.
  intros Hc. unfold encode.
  destruct (negb (initialized_ c)); [exact Hc|].
  destruct (Z.of_nat (length samples) =? 0); [exact Hc|].
  destruct (negb (validateInputSize c (Z.of_nat (length samples)))); [exact Hc|].
  destruct (encodeRaw host samples); exact Hc.
Qed.

Lemma isValidBitrate_range (br : Z) :
  isValidBitrate br = true -> 3200 <= br <= 9200.
Proof.
  unfold isValidBitrate. rewrite andb_true_iff, !Z.leb_le.
  change Config.LYRA_MIN_BITRATE with 3200. change Config.LYRA_MAX_BITRATE with 9200.
  lia.
Qed.

Lemma encode_packet (c : LyraCodec) (now : Z) (samples : list Z) (p : EncodedPacket) :
  fst (encode host c now samples) = Some p ->
  initialized_ c = true
  /\ Z.of_nat (length samples) = getExpectedInputSize c
  /\ p = mkEncodedPacket (encodeRaw host samples) (nextSequenceNumber_ c)
           (currentBitrate_ c) now.
Proof.
  unfold encode.
  destruct (initialized_ c); [|discriminate].
  cbn [negb].
  destruct (Z.of_nat (length samples) =? 0); [discriminate|].
  unfold validateInputSize.
  destruct (Z.eqb_spec (Z.of_nat (length samples)) (getExpectedInputSize c)) as [E|];
    [|discriminate].
  cbn [negb].
  destruct (encodeRaw host samples) as [|b0 l]; [discriminate|].
  cbn [fst]. intros H. injection H as <-. auto.
Qed.

Lemma session_packets (ops : list op) (c : LyraCodec) :
  configured c ->
  Forall (fun p => 3200 <= bitrate p <= 9200
                   /\ (length (data p) = 640 \/ length (data p) = 1280
                       \/ length (data p) = 1920)%nat)
    (fst (session host c ops)).
Proof.
  revert c. induction ops as [|o ops IH]; intros c Hc.
  - constructor.
  - destruct o as [sr ch br|now samples|bytes|br]; cbn [session].
    + apply IH, initialize_configured, Hc.
    + pose proof (encode_configured c now samples Hc) as Hc'.
      pose proof (encode_packet c now samples) as Hp.
      destruct (encode host c now samples) as [r c'].
      specialize (IH c' Hc').
      destruct (session host c' ops) as [ps c'']. cbn [fst snd] in *.
      destruct r as [p|]; [|exact IH].
      constructor; [|exact IH].
      destruct (Hp p eq_refl) as (Hi & Hn & ->).
      destruct Hc as (Hbr & Hfr). destruct (Hfr Hi) as (Hch & Hsz).
      cbn [bitrate data]. split; [now apply isValidBitrate_range|].
      unfold encodeRaw. rewrite length_raw.
      unfold getExpectedInputSize in Hn. rewrite Hch in Hn.
      unfold wrap32 in Hn. rewrite Z.mul_1_r in Hn.
      destruct Hsz as [E|[E|E]]; rewrite E in Hn;
        rewrite Z.mod_small in Hn by lia; lia.
    + apply IH, decode_configured, Hc.
    + apply IH, setBitrate_configured, Hc.
Qed.

End CodecFrameFacts.

(** X5. Every packet that an encoder session emits, starting from a newly
    constructed codec, carries a bitrate within [3200, 9200] and a payload of
    exactly 640, 1280 or 1920 bytes: one 20 ms mono frame of 16-bit samples
    at 16, 32 or 48 kHz. *)
Theorem emitted_packets_well_formed (host : Machine.byte_order) (ops : list Codec.op) :
  Forall (fun p => 3200 <= Codec.bitrate p <= 9200
                   /\ (length (Codec.data p) = 640 \/ length (Codec.data p) = 1280
                       \/ length (Codec.data p) = 1920)%nat)
    (fst (Codec.session host Codec.new ops)).
Proof.
  apply session_packets. split; [reflexivity|discriminate].
Qed.

(** X6. The codec's raw path is lossless.  A started codec given a frame of
    the expected length whose samples are 16-bit values emits a packet with
    two bytes per sample and the current sequence number; decoding that
    packet gives the frame back, and no error is counted. *)
Theorem codec_raw_round_trip (host : Machine.byte_order) (c : Codec.LyraCodec)
    (now : Z) (F : list Z) :
  Codec.initialized_ c = true ->
  F <> [] ->
  Z.of_nat (length F) = Codec.getExpectedInputSize c ->
  Forall Machine.is_int16 F ->
  exists p,
    fst (Codec.encode host c now F) = Some p
    /\ length (Codec.data p) = (2 * length F)%nat
    /\ Codec.sequenceNumber p = Codec.nextSequenceNumber_ c
    /\ let c' := snd (Codec.encode host c now F) in
       fst (Codec.decodePacket host c' p) = Some F
       /\ Codec.encodingErrors_ (snd (Codec.decodePacket host c' p))
          = Codec.encodingErrors_ c
       /\ Codec.decodingErrors_ (snd (Codec.decodePacket host c' p))
          = Codec.decodingErrors_ c.
Proof.
  intros Hi HF Hn Hs.
  destruct F as [|s F]; [contradiction|].
  pose proof (length_raw host (s :: F)) as HL.
  pose proof (samples_of_bytes_raw host (s :: F) Hs) as HR.
  unfold Codec.encode. rewrite Hi. cbn [negb].
  unfold Codec.validateInputSize. rewrite <- Hn, Z.eqb_refl. cbn [negb].
  destruct (Z.eqb_spec (Z.of_nat (length (s :: F))) 0) as [E|_];
    [simpl in E; lia|].
  unfold Codec.encodeRaw.
  destruct (flat_map (Machine.int16_bytes host) (s :: F)) as [|b0 bytes] eqn:EB;
    [simpl in HL; lia|].
  eexists. split; [reflexivity|]. cbn [fst snd Codec.data Codec.sequenceNumber].
  split; [exact HL|]. split; [reflexivity|].
  unfold Codec.decodePacket, Codec.decode. cbn [Codec.initialized_ Codec.data negb].
  destruct (Z.eqb_spec (Z.of_nat (length (b0 :: bytes))) 0) as [E|_];
    [simpl in E; lia|].
  unfold Codec.decodeRaw. rewrite HL.
  replace (Z.of_nat (2 * length (s :: F)) mod 2) with 0
    by (rewrite Nat2Z.inj_mul, Z.mul_comm, Z.mod_mul; lia).
  cbn [Z.eqb negb]. rewrite HR. cbn. auto.
Qed.

Lemma codec_raw_round_trip_witness :
  let c := snd (Codec.initialize Codec.new 16000 1 6000) in
  let F := repeat 5 320 in
  exists p,
    fst (Codec.encode Machine.LittleEndian c 0 F) = Some p
    /\ length (Codec.data p) = (2 * length F)%nat
    /\ Codec.sequenceNumber p = Codec.nextSequenceNumber_ c
    /\ let c' := snd (Codec.encode Machine.LittleEndian c 0 F) in
       fst (Codec.decodePacket Machine.LittleEndian c' p) = Some F
       /\ Codec.encodingErrors_ (snd (Codec.decodePacket Machine.LittleEndian c' p))
          = Codec.encodingErrors_ c
       /\ Codec.decodingErrors_ (snd (Codec.decodePacket Machine.LittleEndian c' p))
          = Codec.decodingErrors_ c.
Proof.
  apply (codec_raw_round_trip Machine.LittleEndian
           (snd (Codec.initialize Codec.new 16000 1 6000)) 0 (repeat 5 320)).
  - reflexivity.
  - discriminate.
  - reflexivity.
  - apply Forall_forall. intros x Hx. apply repeat_spec in Hx. subst x.
    unfold Machine.is_int16. lia.
Defined.

Section ReceiveLoopFacts.
Import Machine Buffer Udp UdpRuns BufferRuns.
Variable host : byte_order.

Lemma received_cons (b0 : byte) (bytes : list byte) :
  exists rs, received (b0 :: bytes) = b0 :: rs.
Proof.
  unfold received. change (Z.to_nat (Config.PACKET_SIZE * 2)) with (S 2047).
  cbn [firstn]. eauto.
Qed.

Lemma receiveDatagram_empty (u : UDPManager) (fromAddr : sockaddr) :
  receiveDatagram host u [] fromAddr = u.
Proof.
  unfold receiveDatagram, received. rewrite firstn_nil. reflexivity.
Qed.

Lemma receiveDatagram_cons (u : UDPManager) (b0 : byte) (bytes : list byte)
    (fromAddr : sockaddr) :
  receiveDatagram host u (b0 :: bytes) fromAddr
  = countReceived
      (snd (processReceivedData host u (received (b0 :: bytes)) fromAddr)).
Proof.
  unfold receiveDatagram. destruct (received_cons b0 bytes) as (rs & ->).
  cbn [length].
  destruct (Z.ltb_spec 0 (Z.of_nat (S (length rs)))) as [_|L]; [reflexivity|lia].
Qed.

(** What one datagram does to the manager itself. *)
Lemma receiveDatagram_fields (u : UDPManager) (bytes : list byte) (fromAddr : sockaddr) :
  let u' := receiveDatagram host u bytes fromAddr in
  receivedPackets_ u'
  = (if nonEmptyDatagram (bytes, fromAddr) then incr64 (receivedPackets_ u)
     else receivedPackets_ u)
  /\ remoteAddr_ u'
     = (if isServer_ u && nonEmptyDatagram (bytes, fromAddr) then fromAddr
        else remoteAddr_ u)
  /\ isRunning_ u' = isRunning_ u /\ isServer_ u' = isServer_ u
  /\ sentPackets_ u' = sentPackets_ u /\ failedSends_ u' = failedSends_ u.
Proof.
  unfold nonEmptyDatagram. cbn [fst].
  destruct bytes as [|b0 bytes].
  - rewrite receiveDatagram_empty, andb_false_r. repeat split.
  - rewrite receiveDatagram_cons, andb_true_r.
    destruct (received_cons b0 bytes) as (rs & ->).
    unfold processReceivedData. cbn [length].
    destruct (Z.eqb_spec (Z.of_nat (S (length rs))) 0) as [E|_]; [lia|].
    destruct u as [fd ra run srv bmo odr opr sp rp fs inv].
    cbn [isServer_ bufferManager_ onPacketReceived_ onDataReceived_ withRemote
         withBuffer setBufferManager invoke socketFd_ remoteAddr_ isRunning_
         sentPackets_ receivedPackets_ failedSends_ invoked].
    destruct (deserializePacket host (b0 :: rs)) as [p|];
      destruct srv; destruct bmo; destruct opr; destruct odr;
      cbn; repeat split.
Qed.

(** What one datagram does to the attached buffer. *)
Lemma receiveDatagram_buffer (u : UDPManager) (bm : BufferManager)
    (bytes : list byte) (fromAddr : sockaddr) :
  bufferManager_ u = Some bm ->
  bufferManager_ (receiveDatagram host u bytes fromAddr)
  = Some (pushAllNetwork bm (parsed host (bytes, fromAddr))).
Proof.
  intros Hbm. unfold parsed. cbn [fst].
  destruct bytes as [|b0 bytes].
  - rewrite receiveDatagram_empty. unfold received. rewrite firstn_nil.
    exact Hbm.
  - rewrite receiveDatagram_cons.
    destruct (received_cons b0 bytes) as (rs & ->).
    unfold processReceivedData. cbn [length].
    destruct (Z.eqb_spec (Z.of_nat (S (length rs))) 0) as [E|_]; [lia|].
    destruct u as [fd ra run srv bmo odr opr sp rp fs inv].
    cbn [bufferManager_] in Hbm. subst bmo.
    cbn [isServer_ bufferManager_ onPacketReceived_ onDataReceived_ withRemote
         withBuffer setBufferManager invoke socketFd_ remoteAddr_ isRunning_
         sentPackets_ receivedPackets_ failedSends_ invoked].
    destruct (deserializePacket host (b0 :: rs)) as [p|];
      destruct srv; destruct opr; destruct odr; reflexivity.
Qed.

Lemma receiverLoop_fields (incoming : list recv) (u : UDPManager) :
  isRunning_ u = true ->
  let u' := receiverLoop host u incoming in
  wrap64 (receivedPackets_ u')
  = wrap64 (receivedPackets_ u
            + Z.of_nat (length (filter nonEmptyDatagram (taken incoming))))
  /\ remoteAddr_ u'
     = (if isServer_ u then lastSource (taken incoming) (remoteAddr_ u)
        else remoteAddr_ u)
  /\ isRunning_ u' = true
  /\ sentPackets_ u' = sentPackets_ u /\ failedSends_ u' = failedSends_ u.
Proof.
  revert u. induction incoming as [|r incoming IH]; intros u Hrun.
  - simpl. rewrite Hrun. simpl. rewrite Z.add_0_r.
    destruct (isServer_ u); repeat split; assumption.
  - destruct r as [|bytes fromAddr].
    + simpl. rewrite Hrun. simpl. rewrite Z.add_0_r.
      destruct (isServer_ u); repeat split; assumption.
    + rewrite receiverLoop_datagram by exact Hrun.
      destruct (receiveDatagram_fields u bytes fromAddr)
        as (Er & Ea & Erun & Esrv & Es & Ef).
      cbv zeta in *.
      rewrite Hrun in Erun.
      destruct (IH _ Erun) as (Ir & Ia & Irun & Is & If).
      cbn [taken filter].
      split; [|split; [|split; [|split]]].
      * rewrite Ir, Er.
        destruct (nonEmptyDatagram (bytes, fromAddr)); cbn [length].
        -- rewrite Nat2Z.inj_succ. unfold incr64, wrap64.
           rewrite Zplus_mod_idemp_l. f_equal. lia.
        -- reflexivity.
      * rewrite Ia, Esrv, Ea. unfold lastSource. cbn [fold_left snd].
        destruct (isServer_ u); reflexivity.
      * exact Irun.
      * now rewrite Is.
      * now rewrite If.
Qed.

Lemma receiverLoop_buffer (incoming : list recv) (u : UDPManager) (bm : BufferManager) :
  isRunning_ u = true ->
  bufferManager_ u = Some bm ->
  bufferManager_ (receiverLoop host u incoming)
  = Some (pushAllNetwork bm (flat_map (parsed host) (taken incoming))).
Proof.
  revert u bm. induction incoming as [|r incoming IH]; intros u bm Hrun Hbm.
  - simpl. rewrite Hrun. exact Hbm.
  - destruct r as [|bytes fromAddr].
    + simpl. rewrite Hrun. exact Hbm.
    + rewrite receiverLoop_datagram by exact Hrun.
      destruct (receiveDatagram_fields u bytes fromAddr) as (_ & _ & Erun & _).
      cbv zeta in Erun. rewrite Hrun in Erun.
      rewrite (IH _ _ Erun (receiveDatagram_buffer u bm bytes fromAddr Hbm)).
      cbn [taken flat_map]. unfold pushAllNetwork. now rewrite fold_left_app.
Qed.

End ReceiveLoopFacts.

(** X7. A running manager with a buffer attached hands the buffer exactly
    the packets parsed from the datagrams it takes before [recvfrom] first
    fails, in arrival order; datagrams too short to parse add nothing.  The
    received counter advances by the number of datagrams that carried at
    least one byte, parsed or not, and the send counters do not move. *)
Theorem receive_loop_delivers_in_order (host : Machine.byte_order)
    (u : Udp.UDPManager) (bm : Buffer.BufferManager) (incoming : list Udp.recv) :
  Udp.isRunning_ u = true ->
  Udp.bufferManager_ u = Some bm ->
  let u' := Udp.receiverLoop host u incoming in
  let datagrams := UdpRuns.taken incoming in
  Udp.bufferManager_ u'
  = Some (BufferRuns.pushAllNetwork bm (flat_map (UdpRuns.parsed host) datagrams))
  /\ Udp.receivedPackets_ u' mod 2 ^ 64
     = (Udp.receivedPackets_ u
        + Z.of_nat (length (filter UdpRuns.nonEmptyDatagram datagrams))) mod 2 ^ 64
  /\ Udp.sentPackets_ u' = Udp.sentPackets_ u
  /\ Udp.failedSends_ u' = Udp.failedSends_ u.
Proof.
  intros Hrun Hbm.
  destruct (receiverLoop_fields host incoming u Hrun) as (Ir & _ & _ & Is & If).
  cbv zeta. split; [now apply receiverLoop_buffer|auto].
Qed.

Lemma receive_loop_delivers_in_order_witness :
  let host := Machine.LittleEndian in
  let bm := Buffer.new in
  let u := Udp.withBuffer (snd (Udp.startServer Udp.new (Some 3))) bm in
  let incoming :=
    [Udp.Datagram [x07; x00; x00; x00; xaa] (1, 2);
     Udp.Datagram [x01; x02; x03] (1, 2);
     Udp.Datagram [] (1, 2);
     Udp.Datagram [x08; x00; x00; x00; xbb; xcc] (5, 6);
     Udp.RecvError;
     Udp.Datagram [x09; x00; x00; x00] (1, 2)] in
  let u' := Udp.receiverLoop host u incoming in
  let datagrams := UdpRuns.taken incoming in
  Udp.bufferManager_ u'
  = Some (BufferRuns.pushAllNetwork bm (flat_map (UdpRuns.parsed host) datagrams))
  /\ Udp.receivedPackets_ u' mod 2 ^ 64
     = (Udp.receivedPackets_ u
        + Z.of_nat (length (filter UdpRuns.nonEmptyDatagram datagrams))) mod 2 ^ 64
  /\ Udp.sentPackets_ u' = Udp.sentPackets_ u
  /\ Udp.failedSends_ u' = Udp.failedSends_ u.
Proof.
  apply (receive_loop_delivers_in_order Machine.LittleEndian
           (Udp.withBuffer (snd (Udp.startServer Udp.new (Some 3))) Buffer.new)
           Buffer.new); reflexivity.
Defined.

(** X8. A server answers whoever wrote last: after the receive loop its
    remote address is the source of the last datagram that carried at least
    one byte, even one too short to parse, and is unchanged when there was
    none.  A client keeps the address it was started with. *)
Theorem server_follows_last_sender (host : Machine.byte_order)
    (u : Udp.UDPManager) (incoming : list Udp.recv) :
  Udp.isRunning_ u = true ->
  Udp.remoteAddr_ (Udp.receiverLoop host u incoming)
  = (if Udp.isServer_ u
     then UdpRuns.lastSource (UdpRuns.taken incoming) (Udp.remoteAddr_ u)
     else Udp.remoteAddr_ u).
Proof.
  intros Hrun.
  destruct (receiverLoop_fields host incoming u Hrun) as (_ & Ia & _).
  exact Ia.
Qed.

Lemma server_follows_last_sender_witness :
  Udp.remoteAddr_
    (Udp.receiverLoop Machine.LittleEndian
       (snd (Udp.startServer Udp.new (Some 3)))
       [Udp.Datagram [x07; x00; x00; x00; xaa] (1, 2);
        Udp.Datagram [x01] (5, 6);
        Udp.Datagram [] (8, 9)])
  = (5, 6).
Proof.
  exact (server_follows_last_sender Machine.LittleEndian
           (snd (Udp.startServer Udp.new (Some 3)))
           [Udp.Datagram [x07; x00; x00; x00; xaa] (1, 2);
            Udp.Datagram [x01] (5, 6);
            Udp.Datagram [] (8, 9)]
           eq_refl).
Defined.

Section SendFacts.
Import Machine Buffer Udp UdpRuns.

Lemma sendData_fields (u : UDPManager) (bytes : list byte) (bytesSent : Z) :
  let u' := snd (sendData u bytes bytesSent) in
  isRunning_ u' = isRunning_ u /\ socketFd_ u' = socketFd_ u
  /\ receivedPackets_ u' = receivedPackets_ u
  /\ bufferManager_ u' = bufferManager_ u.
Proof.
  unfold sendData.
  destruct ((Z.of_nat (length bytes) =? 0) || negb (isRunning_ u) || (socketFd_ u <? 0));
    [repeat split|].
  destruct (bytesSent <? 0); [repeat split|].
  destruct (negb (bytesSent =? Z.of_nat (length bytes))); repeat split.
Qed.

Lemma sendData_stopped (u : UDPManager) (bytes : list byte) (bytesSent : Z) :
  isRunning_ u = false -> sendData u bytes bytesSent = (false, u).
Proof.
  intros H. unfold sendData. rewrite H. cbn [negb].
  now rewrite orb_true_r.
Qed.

Lemma sendData_counts (u : UDPManager) (a : attempt) :
  isRunning_ u = true -> 0 <= socketFd_ u ->
  let u' := snd (sendData u (fst a) (snd a)) in
  sentPackets_ u' = (if complete a then incr64 (sentPackets_ u) else sentPackets_ u)
  /\ failedSends_ u'
     = (if reachesSendto a && negb (complete a) then incr64 (failedSends_ u)
        else failedSends_ u)
  /\ fst (sendData u (fst a) (snd a)) = complete a.
Proof.
  intros Hrun Hfd. destruct a as [bytes bytesSent].
  unfold sendData, complete, reachesSendto. cbn [fst snd]. rewrite Hrun.
  destruct (Z.ltb_spec (socketFd_ u) 0) as [L|_]; [lia|].
  destruct bytes as [|b0 bytes]; [repeat split|].
  cbn [length negb orb andb].
  destruct (Z.eqb_spec (Z.of_nat (S (length bytes))) 0) as [E|_]; [lia|].
  cbn [orb].
  destruct (Z.ltb_spec bytesSent 0) as [L|G].
  - destruct (Z.eqb_spec bytesSent (Z.of_nat (S (length bytes)))) as [E|_]; [lia|].
    repeat split.
  - destruct (Z.eqb_spec bytesSent (Z.of_nat (S (length bytes)))); repeat split.
Qed.

Lemma sendAll_counts (attempts : list attempt) (u : UDPManager) :
  isRunning_ u = true -> 0 <= socketFd_ u ->
  let u' := sendAll u attempts in
  wrap64 (sentPackets_ u')
  = wrap64 (sentPackets_ u + Z.of_nat (length (filter complete attempts)))
  /\ wrap64 (sentPackets_ u' + failedSends_ u')
     = wrap64 (sentPackets_ u + failedSends_ u
               + Z.of_nat (length (filter reachesSendto attempts)))
  /\ receivedPackets_ u' = receivedPackets_ u.
Proof.
  revert u. induction attempts as [|a attempts IH]; intros u Hrun Hfd.
  - simpl. rewrite !Z.add_0_r. auto.
  - unfold sendAll in *. cbn [fold_left filter].
    destruct (sendData_fields u (fst a) (snd a)) as (Er & Es & Erc & _).
    destruct (sendData_counts u a Hrun Hfd) as (Esent & Efail & _).
    cbv zeta in *.
    destruct (IH (snd (sendData u (fst a) (snd a)))) as (Is & It & Irc);
      [now rewrite Er|now rewrite Es|].
    rewrite Irc, Erc. split; [|split; [|reflexivity]].
    + rewrite Is, Esent.
      destruct (complete a); cbn [length]; [|reflexivity].
      rewrite Nat2Z.inj_succ. unfold incr64, wrap64.
      rewrite Zplus_mod_idemp_l. f_equal. lia.
    + rewrite It, Esent, Efail.
      unfold complete. destruct (reachesSendto a); cbn [andb negb length];
        [|reflexivity].
      rewrite Nat2Z.inj_succ.
      destruct (snd a =? Z.of_nat (length (fst a))); cbn [negb];
        unfold incr64, wrap64;
        change (2 ^ 64) with 18446744073709551616;
        Z.to_euclidean_division_equations; lia.
Qed.

Lemma sendAll_stopped (attempts : list attempt) (u : UDPManager) :
  isRunning_ u = false -> sendAll u attempts = u.
Proof.
  intros H. induction attempts as [|a attempts IH]; [reflexivity|].
  unfold sendAll in *. cbn [fold_left].
  rewrite sendData_stopped by exact H. exact IH.
Qed.

Section Stopping.
Variable host : byte_order.

Ltac closed_fields :=
  let fd := fresh "fd" in
  intros; match goal with u : UDPManager |- _ =>
    destruct u as [fd ? ? ? ? ? ? ? ? ? ?] end;
  unfold closeSocket, withRunning, withSocket, withRemote, withBuffer,
    setBufferManager, invoke, countReceived;
  cbn [socketFd_ remoteAddr_ isRunning_ isServer_ bufferManager_
       onDataReceived_ onPacketReceived_ sentPackets_ receivedPackets_
       failedSends_ invoked];
  destruct (0 <=? fd); reflexivity.

Lemma closed_isServer (u : UDPManager) :
  isServer_ (closeSocket (withRunning u false)) = isServer_ u.
Proof. closed_fields. Qed.

Lemma closed_bufferManager (u : UDPManager) :
  bufferManager_ (closeSocket (withRunning u false)) = bufferManager_ u.
Proof. closed_fields. Qed.

Lemma closed_onPacketReceived (u : UDPManager) :
  onPacketReceived_ (closeSocket (withRunning u false)) = onPacketReceived_ u.
Proof. closed_fields. Qed.

Lemma closed_onDataReceived (u : UDPManager) :
  onDataReceived_ (closeSocket (withRunning u false)) = onDataReceived_ u.
Proof. closed_fields. Qed.

Lemma closed_withRemote (u : UDPManager) (a : sockaddr) :
  withRemote (closeSocket (withRunning u false)) a
  = closeSocket (withRunning (withRemote u a) false).
Proof. closed_fields. Qed.

Lemma closed_withBuffer (u : UDPManager) (bm : BufferManager) :
  withBuffer (closeSocket (withRunning u false)) bm
  = closeSocket (withRunning (withBuffer u bm) false).
Proof. closed_fields. Qed.

Lemma closed_invoke (u : UDPManager) (e : event) :
  invoke (closeSocket (withRunning u false)) e
  = closeSocket (withRunning (invoke u e) false).
Proof. closed_fields. Qed.

Lemma closed_countReceived (u : UDPManager) :
  countReceived (closeSocket (withRunning u false))
  = closeSocket (withRunning (countReceived u) false).
Proof. closed_fields. Qed.

(** What a turn of the loop does with a datagram does not depend on the
    flag and the socket, and leaves them alone. *)
Lemma receiveDatagram_closed (u : UDPManager) (bytes : list byte) (fromAddr : sockaddr) :
  receiveDatagram host (closeSocket (withRunning u false)) bytes fromAddr
  = closeSocket (withRunning (receiveDatagram host u bytes fromAddr) false).
Proof.
  unfold receiveDatagram.
  destruct (0 <? Z.of_nat (length (received bytes))); [|reflexivity].
  rewrite <- closed_countReceived. f_equal.
  unfold processReceivedData.
  destruct (Z.of_nat (length (received bytes)) =? 0); [reflexivity|].
  cbv zeta. cbn [snd]. rewrite closed_isServer.
  assert (H1 : (if isServer_ u
                then withRemote (closeSocket (withRunning u false)) fromAddr
                else closeSocket (withRunning u false))
               = closeSocket
                   (withRunning (if isServer_ u then withRemote u fromAddr else u)
                      false))
    by (destruct (isServer_ u); [apply closed_withRemote|reflexivity]).
  rewrite H1. clear H1.
  set (u1 := if isServer_ u then withRemote u fromAddr else u).
  destruct (deserializePacket host (received bytes)) as [p|].
  - rewrite closed_bufferManager.
    assert (H2 : match bufferManager_ u1 with
                 | Some bm =>
                     withBuffer (closeSocket (withRunning u1 false))
                       (snd (pushNetworkPacket bm (Some p)))
                 | None => closeSocket (withRunning u1 false)
                 end
                 = closeSocket
                     (withRunning
                        match bufferManager_ u1 with
                        | Some bm => withBuffer u1 (snd (pushNetworkPacket bm (Some p)))
                        | None => u1
                        end false))
      by (destruct (bufferManager_ u1); [apply closed_withBuffer|reflexivity]).
    rewrite H2. clear H2.
    set (u' := match bufferManager_ u1 with
               | Some bm => withBuffer u1 (snd (pushNetworkPacket bm (Some p)))
               | None => u1
               end).
    rewrite closed_onPacketReceived.
    destruct (onPacketReceived_ u');
      rewrite ?closed_invoke, closed_onDataReceived;
      match goal with
      | |- context [onDataReceived_ ?x] => destruct (onDataReceived_ x)
      end; rewrite ?closed_invoke; reflexivity.
  - rewrite closed_onDataReceived.
    destruct (onDataReceived_ u1); rewrite ?closed_invoke; reflexivity.
Qed.

Lemma closed_not_running (u : UDPManager) :
  isRunning_ (closeSocket (withRunning u false)) = false.
Proof.
  unfold closeSocket. destruct (0 <=? socketFd_ (withRunning u false)); reflexivity.
Qed.

(** [stop] is the loop's turn on the datagram in flight, with the flag
    cleared and the socket closed. *)
Lemma stop_last_turn (u : UDPManager) (pending : option recv) :
  isRunning_ u = true ->
  stop host u pending
  = closeSocket (withRunning (receiverLoop host u (inFlight pending)) false).
Proof.
  intros Hrun. unfold stop. rewrite Hrun. cbn [negb]. cbv zeta.
  destruct pending as [[|bytes fromAddr]|]; cbn [inFlight receiverLoop];
    rewrite Hrun; try reflexivity.
  rewrite receiveDatagram_closed.
  destruct (isRunning_ (receiveDatagram host u bytes fromAddr)); reflexivity.
Qed.

Lemma stop_not_running (u : UDPManager) (pending : option recv) :
  isRunning_ (stop host u pending) = false.
Proof.
  destruct (isRunning_ u) eqn:E.
  - rewrite stop_last_turn by exact E. apply closed_not_running.
  - unfold stop. rewrite E. exact E.
Qed.

Lemma closed_fields (u : UDPManager) :
  let s := closeSocket (withRunning u false) in
  counters s = counters u /\ invoked s = invoked u
  /\ bufferManager_ s = bufferManager_ u /\ remoteAddr_ s = remoteAddr_ u.
Proof.
  unfold closeSocket. destruct (0 <=? socketFd_ (withRunning u false));
    repeat split.
Qed.

End Stopping.

End SendFacts.

(** X9. Every send that reaches [sendto] is counted once.  On a running
    manager with an open socket, after any sequence of [sendData] calls the
    sent counter has advanced by the number of calls whose data was written
    in full, and the sent and failed counters together by the number of
    calls with at least one byte of data, modulo [2^64]; the received
    counter does not move. *)
Theorem sends_accounted_for (u : Udp.UDPManager) (attempts : list UdpRuns.attempt) :
  Udp.isRunning_ u = true ->
  0 <= Udp.socketFd_ u ->
  let u' := UdpRuns.sendAll u attempts in
  Udp.sentPackets_ u' mod 2 ^ 64
  = (Udp.sentPackets_ u
     + Z.of_nat (length (filter UdpRuns.complete attempts))) mod 2 ^ 64
  /\ (Udp.sentPackets_ u' + Udp.failedSends_ u') mod 2 ^ 64
     = (Udp.sentPackets_ u + Udp.failedSends_ u
        + Z.of_nat (length (filter UdpRuns.reachesSendto attempts))) mod 2 ^ 64
  /\ Udp.receivedPackets_ u' = Udp.receivedPackets_ u.
Proof. intros Hrun Hfd. exact (sendAll_counts attempts u Hrun Hfd). Qed.

Lemma sends_accounted_for_witness :
  let u := snd (Udp.startClient Udp.new (Some 4) (10, 5000)) in
  let attempts := [([x01; x02], 2); ([], 0); ([x03], -1); ([x04; x05], 1)] in
  let u' := UdpRuns.sendAll u attempts in
  Udp.sentPackets_ u' mod 2 ^ 64
  = (Udp.sentPackets_ u
     + Z.of_nat (length (filter UdpRuns.complete attempts))) mod 2 ^ 64
  /\ (Udp.sentPackets_ u' + Udp.failedSends_ u') mod 2 ^ 64
     = (Udp.sentPackets_ u + Udp.failedSends_ u
        + Z.of_nat (length (filter UdpRuns.reachesSendto attempts))) mod 2 ^ 64
  /\ Udp.receivedPackets_ u' = Udp.receivedPackets_ u.
Proof.
  apply (sends_accounted_for (snd (Udp.startClient Udp.new (Some 4) (10, 5000)))
           [([x01; x02], 2); ([], 0); ([x03], -1); ([x04; x05], 1)]).
  - reflexivity.
  - simpl. lia.
Defined.

(** X10. A stopped manager is inert.  [stop] lets the receiver thread
    finish the turn it is in: the datagram its [recvfrom] still gives back,
    if any, is counted, run through the callbacks and queued as the loop
    would have done without the stop, so the received counter moves by at
    most one and the send counters not at all.  From then on every
    [sendData] and [sendAudioPacket] is refused, the receive loop takes no
    datagram, no counter moves and no callback runs, whatever the traffic
    offered. *)
Theorem stopped_manager_is_inert (host : Machine.byte_order) (u : Udp.UDPManager)
    (pending : option Udp.recv)
    (attempts : list UdpRuns.attempt) (incoming : list Udp.recv)
    (packet : option Buffer.AudioPacket) (bytesSent : Z) :
  let s := UdpRuns.stop host u pending in
  let last := Udp.receiverLoop host u (UdpRuns.inFlight pending) in
  Udp.isRunning_ s = false
  /\ UdpRuns.sendAll s attempts = s
  /\ Udp.receiverLoop host s incoming = s
  /\ Udp.sendAudioPacket host s packet bytesSent = (false, s)
  /\ Udp.counters s = Udp.counters last
  /\ Udp.invoked s = Udp.invoked last
  /\ Udp.bufferManager_ s = Udp.bufferManager_ last
  /\ Udp.remoteAddr_ s = Udp.remoteAddr_ last
  /\ Udp.sentPackets_ s = Udp.sentPackets_ u
  /\ Udp.failedSends_ s = Udp.failedSends_ u
  /\ (Udp.receivedPackets_ s = Udp.receivedPackets_ u
      \/ Udp.receivedPackets_ s = Machine.incr64 (Udp.receivedPackets_ u)).
Proof.
  cbv zeta. pose proof (stop_not_running host u pending) as H.
  split; [exact H|].
  split; [now apply sendAll_stopped|].
  split; [destruct incoming; simpl; now rewrite H|].
  split; [destruct packet; [|reflexivity]; unfold Udp.sendAudioPacket;
          now rewrite H|].
  destruct (Udp.isRunning_ u) eqn:Hrun.
  - rewrite stop_last_turn by exact Hrun.
    destruct (closed_fields (Udp.receiverLoop host u (UdpRuns.inFlight pending)))
      as (Hc & Hi & Hb & Ha).
    cbv zeta in Hc, Hi, Hb, Ha.
    split; [exact Hc|]. split; [exact Hi|]. split; [exact Hb|].
    split; [exact Ha|].
    unfold Udp.counters in Hc. injection Hc as Hs Hr Hf.
    rewrite Hs, Hr, Hf.
    destruct pending as [[|bytes fromAddr]|];
      cbn [UdpRuns.inFlight Udp.receiverLoop]; rewrite Hrun; auto.
    destruct (receiveDatagram_fields host u bytes fromAddr)
      as (Er & _ & _ & _ & Es & Ef).
    cbv zeta in Er, Es, Ef.
    assert (E : (if Udp.isRunning_ (Udp.receiveDatagram host u bytes fromAddr)
                 then Udp.receiveDatagram host u bytes fromAddr
                 else Udp.receiveDatagram host u bytes fromAddr)
                = Udp.receiveDatagram host u bytes fromAddr)
      by (destruct (Udp.isRunning_ (Udp.receiveDatagram host u bytes fromAddr));
          reflexivity).
    rewrite E, Es, Ef, Er.
    destruct (UdpRuns.nonEmptyDatagram (bytes, fromAddr)); auto.
  - assert (Es : UdpRuns.stop host u pending = u)
      by (unfold UdpRuns.stop; rewrite Hrun; reflexivity).
    assert (El : Udp.receiverLoop host u (UdpRuns.inFlight pending) = u)
      by (destruct pending as [[|bytes fromAddr]|];
          cbn [UdpRuns.inFlight Udp.receiverLoop]; rewrite Hrun; reflexivity).
    rewrite Es, El. repeat split; auto.
Qed.

Section EndToEnd.
Import Machine Buffer Udp UdpRuns BufferRuns.
Variable host : byte_order.

Lemma received_serializePacket (p : AudioPacket) :
  received (serializePacket host (Some p))
  = object_bytes host 4 (sequenceNumber p) ++ firstn 2044 (data p).
Proof.
  unfold received, serializePacket.
  rewrite firstn_app, length_object_bytes.
  change (Z.to_nat (Config.PACKET_SIZE * 2) - 4)%nat with 2044%nat.
  rewrite firstn_all2; [reflexivity|].
  rewrite length_object_bytes. vm_compute. lia.
Qed.

Lemma parsed_serializePacket (p : AudioPacket) (fromAddr : sockaddr) :
  parsed host (serializePacket host (Some p), fromAddr)
  = [newAudioPacket (firstn 2044 (data p)) (sequenceNumber p)].
Proof.
  unfold parsed. cbn [fst]. rewrite received_serializePacket.
  rewrite deserializePacket_app by apply length_object_bytes.
  rewrite object_value_object_bytes.
  unfold newAudioPacket, wrap32. change (256 ^ Z.of_nat 4) with (2 ^ 32).
  now rewrite Z.mod_mod by lia.
Qed.

End EndToEnd.

(** X11. From one peer's [sendAudioPacket] to the other's playback queue.
    When [sendto] writes the whole datagram the send succeeds, and a running
    receiver of the same byte order whose buffer is empty hands the next
    [getNextPlaybackPacket] a packet with the same sequence number and the
    first 2044 bytes of the payload: the whole payload when it is no longer
    than that. *)
Theorem sent_packet_reaches_playback (host : Machine.byte_order)
    (sender receiver : Udp.UDPManager) (bm : Buffer.BufferManager)
    (p : Buffer.AudioPacket) (fromAddr : Udp.sockaddr) :
  Udp.isRunning_ sender = true ->
  0 <= Udp.socketFd_ sender ->
  Udp.isRunning_ receiver = true ->
  Udp.bufferManager_ receiver = Some bm ->
  Buffer.outputBuffer_ bm = [] ->
  1 <= Buffer.maxBufferSize_ bm ->
  let datagram := Udp.serializePacket host (Some p) in
  fst (Udp.sendAudioPacket host sender (Some p) (Z.of_nat (length datagram))) = true
  /\ exists bm',
       Udp.bufferManager_
         (Udp.receiverLoop host receiver [Udp.Datagram datagram fromAddr])
       = Some bm'
       /\ fst (Buffer.getNextPlaybackPacket bm')
          = Some (Buffer.newAudioPacket (firstn 2044 (Buffer.data p))
                    (Buffer.sequenceNumber p)).
Proof.
  intros Hs Hfd Hr Hbm Hq HK datagram. split.
  - unfold Udp.sendAudioPacket. rewrite Hs. cbn [negb].
    destruct (sendData_counts sender (datagram, Z.of_nat (length datagram)) Hs Hfd)
      as (_ & _ & E).
    cbn [fst snd] in E. fold datagram. rewrite E.
    unfold UdpRuns.complete, UdpRuns.reachesSendto. cbn [fst snd].
    rewrite Z.eqb_refl.
    pose proof (length_serializePacket host p) as HL. fold datagram in HL.
    destruct datagram; [simpl in HL; lia|reflexivity].
  - eexists. split.
    + rewrite (receiverLoop_buffer host _ receiver bm Hr Hbm). reflexivity.
    + cbn [UdpRuns.taken flat_map]. rewrite app_nil_r.
      unfold datagram. rewrite parsed_serializePacket.
      unfold BufferRuns.pushAllNetwork. cbn [fold_left].
      unfold Buffer.pushNetworkPacket, Buffer.isBufferFull. rewrite Hq.
      cbn [length].
      destruct (Z.leb_spec (Buffer.maxBufferSize_ bm) (Z.of_nat 0)) as [L|_];
        [simpl in L; lia|].
      reflexivity.
Qed.

Lemma sent_packet_reaches_playback_witness :
  let host := Machine.BigEndian in
  let sender := snd (Udp.startClient Udp.new (Some 4) (10, 5000)) in
  let receiver := Udp.withBuffer (snd (Udp.startServer Udp.new (Some 3))) Buffer.new in
  let p := Buffer.newAudioPacket [x11; x22; x33] 7 in
  let datagram := Udp.serializePacket host (Some p) in
  fst (Udp.sendAudioPacket host sender (Some p) (Z.of_nat (length datagram))) = true
  /\ exists bm',
       Udp.bufferManager_
         (Udp.receiverLoop host receiver [Udp.Datagram datagram (10, 4000)])
       = Some bm'
       /\ fst (Buffer.getNextPlaybackPacket bm')
          = Some (Buffer.newAudioPacket (firstn 2044 (Buffer.data p))
                    (Buffer.sequenceNumber p)).
Proof.
  apply (sent_packet_reaches_playback Machine.BigEndian
           (snd (Udp.startClient Udp.new (Some 4) (10, 5000)))
           (Udp.withBuffer (snd (Udp.startServer Udp.new (Some 3))) Buffer.new)
           Buffer.new (Buffer.newAudioPacket [x11; x22; x33] 7) (10, 4000)).
  - reflexivity.
  - simpl. lia.
  - reflexivity.
  - reflexivity.
  - reflexivity.
  - vm_compute. discriminate.
Defined.

Section BitrateRunFacts.
Import Machine Bitrate BitrateRuns.
Variable undef : F32.float -> Z.

Lemma addToHistory_consistent (c : BitrateCalculator) (br : Z) :
  consistent c -> in_range br ->
  let h := addToHistory c br in
  (length h <= 100)%nat /\ Forall in_range h /\ last h br = br.
Proof.
  intros (_ & Hmax & Hlen & Hall & _) Hbr. unfold addToHistory. rewrite Hmax.
  assert (Hall' : Forall in_range (bitrateHistory_ c ++ [br])).
  { apply Forall_app. split; [exact Hall|constructor; [exact Hbr|constructor]]. }
  assert (Hlast : last (bitrateHistory_ c ++ [br]) br = br) by apply last_last.
  rewrite length_app. cbn [length].
  destruct (Z.ltb_spec 100 (Z.of_nat (length (bitrateHistory_ c) + 1))) as [L|L].
  - destruct (bitrateHistory_ c) as [|x h] eqn:E; [simpl in L; lia|].
    cbn [app tl] in *. inversion Hall' as [|? ? _ Ht]; subst.
    split; [rewrite length_app; cbn [length] in *; lia|]. split; [exact Ht|].
    apply last_last.
  - split; [rewrite length_app; cbn [length]; lia|]. split; assumption.
Qed.

Lemma commit_consistent (c : BitrateCalculator) (br : Z) :
  consistent c -> in_range br -> consistent (commit c br).
Proof.
  intros Hc Hbr.
  destruct (addToHistory_consistent c br Hc Hbr) as (Hl & Ha & Hlast).
  destruct Hc as (_ & Hmax & _).
  unfold consistent, commit. cbn. auto.
Qed.

Lemma adapt_consistent (c : BitrateCalculator) :
  consistent c -> consistent (adapt undef c).
Proof.
  intros Hc. unfold adapt.
  destruct (autoAdaptationEnabled_ c); [|exact Hc].
  destruct (shouldUpdateBitrate c (calculateOptimalBitrate undef c)); [|exact Hc].
  apply commit_consistent; [exact Hc|apply calculateOptimalBitrate_in_range].
Qed.

Lemma step_consistent (c : BitrateCalculator) (o : op) :
  consistent c -> consistent (step undef c o).
Proof.
  intros Hc. destruct o; cbn [step]; try exact Hc.
  - unfold initialize. destruct (initialized_ c); [exact Hc|].
    destruct (addToHistory_consistent c (clampBitrate initialBitrate) Hc
                (clampBitrate_in_range _)) as (Hl & Ha & Hlast).
    destruct Hc as (_ & Hmax & _). unfold consistent. cbn. auto.
  - unfold shutdown. destruct (negb (initialized_ c)); [exact Hc|].
    destruct Hc as (Hr & Hmax & _). unfold consistent. cbn.
    repeat split; auto. lia.
  - apply adapt_consistent. exact Hc.
  - apply adapt_consistent. exact Hc.
  - unfold reportPacketLoss. destruct (totalPackets =? 0); exact Hc.
  - unfold setQualityMode.
    assert (Hc1 : consistent (withQualityMode c mode)) by exact Hc.
    destruct (autoAdaptationEnabled_ (withQualityMode c mode)); [|exact Hc1].
    destruct (negb (calculateOptimalBitrate undef (withQualityMode c mode)
                    =? currentBitrate_ (withQualityMode c mode))); [|exact Hc1].
    apply commit_consistent; [exact Hc1|apply calculateOptimalBitrate_in_range].
Qed.

Lemma run_consistent (ops : list op) (c : BitrateCalculator) :
  consistent c -> consistent (run undef c ops).
Proof.
  revert c. induction ops as [|o ops IH]; intros c Hc; [exact Hc|].
  apply IH, step_consistent, Hc.
Qed.

Lemma new_consistent : consistent new.
Proof.
  unfold consistent. cbn. repeat split; try reflexivity; [lia|constructor].
Qed.

(** Before [initialize] the optimal bitrate is the default one. *)
Lemma step_uninitialized (c : BitrateCalculator) (o : op) :
  isInitialize o = false ->
  initialized_ c = false /\ currentBitrate_ c = Config.LYRA_DEFAULT_BITRATE ->
  initialized_ (step undef c o) = false
  /\ currentBitrate_ (step undef c o) = Config.LYRA_DEFAULT_BITRATE.
Proof.
  intros Ho (Hi & Hb).
  assert (Hadapt : forall c', initialized_ c' = false ->
            currentBitrate_ c' = Config.LYRA_DEFAULT_BITRATE ->
            initialized_ (adapt undef c') = false
            /\ currentBitrate_ (adapt undef c') = Config.LYRA_DEFAULT_BITRATE).
  { intros c' Hi' Hb'. unfold adapt, calculateOptimalBitrate. rewrite Hi'. cbn [negb].
    destruct (autoAdaptationEnabled_ c'); [|auto].
    destruct (shouldUpdateBitrate c' Config.LYRA_DEFAULT_BITRATE); cbn; auto. }
  destruct o; try discriminate Ho; cbn [step]; auto.
  - unfold shutdown. rewrite Hi. cbn. auto.
  - apply Hadapt; assumption.
  - apply Hadapt; assumption.
  - unfold reportPacketLoss. destruct (totalPackets =? 0); auto.
  - unfold setQualityMode, calculateOptimalBitrate. cbn [withQualityMode initialized_
      autoAdaptationEnabled_ currentBitrate_]. rewrite Hi, Hb. cbn [negb].
    rewrite Z.eqb_refl. cbn [negb]. destruct (autoAdaptationEnabled_ c); cbn; auto.
Qed.

(** With adaptation off nothing commits a bitrate. *)
Lemma step_passive (c : BitrateCalculator) (o : op) :
  passive o = true ->
  autoAdaptationEnabled_ c = false ->
  autoAdaptationEnabled_ (step undef c o) = false
  /\ currentBitrate_ (step undef c o) = currentBitrate_ c
  /\ recommendedBitrate_ (step undef c o) = recommendedBitrate_ c
  /\ bitrateChanges_ (step undef c o) = bitrateChanges_ c.
Proof.
  intros Ho Ha.
  destruct o; try discriminate Ho; cbn [step]; auto.
  - unfold shutdown. destruct (negb (initialized_ c)); cbn; auto.
  - unfold updateNetworkMetrics, adapt. cbn. rewrite Ha. cbn. auto.
  - unfold updateAudioMetrics, adapt. cbn. rewrite Ha. cbn. auto.
  - unfold reportPacketLoss. destruct (totalPackets =? 0); cbn; auto.
  - destruct enable; [discriminate Ho|]. cbn. auto.
  - unfold setQualityMode. cbn. rewrite Ha. cbn. auto.
Qed.

End BitrateRunFacts.

(** X12. Whatever calls a calculator receives, its recommended bitrate is
    its current bitrate, its history never holds more than a hundred
    entries, every entry lies within [3200, 9200], and the newest entry, when
    there is one, is the current bitrate. *)
Theorem bitrate_history_consistent (undef : F32.float -> Z) (ops : list Bitrate.op) :
  let c := Bitrate.run undef Bitrate.new ops in
  Bitrate.recommendedBitrate_ c = Bitrate.currentBitrate_ c
  /\ (length (Bitrate.bitrateHistory_ c) <= 100)%nat
  /\ Forall in_range (Bitrate.bitrateHistory_ c)
  /\ last (Bitrate.bitrateHistory_ c) (Bitrate.currentBitrate_ c)
     = Bitrate.currentBitrate_ c.
Proof.
  destruct (run_consistent undef ops Bitrate.new new_consistent)
    as (Hr & _ & Hl & Ha & Hlast).
  cbv zeta. auto.
Qed.

(** X13. A calculator that is never initialized keeps the default bitrate
    of 6000: no metrics, report, setting or mode change moves it. *)
Theorem uninitialized_keeps_default (undef : F32.float -> Z) (ops : list Bitrate.op) :
  forallb (fun o => negb (BitrateRuns.isInitialize o)) ops = true ->
  Bitrate.currentBitrate_ (Bitrate.run undef Bitrate.new ops) = 6000
  /\ Bitrate.initialized_ (Bitrate.run undef Bitrate.new ops) = false.
Proof.
  intros H.
  assert (G : forall c,
             Bitrate.initialized_ c = false
             /\ Bitrate.currentBitrate_ c = Config.LYRA_DEFAULT_BITRATE ->
             Bitrate.initialized_ (Bitrate.run undef c ops) = false
             /\ Bitrate.currentBitrate_ (Bitrate.run undef c ops)
                = Config.LYRA_DEFAULT_BITRATE).
  { induction ops as [|o ops IH]; intros c Hc; [exact Hc|].
    cbn [forallb] in H. apply andb_true_iff in H. destruct H as (Ho & H).
    apply negb_true_iff in Ho.
    apply (IH H). apply step_uninitialized; assumption. }
  destruct (G Bitrate.new (conj eq_refl eq_refl)) as (Hi & Hb).
  split; [exact Hb|exact Hi].
Qed.

Lemma uninitialized_keeps_default_witness :
  let ops :=
    [Bitrate.SetStabilityThreshold (F32.of_Z 0);
     Bitrate.UpdateNetworkMetrics
       (Bitrate.mkNetworkMetrics (F32.lit 9 10) 900 0 (F32.of_Z 1));
     Bitrate.SetQualityMode Bitrate.POWER_SAVE;
     Bitrate.Shutdown] in
  Bitrate.currentBitrate_ (Bitrate.run unspecified Bitrate.new ops) = 6000
  /\ Bitrate.initialized_ (Bitrate.run unspecified Bitrate.new ops) = false.
Proof.
  apply (uninitialized_keeps_default unspecified
           [Bitrate.SetStabilityThreshold (F32.of_Z 0);
            Bitrate.UpdateNetworkMetrics
              (Bitrate.mkNetworkMetrics (F32.lit 9 10) 900 0 (F32.of_Z 1));
            Bitrate.SetQualityMode Bitrate.POWER_SAVE;
            Bitrate.Shutdown]).
  reflexivity.
Defined.

(** X14. With automatic adaptation switched off the bitrate is frozen:
    metrics updates, reports, settings, mode changes and [shutdown] leave the
    current and recommended bitrates and the change counter as they were,
    until adaptation is enabled again or the calculator is initialized. *)
Theorem bitrate_frozen_without_adaptation (undef : F32.float -> Z)
    (c : Bitrate.BitrateCalculator) (ops : list Bitrate.op) :
  Bitrate.autoAdaptationEnabled_ c = false ->
  forallb BitrateRuns.passive ops = true ->
  Bitrate.currentBitrate_ (Bitrate.run undef c ops) = Bitrate.currentBitrate_ c
  /\ Bitrate.recommendedBitrate_ (Bitrate.run undef c ops)
     = Bitrate.recommendedBitrate_ c
  /\ Bitrate.bitrateChanges_ (Bitrate.run undef c ops) = Bitrate.bitrateChanges_ c.
Proof.
  revert c. induction ops as [|o ops IH]; intros c Ha H; [auto|].
  cbn [forallb] in H. apply andb_true_iff in H. destruct H as (Ho & H).
  destruct (step_passive undef c o Ho Ha) as (Ha' & Eb & Er & Ec).
  destruct (IH (Bitrate.step undef c o) Ha' H) as (Ib & Ir & Ic).
  cbn [Bitrate.run fold_left] in *. unfold Bitrate.run in *.
  rewrite Ib, Ir, Ic. auto.
Qed.

Lemma bitrate_frozen_without_adaptation_witness :
  let c := Bitrate.enableAutoAdaptation
             (snd (Bitrate.initialize Bitrate.new 9200)) false in
  let ops :=
    [Bitrate.UpdateNetworkMetrics
       (Bitrate.mkNetworkMetrics (F32.lit 9 10) 900 0 (F32.of_Z 1));
     Bitrate.SetQualityMode Bitrate.POWER_SAVE;
     Bitrate.UpdateAudioMetrics Bitrate.defaultAudioMetrics] in
  Bitrate.currentBitrate_ (Bitrate.run unspecified c ops) = Bitrate.currentBitrate_ c
  /\ Bitrate.recommendedBitrate_ (Bitrate.run unspecified c ops)
     = Bitrate.recommendedBitrate_ c
  /\ Bitrate.bitrateChanges_ (Bitrate.run unspecified c ops)
     = Bitrate.bitrateChanges_ c.
Proof.
  apply (bitrate_frozen_without_adaptation unspecified
           (Bitrate.enableAutoAdaptation
              (snd (Bitrate.initialize Bitrate.new 9200)) false)
           [Bitrate.UpdateNetworkMetrics
              (Bitrate.mkNetworkMetrics (F32.lit 9 10) 900 0 (F32.of_Z 1));
            Bitrate.SetQualityMode Bitrate.POWER_SAVE;
            Bitrate.UpdateAudioMetrics Bitrate.defaultAudioMetrics]);
    reflexivity.
Defined.

Section ClampFacts.
Import Machine Bitrate BitrateRuns.

Lemma ltb_leb (x y : F32.float) : F32.ltb x y = true -> F32.leb x y = true.
Proof.
  unfold F32.ltb, F32.leb, SFltb, SFleb.
  destruct (SFcompare x y) as [[| |]|]; auto.
Qed.

(** [std::max(lo, std::min(hi, x))] lies between [lo] and [hi] for every
    [x], a NaN included. *)
Lemma clamp_within (lo hi x : F32.float) :
  F32.ltb lo hi = true -> F32.leb lo lo = true -> F32.leb hi hi = true ->
  within lo hi (F32.max lo (F32.min hi x)) = true.
Proof.
  intros Hlt Hlo Hhi. unfold within, F32.max, F32.min.
  destruct (F32.ltb x hi) eqn:Ex.
  - destruct (F32.ltb lo x) eqn:El.
    + now rewrite (ltb_leb _ _ El), (ltb_leb _ _ Ex).
    + now rewrite Hlo, (ltb_leb _ _ Hlt).
  - rewrite Hlt. now rewrite (ltb_leb _ _ Hlt), Hhi.
Qed.

Lemma clamp01_within (x : F32.float) :
  within (F32.of_Z 0) (F32.of_Z 1) (clamp01 x) = true.
Proof. unfold clamp01. apply clamp_within; reflexivity. Qed.

Lemma step_settings (undef : F32.float -> Z) (c : BitrateCalculator) (o : op) :
  settingsWithinUnit c -> settingsWithinUnit (step undef c o).
Proof.
  intros Hc. pose proof Hc as (Hq & Hs & Ht).
  destruct o; cbn [step]; try exact Hc.
  - unfold initialize. destruct (initialized_ c); exact Hc.
  - unfold shutdown. destruct (negb (initialized_ c)); exact Hc.
  - unfold updateNetworkMetrics, adapt.
    destruct (autoAdaptationEnabled_ _); [|exact Hc].
    destruct (shouldUpdateBitrate _ _); exact Hc.
  - unfold updateAudioMetrics, adapt.
    destruct (autoAdaptationEnabled_ _); [|exact Hc].
    destruct (shouldUpdateBitrate _ _); exact Hc.
  - unfold reportPacketLoss. destruct (totalPackets =? 0); exact Hc.
  - split; [apply clamp01_within|split; assumption].
  - split; [assumption|split; [apply clamp01_within|assumption]].
  - split; [assumption|split; [assumption|apply clamp01_within]].
  - unfold setQualityMode.
    destruct (autoAdaptationEnabled_ _); [|exact Hc].
    destruct (negb _); exact Hc.
Qed.

End ClampFacts.

(** X15. The three tuning settings of a calculator (target quality,
    adaptation speed and stability threshold) lie within [0, 1] after any
    sequence of calls, whatever [float] the setters are given: a value below
    0 is stored as 0, a value above 1 and a NaN as 1. *)
Theorem settings_stay_within_unit (undef : F32.float -> Z) (ops : list Bitrate.op) :
  BitrateRuns.settingsWithinUnit (Bitrate.run undef Bitrate.new ops)
  /\ Bitrate.clamp01 S754_nan = F32.of_Z 1
  /\ Bitrate.clamp01 (S754_infinity false) = F32.of_Z 1
  /\ Bitrate.clamp01 (S754_infinity true) = F32.of_Z 0.
Proof.
  split; [|repeat split].
  assert (G : forall c, BitrateRuns.settingsWithinUnit c ->
                        BitrateRuns.settingsWithinUnit (Bitrate.run undef c ops)).
  { induction ops as [|o ops IH]; intros c Hc; [exact Hc|].
    apply IH, step_settings, Hc. }
  apply G. repeat split.
Qed.

(** X16. The scores of [BitrateUtils] are bounded whatever the metrics:
    [evaluateNetworkQuality] returns a value within [0, 1] and
    [evaluateAudioComplexity] one within [0.1, 1].  A NaN loss rate is scored
    as a network quality of 1. *)
Theorem utility_scores_bounded (network : Bitrate.NetworkMetrics)
    (audio : Bitrate.AudioMetrics) (latency jitter : Z) (bandwidth : F32.float) :
  BitrateRuns.within (F32.of_Z 0) (F32.of_Z 1)
    (BitrateUtils.evaluateNetworkQuality network) = true
  /\ BitrateRuns.within (F32.lit 1 10) (F32.of_Z 1)
       (BitrateUtils.evaluateAudioComplexity audio) = true
  /\ BitrateUtils.evaluateNetworkQuality
       (Bitrate.mkNetworkMetrics S754_nan latency jitter bandwidth)
     = F32.of_Z 1.
Proof.
  split; [|split].
  - unfold BitrateUtils.evaluateNetworkQuality. apply clamp_within; reflexivity.
  - unfold BitrateUtils.evaluateAudioComplexity. apply clamp_within; reflexivity.
  - unfold BitrateUtils.evaluateNetworkQuality.
    cbn [Bitrate.packetLossRate Bitrate.averageLatency Bitrate.jitter].
    change (F32.mul (F32.of_Z 1) (F32.sub (F32.of_Z 1) S754_nan)) with S754_nan.
    assert (Hmul : forall y, F32.mul S754_nan y = S754_nan) by (intros []; reflexivity).
    destruct (100 <? latency); destruct (50 <? jitter); rewrite ?Hmul; reflexivity.
Qed.

Section FrameLengthFacts.
Import Machine Preproc PreprocRuns.
Variable NS : NoiseSuppresorModel.
Variable host : byte_order.
Variable undef : F32.float -> Z.

Lemma length_int16ToFloat (a : list Z) : length (int16ToFloat a) = length a.
Proof. unfold int16ToFloat. apply length_map. Qed.

Lemma length_floatToInt16 (a : list F32.float) :
  length (floatToInt16 undef a) = length a.
Proof. unfold floatToInt16. apply length_map. Qed.

Lemma length_overwrite {A : Type} (new old : list A) :
  length (overwrite new old) = length old.
Proof.
  unfold overwrite. rewrite length_app, length_firstn, length_skipn. lia.
Qed.

Lemma length_applyAGC (p : AudioPreprocessor NS) (a : list F32.float) :
  length (snd (applyAGC p a)) = length a.
Proof.
  unfold applyAGC. destruct a; [reflexivity|]. cbn [snd]. apply length_map.
Qed.

Lemma length_applyVAD (p : AudioPreprocessor NS) (a : list F32.float)
    (prob : F32.float) :
  length (applyVAD p a prob) = length a.
Proof.
  unfold applyVAD. destruct (F32.ltb _ _); [apply length_map|reflexivity].
Qed.

(** The chain accepts every frame that is not empty and returns as many
    samples as it was given. *)
Lemma processAudioChain_length (p : AudioPreprocessor NS) (a : list F32.float)
    (isInput : bool) :
  a <> [] ->
  fst (fst (processAudioChain p a isInput)) = true
  /\ length (snd (processAudioChain p a isInput)) = length a.
Proof.
  intros Ha. unfold processAudioChain.
  destruct a as [|x a]; [contradiction|].
  set (a0 := x :: a).
  destruct isInput.
  - assert (H1 : exists p1 a1,
               (if enableAGC (config_ p) then applyAGC p a0 else (p, a0)) = (p1, a1)
               /\ length a1 = length a0).
    { destruct (enableAGC (config_ p)).
      - pose proof (length_applyAGC p a0) as L.
        destruct (applyAGC p a0) as [p1 a1]. eauto.
      - eauto. }
    destruct H1 as (p1 & a1 & E1 & L1). rewrite E1.
    assert (H2 : exists p2 a2 s2,
               match noiseSuppresor_ p1 with
               | Some n =>
                   if enableNoiseSupression (config_ p1)
                      && (Config.RNNOISE_FRAME_SIZE <=? Z.of_nat (length a1))
                   then
                     let '(n', frame) :=
                       ns_process NS n
                         (firstn (Z.to_nat Config.RNNOISE_FRAME_SIZE) a1) in
                     (withSuppressor p1 (Some n'), overwrite frame a1,
                      ns_isSpeechDetected NS n')
                   else (p1, a1, false)
               | None => (p1, a1, false)
               end = (p2, a2, s2)
               /\ length a2 = length a1).
    { destruct (noiseSuppresor_ p1) as [n|]; [|repeat eexists].
      destruct (enableNoiseSupression (config_ p1)
                && (Config.RNNOISE_FRAME_SIZE <=? Z.of_nat (length a1)));
        [|repeat eexists].
      destruct (ns_process NS n (firstn (Z.to_nat Config.RNNOISE_FRAME_SIZE) a1))
        as [n' frame].
      repeat eexists. apply length_overwrite. }
    destruct H2 as (p2 & a2 & s2 & E2 & L2). rewrite E2.
    destruct (enableVAD (config_ p2)); cbn [fst snd];
      rewrite ?length_applyVAD; split; congruence.
  - cbn [fst snd]. split; [reflexivity|].
    destruct (enableAGC (config_ p)); [apply length_map|reflexivity].
Qed.

Lemma validateSampleCount_spec (n : Z) :
  validateSampleCount n = (0 <? n) && (n <=? 4096).
Proof. reflexivity. Qed.

Lemma processInput_frame (p : AudioPreprocessor NS) (a : list Z) :
  let n := Z.of_nat (length a) in
  match processInput undef p a with
  | InBounds (ok, p', out) =>
      ok = initialized_ p && (0 <? n) && (n <=? 1024)
      /\ length out = length a
      /\ (ok = true \/ out = a /\ p' = p)
  | Overrun => initialized_ p = true /\ 1024 < n <= 4096
  end.
Proof.
  cbv zeta. unfold processInput. rewrite validateSampleCount_spec.
  change Config.FRAMES_PER_BUFFER with 1024.
  destruct (initialized_ p); cbn [negb andb]; [|auto].
  destruct (Z.ltb_spec 0 (Z.of_nat (length a))) as [Hpos|Hz]; cbn [negb andb];
    [|auto].
  destruct (Z.leb_spec (Z.of_nat (length a)) 4096) as [Hle|Hgt]; cbn [negb].
  - destruct (Z.ltb_spec 1024 (Z.of_nat (length a))) as [Hbig|Hsmall].
    + split; [reflexivity|lia].
    + assert (Hne : int16ToFloat a <> []).
      { destruct a; [simpl in Hpos; lia|discriminate]. }
      destruct (processAudioChain_length p (int16ToFloat a) true Hne) as (Hok & Hlen).
      destruct (processAudioChain p (int16ToFloat a) true) as [[ok p'] processed].
      cbn [fst snd] in Hok, Hlen. subst ok.
      destruct (Z.leb_spec (Z.of_nat (length a)) 1024) as [_|L]; [|lia].
      rewrite length_floatToInt16, Hlen, length_int16ToFloat. auto.
  - destruct (Z.leb_spec (Z.of_nat (length a)) 1024) as [L|_]; [lia|]. auto.
Qed.

Lemma processOutput_frame (p : AudioPreprocessor NS) (a : list Z) :
  let n := Z.of_nat (length a) in
  match processOutput undef p a with
  | InBounds (ok, out) =>
      ok = initialized_ p && (0 <? n) && (n <=? 1024)
      /\ length out = length a
      /\ (ok = true \/ out = a)
  | Overrun => initialized_ p = true /\ 1024 < n <= 4096
  end.
Proof.
  cbv zeta. unfold processOutput. rewrite validateSampleCount_spec.
  change Config.FRAMES_PER_BUFFER with 1024.
  destruct (initialized_ p); cbn [negb andb]; [|auto].
  destruct (Z.ltb_spec 0 (Z.of_nat (length a))) as [Hpos|Hz]; cbn [negb andb];
    [|auto].
  destruct (Z.leb_spec (Z.of_nat (length a)) 4096) as [Hle|Hgt]; cbn [negb].
  - destruct (Z.ltb_spec 1024 (Z.of_nat (length a))) as [Hbig|Hsmall].
    + split; [reflexivity|lia].
    + assert (Hne : int16ToFloat a <> []).
      { destruct a; [simpl in Hpos; lia|discriminate]. }
      destruct (processAudioChain_length p (int16ToFloat a) false Hne) as (Hok & Hlen).
      destruct (processAudioChain p (int16ToFloat a) false) as [[ok p'] processed].
      cbn [fst snd] in Hok, Hlen. subst ok.
      destruct (Z.leb_spec (Z.of_nat (length a)) 1024) as [_|L]; [|lia].
      rewrite length_floatToInt16, Hlen, length_int16ToFloat. auto.
  - destruct (Z.leb_spec (Z.of_nat (length a)) 1024) as [L|_]; [lia|]. auto.
Qed.

Lemma processInput_overrun (p : AudioPreprocessor NS) (a : list Z) :
  initialized_ p = true -> 1024 < Z.of_nat (length a) <= 4096 ->
  processInput undef p a = Overrun.
Proof.
  intros Hi Hn. unfold processInput. cbv zeta.
  rewrite Hi, validateSampleCount_spec. change Config.FRAMES_PER_BUFFER with 1024.
  destruct (Z.ltb_spec 0 (Z.of_nat (length a))); [|lia].
  destruct (Z.leb_spec (Z.of_nat (length a)) 4096); [|lia].
  destruct (Z.ltb_spec 1024 (Z.of_nat (length a))); [reflexivity|lia].
Qed.

Lemma processOutput_overrun (p : AudioPreprocessor NS) (a : list Z) :
  initialized_ p = true -> 1024 < Z.of_nat (length a) <= 4096 ->
  processOutput undef p a = Overrun.
Proof.
  intros Hi Hn. unfold processOutput. cbv zeta.
  rewrite Hi, validateSampleCount_spec. change Config.FRAMES_PER_BUFFER with 1024.
  destruct (Z.ltb_spec 0 (Z.of_nat (length a))); [|lia].
  destruct (Z.leb_spec (Z.of_nat (length a)) 4096); [|lia].
  destruct (Z.ltb_spec 1024 (Z.of_nat (length a))); [reflexivity|lia].
Qed.

End FrameLengthFacts.

(** X17. [processInput] and [processOutput] are all or nothing.  On an
    initialized preprocessor a frame of 1025 to 4096 samples passes
    [validateSampleCount] and is converted past the end of the 1024-entry
    scratch buffer: the call overruns.  Every other call stays in bounds; it
    succeeds exactly on an initialized preprocessor and a frame of 1 to 1024
    samples, and then returns as many samples as it was given, whatever the
    suppressor does; when it refuses, the frame is returned untouched. *)
Theorem process_is_all_or_nothing (NS : NoiseSuppresorModel) (undef : F32.float -> Z)
    (p : Preproc.AudioPreprocessor NS) (a : list Z) :
  let n := Z.of_nat (length a) in
  let overruns := Preproc.initialized_ p && (1024 <? n) && (n <=? 4096) in
  (if overruns then Preproc.processInput undef p a = Preproc.Overrun
   else
     exists ok p' out,
       Preproc.processInput undef p a = Preproc.InBounds (ok, p', out)
       /\ ok = Preproc.initialized_ p && (0 <? n) && (n <=? 1024)
       /\ length out = length a
       /\ (ok = true \/ out = a /\ p' = p))
  /\ (if overruns then Preproc.processOutput undef p a = Preproc.Overrun
      else
        exists ok out,
          Preproc.processOutput undef p a = Preproc.InBounds (ok, out)
          /\ ok = Preproc.initialized_ p && (0 <? n) && (n <=? 1024)
          /\ length out = length a
          /\ (ok = true \/ out = a)).
Proof.
  intros n overruns.
  pose proof (processInput_frame NS undef p a) as Hi.
  pose proof (processOutput_frame NS undef p a) as Ho.
  cbv zeta in Hi, Ho. fold n in Hi, Ho.
  destruct overruns eqn:E; subst overruns.
  - apply andb_true_iff in E. destruct E as (E & E3).
    apply andb_true_iff in E. destruct E as (E1 & E2).
    apply Z.ltb_lt in E2. apply Z.leb_le in E3.
    split; [apply processInput_overrun|apply processOutput_overrun];
      solve [exact E1 | fold n; lia].
  - assert (Hno : ~ (Preproc.initialized_ p = true /\ 1024 < n <= 4096)).
    { intros (H1 & H2). rewrite H1 in E. cbn [andb] in E.
      apply andb_false_iff in E.
      destruct E as [E|E]; [apply Z.ltb_ge in E|apply Z.leb_gt in E]; lia. }
    split.
    + destruct (Preproc.processInput undef p a) as [[[ok p'] out]|];
        [|contradiction].
      exists ok, p', out. split; [reflexivity|exact Hi].
    + destruct (Preproc.processOutput undef p a) as [[ok out]|];
        [|contradiction].
      exists ok, out. split; [reflexivity|exact Ho].
Qed.

Section ResampleFacts.
Import Machine Codec PreprocRuns.
Variable host : byte_order.
Variable undef : F32.float -> Z.

Lemma to_int_trunc (lo hi z : Z) (x : F32.float) :
  F32.trunc x = Some z -> lo <= z <= hi -> F32.to_int undef lo hi x = z.
Proof.
  intros Ht Hz. unfold F32.to_int. rewrite Ht.
  destruct (Z.leb_spec lo z); [|lia]. destruct (Z.leb_spec z hi); [|lia].
  reflexivity.
Qed.

Lemma length_simpleSampleRateConversion (input : list Z) (inputRate outputRate v : Z) :
  inputRate <> outputRate ->
  F32.trunc
    (F32.mul (F32.of_Z (Z.of_nat (length input)))
       (F32.div (F32.of_Z outputRate) (F32.of_Z inputRate))) = Some v ->
  0 <= v <= 2 ^ 64 - 1 ->
  length (simpleSampleRateConversion undef input inputRate outputRate) = Z.to_nat v.
Proof.
  intros Hne Ht Hv. unfold simpleSampleRateConversion.
  destruct (Z.eqb_spec inputRate outputRate) as [E|_]; [contradiction|].
  rewrite length_map, length_seq. unfold F32.to_uint64.
  now rewrite (to_int_trunc 0 (2 ^ 64 - 1) v _ Ht Hv).
Qed.

(** Up to 4096 samples the conversions divide and multiply the count by
    three. *)
Lemma downsampled_third (n : Z) : 0 <= n < 4096 -> downsampled n = Some (n / 3).
Proof.
  intros Hn.
  assert (H : forall_bits 12
                (fun z => match downsampled z with
                          | Some v => v =? z / 3
                          | None => false
                          end) = true) by (vm_compute; reflexivity).
  pose proof (forall_bits_spec 12 _ H n) as Hz. cbv beta in Hz.
  change (2 ^ Z.of_nat 12) with 4096 in Hz. specialize (Hz Hn).
  destruct (downsampled n) as [v|]; [|discriminate].
  apply Z.eqb_eq in Hz. now subst v.
Qed.

Lemma upsampled_triple (n : Z) : 0 <= n < 2048 -> upsampled n = Some (3 * n).
Proof.
  intros Hn.
  assert (H : forall_bits 11
                (fun z => match upsampled z with
                          | Some v => v =? 3 * z
                          | None => false
                          end) = true) by (vm_compute; reflexivity).
  pose proof (forall_bits_spec 11 _ H n) as Hz. cbv beta in Hz.
  change (2 ^ Z.of_nat 11) with 2048 in Hz. specialize (Hz Hn).
  destruct (upsampled n) as [v|]; [|discriminate].
  apply Z.eqb_eq in Hz. now subst v.
Qed.

Lemma length_resampleTo16kHz (input : list Z) :
  Z.of_nat (length input) < 4096 ->
  Z.of_nat (length (resampleTo16kHz undef input Config.SAMPLE_RATE))
  = Z.of_nat (length input) / 3.
Proof.
  intros Hn. unfold resampleTo16kHz.
  change (Config.SAMPLE_RATE =? Config.LYRA_SAMPLE_RATE) with false. cbv iota.
  pose proof (downsampled_third (Z.of_nat (length input))) as Hd.
  unfold downsampled in Hd.
  assert (Hq : 0 <= Z.of_nat (length input) / 3 <= 2 ^ 64 - 1).
  { split; [apply Z.div_pos; lia|].
    assert (Z.of_nat (length input) / 3 <= Z.of_nat (length input))
      by (apply Z.div_le_upper_bound; lia).
    lia. }
  rewrite (length_simpleSampleRateConversion input _ _
             (Z.of_nat (length input) / 3)); [lia|discriminate|apply Hd; lia|exact Hq].
Qed.

Lemma length_resampleFromLyra (input : list Z) :
  Z.of_nat (length input) < 2048 ->
  Z.of_nat (length (resampleFromLyra undef input Config.SAMPLE_RATE))
  = 3 * Z.of_nat (length input).
Proof.
  intros Hn. unfold resampleFromLyra.
  change (Config.SAMPLE_RATE =? Config.LYRA_SAMPLE_RATE) with false. cbv iota.
  pose proof (upsampled_triple (Z.of_nat (length input))) as Hu.
  unfold upsampled in Hu.
  rewrite (length_simpleSampleRateConversion input _ _
             (3 * Z.of_nat (length input))); [lia|discriminate|apply Hu; lia|lia].
Qed.

Lemma length_samples_of_bytes (m : nat) (bytes : list byte) :
  length bytes = (2 * m)%nat -> length (samples_of_bytes host bytes) = m.
Proof.
  revert bytes. induction m as [|m IH]; intros bytes H.
  - destruct bytes; [reflexivity|discriminate].
  - destruct bytes as [|b0 [|b1 rest]]; try (simpl in H; lia).
    cbn [samples_of_bytes length]. f_equal. apply IH. simpl in H. lia.
Qed.

(** A started 16 kHz mono codec emits a packet exactly for frames of 320
    samples, and stays as it is otherwise. *)
Lemma encode_320 (c : LyraCodec) (now : Z) (frame : list Z) :
  initialized_ c = true -> frameSize_ c = 320 -> channels_ c = 1 ->
  let r := encode host c now frame in
  (if Z.of_nat (length frame) =? 320
   then exists pkt, fst r = Some pkt /\ length (data pkt) = 640%nat
   else fst r = None)
  /\ initialized_ (snd r) = true /\ frameSize_ (snd r) = 320
  /\ channels_ (snd r) = 1.
Proof.
  intros Hi Hf Hc. cbv zeta. unfold encode. rewrite Hi. cbn [negb].
  unfold validateInputSize, getExpectedInputSize. rewrite Hf, Hc.
  change (wrap32 (320 * 1)) with 320.
  destruct (Z.eqb_spec (Z.of_nat (length frame)) 320) as [E|N].
  - destruct (Z.eqb_spec (Z.of_nat (length frame)) 0) as [Z0|_]; [lia|].
    cbn [negb].
    pose proof (length_raw host frame) as HL. unfold encodeRaw.
    destruct (flat_map (int16_bytes host) frame) as [|b0 bytes] eqn:EB;
      [simpl in HL; lia|].
    cbn [fst snd initialized_ frameSize_ channels_ data].
    split; [|auto]. eexists. split; [reflexivity|].
    cbn [data]. rewrite HL. lia.
  - cbn [negb]. destruct (Z.of_nat (length frame) =? 0); cbn; auto.
Qed.

(** The same codec decodes every payload of [2 m] bytes, [m >= 1], into
    [m] samples. *)
Lemma decode_even (c : LyraCodec) (bytes : list byte) (m : nat) :
  initialized_ c = true -> length bytes = (2 * m)%nat -> (1 <= m)%nat ->
  exists samples,
    fst (decode host c bytes) = Some samples /\ length samples = m.
Proof.
  intros Hi Hl Hm. unfold decode. rewrite Hi. cbn [negb].
  destruct (Z.eqb_spec (Z.of_nat (length bytes)) 0) as [E|_]; [lia|].
  unfold decodeRaw.
  replace (Z.of_nat (length bytes) mod 2) with 0
    by (rewrite Hl, Nat2Z.inj_mul, Z.mul_comm, Z.mod_mul; lia).
  cbn [Z.eqb negb].
  pose proof (length_samples_of_bytes m bytes Hl) as HS.
  destruct (samples_of_bytes host bytes) as [|s samples]; [simpl in HS; lia|].
  eexists. split; [reflexivity|exact HS].
Qed.

End ResampleFacts.

Section PreprocCodecFacts.
Import Machine Preproc PreprocRuns.
Variable NS : NoiseSuppresorModel.
Variable host : byte_order.
Variable undef : F32.float -> Z.

Lemma withCodec_ready (p p1 : AudioPreprocessor NS) (c : Codec.LyraCodec) :
  core p1 = core p -> initialized_ p = true -> enableCodec (config_ p) = true ->
  Codec.initialized_ c = true -> Codec.frameSize_ c = 320 -> Codec.channels_ c = 1 ->
  codecReady (withCodec p1 (Some c)).
Proof.
  intros Hcore Hi He H1 H2 H3. unfold core in Hcore.
  injection Hcore as Ei Ec _.
  split; [cbn; congruence|]. split; [cbn; congruence|].
  exists c. cbn. auto.
Qed.

(** [encode] with the codec ready. *)
Lemma encode_ready (p : AudioPreprocessor NS) (now : Z) (a : list Z) :
  codecReady p ->
  let n := Z.of_nat (length a) in
  match encode host undef p now a with
  | Overrun => 1024 < n <= 4096
  | InBounds (Some pkt, p') =>
      960 <= n <= 962 /\ length (Codec.data pkt) = 640%nat /\ codecReady p'
  | InBounds (None, p') => (n < 960 \/ 962 < n) /\ codecReady p'
  end.
Proof.
  intros Hp. pose proof Hp as (Hi & He & c & Ec & Hci & Hcf & Hcc).
  cbv zeta. unfold encode. rewrite Ec, Hi, He. cbn [negb].
  pose proof (processInput_frame NS undef p a) as Hf.
  pose proof (processInput_core NS undef p a) as Hcore.
  cbv zeta in Hf. rewrite Hi in Hf.
  destruct (processInput undef p a) as [[[ok p1] processed]|]; [|apply Hf].
  destruct Hf as (Hok & Hlen & Hrest).
  destruct ok.
  - symmetry in Hok. cbn [andb] in Hok. apply andb_true_iff in Hok.
    destruct Hok as (Hpos & Hle). apply Z.ltb_lt in Hpos. apply Z.leb_le in Hle.
    change (negb (Config.SAMPLE_RATE =? Config.LYRA_SAMPLE_RATE)) with true.
    cbv iota.
    pose proof (length_resampleTo16kHz undef processed) as Hr.
    rewrite Hlen in Hr. specialize (Hr ltac:(lia)).
    set (frame := Codec.resampleTo16kHz undef processed Config.SAMPLE_RATE) in *.
    pose proof (encode_320 host c now frame Hci Hcf Hcc) as H320.
    cbv zeta in H320.
    destruct (Codec.encode host c now frame) as [r c'].
    cbn [fst snd] in H320. destruct H320 as (Hr320 & Hi' & Hf' & Hc').
    assert (Hready : codecReady (withCodec p1 (Some c')))
      by (apply (withCodec_ready p); assumption).
    rewrite Hr in Hr320.
    destruct (Z.eqb_spec (Z.of_nat (length a) / 3) 320) as [E|N].
    + destruct Hr320 as (pkt & -> & Hl).
      split; [|split; assumption].
      pose proof (Z.div_mod (Z.of_nat (length a)) 3 ltac:(lia)).
      pose proof (Z.mod_pos_bound (Z.of_nat (length a)) 3 ltac:(lia)). lia.
    + subst r. split; [|assumption].
      pose proof (Z.div_mod (Z.of_nat (length a)) 3 ltac:(lia)).
      pose proof (Z.mod_pos_bound (Z.of_nat (length a)) 3 ltac:(lia)). lia.
  - destruct Hrest as [Hrest|(_ & ->)]; [discriminate|].
    split; [|exact Hp].
    symmetry in Hok. cbn [andb] in Hok. apply andb_false_iff in Hok.
    destruct Hok as [Hok|Hok]; [apply Z.ltb_ge in Hok|apply Z.leb_gt in Hok]; lia.
Qed.

Lemma encode_overrun (p : AudioPreprocessor NS) (now : Z) (a : list Z) :
  codecReady p -> 1024 < Z.of_nat (length a) <= 4096 ->
  encode host undef p now a = Overrun.
Proof.
  intros (Hi & He & c & Ec & _) Hn. unfold encode.
  rewrite Ec, Hi, He. cbn [negb].
  rewrite (processInput_overrun NS undef p a Hi Hn). reflexivity.
Qed.

(** [decode] with the codec ready. *)
Lemma decode_ready (p : AudioPreprocessor NS) (pkt : Codec.EncodedPacket) (m : nat) :
  codecReady p ->
  length (Codec.data pkt) = (2 * m)%nat -> (1 <= m <= 341)%nat ->
  exists out p',
    decode host undef p pkt = InBounds (Some out, p')
    /\ length out = (3 * m)%nat /\ codecReady p'.
Proof.
  intros Hp Hl Hm. pose proof Hp as (Hi & He & c & Ec & Hci & Hcf & Hcc).
  unfold decode. rewrite Ec, Hi, He. cbn [negb].
  unfold Codec.decodePacket.
  destruct (decode_even host c (Codec.data pkt) m Hci Hl ltac:(lia))
    as (samples & Hd & Hs).
  assert (Hc' : Codec.initialized_ (snd (Codec.decode host c (Codec.data pkt))) = true
                /\ Codec.frameSize_ (snd (Codec.decode host c (Codec.data pkt))) = 320
                /\ Codec.channels_ (snd (Codec.decode host c (Codec.data pkt))) = 1).
  { unfold Codec.decode. rewrite Hci. cbn [negb].
    destruct (Z.of_nat (length (Codec.data pkt)) =? 0); [cbn; auto|].
    destruct (Codec.decodeRaw host (Codec.data pkt)); cbn; auto. }
  destruct (Codec.decode host c (Codec.data pkt)) as [decoded c'].
  cbn [fst snd] in Hd, Hc'. subst decoded. destruct Hc' as (Hi' & Hf' & Hch').
  change (negb (Config.SAMPLE_RATE =? Config.LYRA_SAMPLE_RATE)) with true.
  cbv iota.
  set (p' := withCodec p (Some c')).
  assert (Hready : codecReady p')
    by (apply (withCodec_ready p); auto).
  pose proof (length_resampleFromLyra undef samples) as Hr.
  rewrite Hs in Hr. specialize (Hr ltac:(lia)).
  set (resampled := Codec.resampleFromLyra undef samples Config.SAMPLE_RATE) in *.
  unfold finishOutput.
  pose proof (processOutput_frame NS undef p' resampled) as Ho. cbv zeta in Ho.
  replace (initialized_ p') with true in Ho by (symmetry; apply Hready).
  destruct (processOutput undef p' resampled) as [[ok out]|]; [|lia].
  destruct Ho as (Hok & Hlen & _).
  destruct (Z.ltb_spec 0 (Z.of_nat (length resampled))); [|lia].
  destruct (Z.leb_spec (Z.of_nat (length resampled)) 1024); [|lia].
  cbn in Hok. subst ok.
  exists out, p'. split; [reflexivity|]. split; [lia|exact Hready].
Qed.

(** A preprocessor without a codec object emits and decodes nothing. *)
Lemma session_without_codec (ops : list op) (p : AudioPreprocessor NS) :
  codec_ p = None -> fst (session host undef p ops) = [].
Proof.
  revert p. induction ops as [|o ops IH]; intros p Hc; [reflexivity|].
  destruct o as [now a|packet|config]; cbn [session].
  - unfold encode. rewrite Hc. specialize (IH p Hc).
    destruct (session host undef p ops) as [ps p'']. exact IH.
  - unfold decode. rewrite Hc. apply IH, Hc.
  - apply IH. unfold updateConfig.
    destruct (negb (validateConfig config)); [exact Hc|].
    cbn. now rewrite Hc.
Qed.

Lemma initialize_without_codec (config : PreprocessingConfig) :
  enableCodec config = false ->
  codec_ (snd (initialize (new NS) config)) = None.
Proof.
  intros Hen. unfold initialize. cbn [initialized_ new].
  destruct (negb (validateConfig config)); [reflexivity|].
  match goal with
  | |- context [initializeComponents ?q] =>
      destruct (initializeComponents q) as [ok p2] eqn:E
  end.
  assert (Hs : codec_ (shutdownComponents p2) = None) by reflexivity.
  destruct ok; [|exact Hs].
  unfold initializeComponents in E. cbn [config_] in E. rewrite Hen in E.
  destruct (enableNoiseSupression config);
    [destruct (ns_initialize NS (ns_new NS)) as [okn n]; destruct okn|];
    cbn in E; try discriminate E;
    destruct (enableBitrateAdaptation config); cbn in E;
    injection E as <-; reflexivity.
Qed.

Lemma initialize_ready (config : PreprocessingConfig) (p : AudioPreprocessor NS) :
  initialize (new NS) config = (true, p) -> enableCodec config = true ->
  codecReady p.
Proof.
  intros E Hen. unfold initialize in E. cbn [initialized_ new] in E.
  destruct (validateConfig config) eqn:Hv; [|discriminate E].
  cbn [negb] in E.
  assert (Hbr : Codec.isValidBitrate (targetBitrate config) = true).
  { unfold validateConfig in Hv.
    destruct (F32.ltb (noiseSuppressionLevel config) (F32.of_Z 0)
              || F32.gtb (noiseSuppressionLevel config) (F32.of_Z 1));
      [discriminate|].
    destruct (F32.ltb (vadThreshold config) (F32.of_Z 0)
              || F32.gtb (vadThreshold config) (F32.of_Z 1)); [discriminate|].
    destruct (F32.ltb (agcTargetLevel config) (F32.lit 1 10)
              || F32.gtb (agcTargetLevel config) (F32.of_Z 2)); [discriminate|].
    unfold Codec.isValidBitrate.
    destruct (Z.ltb_spec (targetBitrate config) Config.LYRA_MIN_BITRATE);
      [discriminate|].
    destruct (Z.ltb_spec Config.LYRA_MAX_BITRATE (targetBitrate config));
      [discriminate|].
    apply andb_true_iff. split; apply Z.leb_le; assumption. }
  match type of E with
  | context [initializeComponents ?q] =>
      destruct (initializeComponents q) as [ok p2] eqn:E2
  end.
  destruct ok; [|discriminate E]. injection E as <-.
  unfold initializeComponents in E2. cbn [config_] in E2. rewrite Hen in E2.
  unfold Codec.initialize, Codec.validateParameters in E2.
  cbn [Codec.initialized_ Codec.new] in E2. rewrite Hbr in E2.
  change (Config.CHANNELS =? 1) with true in E2.
  change (Config.LYRA_SAMPLE_RATE =? 16000) with true in E2.
  cbn [negb andb] in E2.
  destruct (enableNoiseSupression config);
    [destruct (ns_initialize NS (ns_new NS)) as [okn n]; destruct okn|];
    cbn in E2; try discriminate E2;
    destruct (enableBitrateAdaptation config); cbn in E2;
    injection E2 as <-;
    (split; [reflexivity|]; split; [exact Hen|];
     eexists; split; [reflexivity|]; cbn; auto).
Qed.

End PreprocCodecFacts.

(** X18. A preprocessor initialized with the codec switched off has no
    codec object, and stays without one: whatever frames, packets and
    configurations follow, even a configuration that switches the codec on,
    no [encode] emits a packet. *)
Theorem codecless_session_is_silent (NS : NoiseSuppresorModel)
    (host : Machine.byte_order) (undef : F32.float -> Z)
    (config : Preproc.PreprocessingConfig) (ops : list Preproc.op) :
  Preproc.enableCodec config = false ->
  fst (Preproc.session host undef
         (snd (Preproc.initialize (Preproc.new NS) config)) ops) = [].
Proof.
  intros Hen. apply session_without_codec. now apply initialize_without_codec.
Qed.

Lemma codecless_session_is_silent_witness :
  fst (Preproc.session Machine.LittleEndian unspecified
         (snd (Preproc.initialize (Preproc.new fallbackSuppressor) rawConfig))
         [Preproc.Encode 0 (constantFrame 5);
          Preproc.UpdateConfig Preproc.defaultConfig;
          Preproc.Encode 1 (constantFrame 5)]) = [].
Proof.
  exact (codecless_session_is_silent fallbackSuppressor Machine.LittleEndian
           unspecified
           rawConfig
           [Preproc.Encode 0 (constantFrame 5);
            Preproc.UpdateConfig Preproc.defaultConfig;
            Preproc.Encode 1 (constantFrame 5)]
           eq_refl).
Defined.

(** X19. With the codec enabled [encode] accepts one frame length only.
    On a preprocessor initialized with the codec on, a frame of 1025 to 4096
    samples overruns the scratch buffer; a frame of 960, 961 or 962 samples
    (20 ms at 48 kHz, which the conversion to 16 kHz turns into the 320
    samples the codec expects) yields a packet, which carries 640 bytes;
    every other frame is refused, in bounds and without a packet. *)
Theorem encode_accepts_20ms_frames (NS : NoiseSuppresorModel)
    (host : Machine.byte_order) (undef : F32.float -> Z)
    (config : Preproc.PreprocessingConfig) (p : Preproc.AudioPreprocessor NS)
    (now : Z) (a : list Z) :
  Preproc.initialize (Preproc.new NS) config = (true, p) ->
  Preproc.enableCodec config = true ->
  let n := Z.of_nat (length a) in
  if (1024 <? n) && (n <=? 4096) then
    Preproc.encode host undef p now a = Preproc.Overrun
  else if (960 <=? n) && (n <=? 962) then
    exists pkt p',
      Preproc.encode host undef p now a = Preproc.InBounds (Some pkt, p')
      /\ length (Codec.data pkt) = 640%nat
  else
    exists p', Preproc.encode host undef p now a = Preproc.InBounds (None, p').
Proof.
  intros Hinit Hen n.
  pose proof (initialize_ready NS config p Hinit Hen) as Hready.
  pose proof (encode_ready NS host undef p now a Hready) as H.
  pose proof (encode_overrun NS host undef p now a Hready) as Hover.
  cbv zeta in H. fold n in H, Hover.
  destruct (Z.ltb_spec 1024 n) as [H1|H1]; cbn [andb].
  - destruct (Z.leb_spec n 4096) as [H2|H2].
    + apply Hover. lia.
    + destruct (Z.leb_spec 960 n) as [_|H3]; [|lia]. cbn [andb].
      destruct (Z.leb_spec n 962) as [H4|_]; [lia|].
      destruct (Preproc.encode host undef p now a) as [[[pkt|] p']|].
      * lia.
      * exists p'. reflexivity.
      * lia.
  - destruct (Preproc.encode host undef p now a) as [[[pkt|] p']|].
    + destruct H as (H2 & H3 & _).
      destruct (Z.leb_spec 960 n) as [_|H4]; [|lia]. cbn [andb].
      destruct (Z.leb_spec n 962) as [_|H5]; [|lia].
      exists pkt, p'. split; [reflexivity|exact H3].
    + destruct H as (H2 & _).
      destruct (Z.leb_spec 960 n) as [H4|H4]; cbn [andb];
        [destruct (Z.leb_spec n 962) as [H5|H5]; [lia|]|];
        exists p'; reflexivity.
    + lia.
Qed.

Lemma encode_accepts_20ms_frames_witness :
  (exists pkt p',
      Preproc.encode Machine.LittleEndian unspecified codecPreprocessor 0
        (constantFrame 1000 ++ [1; 2])
      = Preproc.InBounds (Some pkt, p')
      /\ length (Codec.data pkt) = 640%nat)
  /\ Preproc.encode Machine.LittleEndian unspecified codecPreprocessor 0
       (repeat 1000 1025)
     = Preproc.Overrun
  /\ (exists p',
        Preproc.encode Machine.LittleEndian unspecified codecPreprocessor 0
          (repeat 1000 1024)
        = Preproc.InBounds (None, p')).
Proof.
  split; [|split].
  - apply (encode_accepts_20ms_frames idleSuppressor Machine.LittleEndian
             unspecified Preproc.defaultConfig codecPreprocessor 0
             (constantFrame 1000 ++ [1; 2])); reflexivity.
  - apply (encode_accepts_20ms_frames idleSuppressor Machine.LittleEndian
             unspecified Preproc.defaultConfig codecPreprocessor 0
             (repeat 1000 1025)); reflexivity.
  - apply (encode_accepts_20ms_frames idleSuppressor Machine.LittleEndian
             unspecified Preproc.defaultConfig codecPreprocessor 0
             (repeat 1000 1024)); reflexivity.
Defined.

(** X20. With the codec enabled [decode] triples the sample count.  On a
    preprocessor initialized with the codec on, a packet whose payload has
    [2 m] bytes, [1 <= m <= 341], decodes to [3 m] samples: the payload read
    as [m] samples at 16 kHz and converted to 48 kHz. *)
Theorem decode_triples_sample_count (NS : NoiseSuppresorModel)
    (host : Machine.byte_order) (undef : F32.float -> Z)
    (config : Preproc.PreprocessingConfig) (p : Preproc.AudioPreprocessor NS)
    (pkt : Codec.EncodedPacket) (m : nat) :
  Preproc.initialize (Preproc.new NS) config = (true, p) ->
  Preproc.enableCodec config = true ->
  length (Codec.data pkt) = (2 * m)%nat ->
  (1 <= m <= 341)%nat ->
  exists out p',
    Preproc.decode host undef p pkt = Preproc.InBounds (Some out, p')
    /\ length out = (3 * m)%nat.
Proof.
  intros Hinit Hen Hl Hm.
  destruct (decode_ready NS host undef p pkt m
              (initialize_ready NS config p Hinit Hen) Hl Hm)
    as (out & p' & E & L & _).
  eauto.
Qed.

Lemma decode_triples_sample_count_witness :
  exists out p',
    Preproc.decode Machine.LittleEndian unspecified codecPreprocessor
      (Codec.mkEncodedPacket [x01; x00; x02; x00] 0 6000 0)
    = Preproc.InBounds (Some out, p')
    /\ length out = (3 * 2)%nat.
Proof.
  apply (decode_triples_sample_count idleSuppressor Machine.LittleEndian unspecified
           Preproc.defaultConfig codecPreprocessor
           (Codec.mkEncodedPacket [x01; x00; x02; x00] 0 6000 0) 2).
  - reflexivity.
  - reflexivity.
  - reflexivity.
  - lia.
Defined.

(** X21. With the codec enabled a 20 ms frame survives the round trip in
    length: [decode] applied to the packet that [encode] returns for a frame
    of 960 to 962 samples gives 960 samples. *)
Theorem codec_round_trip_keeps_20ms (NS : NoiseSuppresorModel)
    (host : Machine.byte_order) (undef : F32.float -> Z)
    (config : Preproc.PreprocessingConfig) (p : Preproc.AudioPreprocessor NS)
    (now : Z) (a : list Z) :
  Preproc.initialize (Preproc.new NS) config = (true, p) ->
  Preproc.enableCodec config = true ->
  960 <= Z.of_nat (length a) <= 962 ->
  exists out,
    Preproc.decodeOfEncode host undef p now a = Preproc.InBounds (Some out)
    /\ length out = 960%nat.
Proof.
  intros Hinit Hen Hn.
  pose proof (encode_ready NS host undef p now a
                (initialize_ready NS config p Hinit Hen)) as H.
  cbv zeta in H. unfold Preproc.decodeOfEncode.
  destruct (Preproc.encode host undef p now a) as [[[pkt|] p']|]; [| |lia].
  - destruct H as (_ & Hl & Hready).
    destruct (decode_ready NS host undef p' pkt 320 Hready Hl ltac:(lia))
      as (out & p'' & E & L & _).
    rewrite E. exists out. split; [reflexivity|exact L].
  - destruct H as (H & _). lia.
Qed.

Lemma codec_round_trip_keeps_20ms_witness :
  exists out,
    Preproc.decodeOfEncode Machine.LittleEndian unspecified codecPreprocessor 0
      (constantFrame 1000)
    = Preproc.InBounds (Some out)
    /\ length out = 960%nat.
Proof.
  apply (codec_round_trip_keeps_20ms idleSuppressor Machine.LittleEndian unspecified
           Preproc.defaultConfig codecPreprocessor 0 (constantFrame 1000)).
  - reflexivity.
  - reflexivity.
  - vm_compute. split; discriminate.
Defined.

Section GainFacts.
Import Machine Preproc PreprocRuns.
Variable NS : NoiseSuppresorModel.
Variable host : byte_order.
Variable undef : F32.float -> Z.

Lemma updateGainControl_bounded (p : AudioPreprocessor NS) (a : list F32.float) :
  gainBounded p -> gainBounded (updateGainControl p a).
Proof.
  intros (Hg & Hmax & Hlen & Hall). unfold updateGainControl.
  destruct (F32.gtb (calculateRMS a) (F32.of_Z 0)); [|repeat split; assumption].
  match goal with
  | |- context [F32.max (F32.lit 1 10) (F32.min (F32.of_Z 2) ?s)] =>
      set (gain := F32.max (F32.lit 1 10) (F32.min (F32.of_Z 2) s))
  end.
  assert (Hgain : gainWithin gain = true)
    by (unfold gainWithin, gain; apply clamp_within; reflexivity).
  assert (Hall' : Forall (fun g => gainWithin g = true) (gainHistory_ p ++ [gain])).
  { apply Forall_app. split; [exact Hall|constructor; [exact Hgain|constructor]]. }
  unfold gainBounded. cbn [currentGain_ maxGainHistorySize_ gainHistory_].
  rewrite Hmax, length_app. cbn [length].
  split; [exact Hgain|]. split; [reflexivity|].
  destruct (Z.ltb_spec 50 (Z.of_nat (length (gainHistory_ p) + 1))) as [L|L].
  - destruct (gainHistory_ p) as [|g h]; [simpl in L; lia|].
    cbn [app tl] in *. inversion Hall'; subst.
    split; [rewrite length_app; cbn [length] in *; lia|assumption].
  - split; [rewrite length_app; cbn [length]; lia|assumption].
Qed.

Lemma notifySpeech_bounded (p : AudioPreprocessor NS) (b : bool) :
  gainBounded p -> gainBounded (notifySpeech p b).
Proof. unfold notifySpeech. destruct (onSpeechDetected_ p); auto. Qed.

Lemma processAudioChain_bounded (p : AudioPreprocessor NS) (a : list F32.float)
    (isInput : bool) :
  gainBounded p -> gainBounded (snd (fst (processAudioChain p a isInput))).
Proof.
  intros Hp. unfold processAudioChain.
  destruct a as [|x a]; [exact Hp|].
  destruct isInput; [|exact Hp].
  set (a0 := x :: a).
  assert (H1 : exists p1 a1,
             (if enableAGC (config_ p) then applyAGC p a0 else (p, a0)) = (p1, a1)
             /\ gainBounded p1).
  { destruct (enableAGC (config_ p)).
    - unfold applyAGC, a0. eexists. eexists. split; [reflexivity|].
      now apply updateGainControl_bounded.
    - eexists. eexists. split; [reflexivity|exact Hp]. }
  destruct H1 as (p1 & a1 & E1 & B1). rewrite E1.
  assert (H2 : exists p2 a2 s2,
             match noiseSuppresor_ p1 with
             | Some n =>
                 if enableNoiseSupression (config_ p1)
                    && (Config.RNNOISE_FRAME_SIZE <=? Z.of_nat (length a1))
                 then
                   let '(n', frame) :=
                     ns_process NS n
                       (firstn (Z.to_nat Config.RNNOISE_FRAME_SIZE) a1) in
                   (withSuppressor p1 (Some n'), overwrite frame a1,
                    ns_isSpeechDetected NS n')
                 else (p1, a1, false)
             | None => (p1, a1, false)
             end = (p2, a2, s2)
             /\ gainBounded p2).
  { destruct (noiseSuppresor_ p1) as [n|];
      [|exists p1, a1, false; split; [reflexivity|exact B1]].
    destruct (enableNoiseSupression (config_ p1)
              && (Config.RNNOISE_FRAME_SIZE <=? Z.of_nat (length a1)));
      [|exists p1, a1, false; split; [reflexivity|exact B1]].
    destruct (ns_process NS n (firstn (Z.to_nat Config.RNNOISE_FRAME_SIZE) a1))
      as [n' frame].
    do 3 eexists. split; [reflexivity|exact B1]. }
  destruct H2 as (p2 & a2 & s2 & E2 & B2). rewrite E2.
  destruct (enableVAD (config_ p2)); cbn [fst snd];
    now apply notifySpeech_bounded.
Qed.

Lemma processInput_bounded (p : AudioPreprocessor NS) (a : list Z) :
  gainBounded p ->
  match processInput undef p a with
  | InBounds (_, p', _) => gainBounded p'
  | Overrun => True
  end.
Proof.
  intros Hp. unfold processInput.
  destruct (negb (initialized_ p)); [exact Hp|].
  destruct (negb (validateSampleCount (Z.of_nat (length a)))); [exact Hp|].
  destruct (Config.FRAMES_PER_BUFFER <? Z.of_nat (length a)); [exact I|].
  pose proof (processAudioChain_bounded p (int16ToFloat a) true Hp) as H.
  destruct (processAudioChain p (int16ToFloat a) true) as [[ok p'] a'].
  cbn [fst snd] in H. destruct ok; exact H.
Qed.

Lemma encode_bounded (p : AudioPreprocessor NS) (now : Z) (a : list Z) :
  gainBounded p ->
  match encode host undef p now a with
  | InBounds (_, p') => gainBounded p'
  | Overrun => True
  end.
Proof.
  intros Hp. unfold encode.
  destruct (codec_ p) as [c|]; [|exact Hp].
  destruct (negb (initialized_ p)); [exact Hp|].
  destruct (negb (enableCodec (config_ p))); [exact Hp|].
  pose proof (processInput_bounded p a Hp) as H.
  destruct (processInput undef p a) as [[[ok p'] processed]|]; [|exact I].
  destruct ok; [|exact H].
  match goal with
  | |- context [Codec.encode host c now ?f] =>
      destruct (Codec.encode host c now f) as [r c']
  end.
  exact H.
Qed.

Lemma decode_bounded (p : AudioPreprocessor NS) (packet : Codec.EncodedPacket) :
  gainBounded p ->
  match decode host undef p packet with
  | InBounds (_, p') => gainBounded p'
  | Overrun => True
  end.
Proof.
  intros Hp. unfold decode.
  destruct (codec_ p) as [c|]; [|exact Hp].
  destruct (negb (initialized_ p)); [exact Hp|].
  destruct (negb (enableCodec (config_ p))).
  - destruct (negb (Z.of_nat (length (Codec.data packet)) mod 2 =? 0)); [exact Hp|].
    match goal with
    | |- context [finishOutput undef p ?s] =>
        pose proof (finishOutput_state NS undef p s) as H;
        destruct (finishOutput undef p s) as [[r p']|]; [|exact I]
    end.
    now subst p'.
  - destruct (Codec.decodePacket host c packet) as [decoded c'].
    assert (Hp' : gainBounded (withCodec p (Some c'))) by exact Hp.
    destruct decoded as [samples|]; [|exact Hp'].
    destruct (negb (Config.SAMPLE_RATE =? Config.LYRA_SAMPLE_RATE));
      match goal with
      | |- context [finishOutput undef ?q ?s] =>
          pose proof (finishOutput_state NS undef q s) as H;
          destruct (finishOutput undef q s) as [[r p']|]; [|exact I]
      end;
      now subst p'.
Qed.

Lemma updateConfig_bounded (p : AudioPreprocessor NS) (config : PreprocessingConfig) :
  gainBounded p -> gainBounded (updateConfig p config).
Proof.
  intros Hp. unfold updateConfig.
  destruct (negb (validateConfig config)); exact Hp.
Qed.

Lemma session_bounded (ops : list op) (p : AudioPreprocessor NS) :
  gainBounded p -> gainBounded (snd (session host undef p ops)).
Proof.
  revert p. induction ops as [|o ops IH]; intros p Hp; [exact Hp|].
  destruct o as [now a|packet|config]; cbn [session].
  - pose proof (encode_bounded p now a Hp) as H.
    destruct (encode host undef p now a) as [[r p']|]; [|exact Hp].
    specialize (IH p' H).
    destruct (session host undef p' ops) as [ps p'']. exact IH.
  - pose proof (decode_bounded p packet Hp) as H.
    destruct (decode host undef p packet) as [[r p']|]; [|exact Hp].
    apply IH, H.
  - apply IH, updateConfig_bounded, Hp.
Qed.

Lemma initialize_bounded (config : PreprocessingConfig) :
  gainBounded (snd (initialize (new NS) config)).
Proof.
  assert (Hnew : gainBounded (new NS)).
  { unfold gainBounded. cbn. repeat split; [lia|constructor]. }
  unfold initialize. cbn [initialized_ new].
  destruct (negb (validateConfig config)); [exact Hnew|].
  match goal with
  | |- context [initializeComponents ?q] =>
      assert (Hq : gainBounded q)
        by (unfold gainBounded; cbn; repeat split; [lia|constructor]);
      assert (Hc : gainBounded (snd (initializeComponents q)));
      [|destruct (initializeComponents q) as [ok p2]; destruct ok; exact Hc]
  end.
  unfold initializeComponents. cbn [config_].
  destruct (enableNoiseSupression config);
    [destruct (ns_initialize NS (ns_new NS)) as [okn n]; destruct okn|];
    try exact Hq;
    (destruct (enableCodec config);
     [destruct (Codec.initialize Codec.new Config.LYRA_SAMPLE_RATE Config.CHANNELS
                  (targetBitrate config)) as [okc c]; destruct okc|];
     try exact Hq;
     (destruct (enableBitrateAdaptation config);
      [destruct (Bitrate.initialize Bitrate.new (targetBitrate config))
         as [okb b]; destruct okb|];
      exact Hq)).
Qed.

Lemma applyAGC_unit (p : AudioPreprocessor NS) (a : list F32.float) :
  a <> [] -> Forall (fun x => unitSample x = true) (snd (applyAGC p a)).
Proof.
  intros Ha. unfold applyAGC. destruct a as [|x a]; [contradiction|].
  cbn [snd]. apply Forall_forall. intros y Hy. apply in_map_iff in Hy.
  destruct Hy as (z & <- & _). unfold unitSample. apply clamp_within; reflexivity.
Qed.

End GainFacts.

(** X22. The automatic gain stays within [0.1, 2].  From initialization
    on, whatever frames, packets and configurations a session brings and
    whatever the suppressor does, the current gain lies within [0.1, 2] and
    the gain history holds at most fifty gains, each within [0.1, 2]. *)
Theorem gain_stays_bounded (NS : NoiseSuppresorModel) (host : Machine.byte_order)
    (undef : F32.float -> Z) (config : Preproc.PreprocessingConfig)
    (ops : list Preproc.op) :
  let p := snd (Preproc.session host undef
                  (snd (Preproc.initialize (Preproc.new NS) config)) ops) in
  PreprocRuns.gainWithin (Preproc.currentGain_ p) = true
  /\ (length (Preproc.gainHistory_ p) <= 50)%nat
  /\ Forall (fun g => PreprocRuns.gainWithin g = true) (Preproc.gainHistory_ p).
Proof.
  destruct (session_bounded NS host undef ops _ (initialize_bounded NS config))
    as (Hg & _ & Hl & Ha).
  cbv zeta. auto.
Qed.

(** X23. The automatic gain control never lets a sample leave [-1, 1]:
    every sample [applyAGC] returns for a frame that is not empty lies
    within [-1, 1], a NaN or an infinite input included, and the frame keeps
    its length. *)
Theorem agc_output_within_unit (NS : NoiseSuppresorModel)
    (p : Preproc.AudioPreprocessor NS) (x : F32.float) (a : list F32.float) :
  Forall (fun y => PreprocRuns.unitSample y = true) (snd (Preproc.applyAGC p (x :: a)))
  /\ length (snd (Preproc.applyAGC p (x :: a))) = length (x :: a).
Proof.
  split; [apply applyAGC_unit; discriminate|apply length_applyAGC].
Qed.

Section PlaybackFacts.
Import Machine Buffer Player PcmRuns.
Variable host : byte_order.
Variable undef : F32.float -> Z.

Lemma playbackTurn_packet (p : AudioPlayer) (bm : BufferManager)
    (pkt : AudioPacket) (rest : queue) :
  bufferManager_ p = Some bm -> outputBuffer_ bm = pkt :: rest ->
  exists bm',
    playbackTurn host undef p
    = (played host undef p pkt, setBufferManager p bm')
    /\ outputBuffer_ bm' = rest.
Proof.
  intros Hbm Hq. unfold playbackTurn, getNextAudioData, getNextPlaybackPacket.
  rewrite Hbm, Hq.
  exists (mkBufferManager (inputBuffer_ bm) rest (maxBufferSize_ bm)
            (nextSequenceNumber_ bm) (droppedPackets_ bm) (totalPackets_ bm)).
  split; [|reflexivity].
  unfold played. destruct (data pkt); reflexivity.
Qed.

Lemma playbackTurn_starved (p : AudioPlayer) (bm : BufferManager) :
  bufferManager_ p = Some bm -> outputBuffer_ bm = [] ->
  playbackTurn host undef p
  = (silenceBuffer_, setBufferManager p bm).
Proof.
  intros Hbm Hq. unfold playbackTurn, getNextAudioData, getNextPlaybackPacket.
  now rewrite Hbm, Hq.
Qed.

Lemma playbackLoop_starved (k : nat) (p : AudioPlayer) (bm : BufferManager) :
  bufferManager_ p = Some bm -> outputBuffer_ bm = [] ->
  playbackLoop host undef k p = repeat silenceBuffer_ k.
Proof.
  revert p. induction k as [|k IH]; intros p Hbm Hq; [reflexivity|].
  cbn [playbackLoop repeat]. rewrite (playbackTurn_starved p bm Hbm Hq).
  f_equal. now apply IH.
Qed.

Lemma playbackLoop_queue (q : queue) (k : nat) (p : AudioPlayer) (bm : BufferManager) :
  bufferManager_ p = Some bm -> outputBuffer_ bm = q ->
  playbackLoop host undef (length q + k) p
  = map (played host undef p) q ++ repeat silenceBuffer_ k.
Proof.
  revert p bm. induction q as [|pkt rest IH]; intros p bm Hbm Hq.
  - now apply (playbackLoop_starved k p bm).
  - cbn [length Nat.add playbackLoop map app].
    destruct (playbackTurn_packet p bm pkt rest Hbm Hq) as (bm' & -> & Hq').
    f_equal.
    rewrite (IH (setBufferManager p bm') bm' eq_refl Hq').
    reflexivity.
Qed.

Lemma allZero_repeat (n : nat) : allZero (repeat x00 n) = true.
Proof. induction n as [|n IH]; [reflexivity|exact IH]. Qed.

Lemma playbackTurn_settings (p : AudioPlayer) :
  volume_ (snd (playbackTurn host undef p)) = volume_ p
  /\ isMuted_ (snd (playbackTurn host undef p)) = isMuted_ p.
Proof.
  unfold playbackTurn, getNextAudioData.
  destruct (bufferManager_ p) as [bm|]; [|auto].
  destruct (getNextPlaybackPacket bm) as [[pkt|] bm']; [|auto].
  destruct (data pkt); auto.
Qed.

Lemma playbackTurn_muted (p : AudioPlayer) :
  isMuted_ p = true -> allZero (fst (playbackTurn host undef p)) = true.
Proof.
  intros Hm.
  assert (Hs : allZero silenceBuffer_ = true) by apply allZero_repeat.
  unfold playbackTurn, getNextAudioData.
  destruct (bufferManager_ p) as [bm|]; [|exact Hs].
  destruct (getNextPlaybackPacket bm) as [[pkt|] bm']; [|exact Hs].
  destruct (data pkt) as [|b0 bytes]; [exact Hs|].
  cbn [fst]. unfold processAudioData, setBufferManager. cbn [isMuted_].
  rewrite Hm. cbn [negb andb].
  destruct (firstn (Z.to_nat bufferSize) (b0 :: bytes)); [reflexivity|].
  apply allZero_repeat.
Qed.

Lemma playbackLoop_muted (n : nat) (p : AudioPlayer) :
  isMuted_ p = true ->
  forallb allZero (playbackLoop host undef n p) = true.
Proof.
  revert p. induction n as [|n IH]; intros p Hm; [reflexivity|].
  cbn [playbackLoop].
  pose proof (playbackTurn_muted p Hm) as Hz.
  destruct (playbackTurn_settings p) as (_ & Hm').
  destruct (playbackTurn host undef p) as [bytes p']. cbn [fst snd] in *.
  cbn [forallb]. rewrite Hz, IH; [reflexivity|]. now rewrite Hm'.
Qed.

End PlaybackFacts.

(** X25. A muted player is silent: whatever is queued, with or without a
    buffer manager, every block the playback loop hands to the device
    consists of zero bytes only. *)
Theorem muted_player_is_silent (host : Machine.byte_order) (undef : F32.float -> Z)
    (p : Player.AudioPlayer) (n : nat) :
  Player.isMuted_ p = true ->
  forallb PcmRuns.allZero (Player.playbackLoop host undef n p) = true.
Proof. apply playbackLoop_muted. Qed.

Lemma muted_player_is_silent_witness :
  forallb PcmRuns.allZero
    (Player.playbackLoop Machine.LittleEndian unspecified 3
       (Player.setMuted
          (Player.setBufferManager Player.new
             (BufferRuns.pushAllNetwork Buffer.new
                [Buffer.newAudioPacket [x01; x02] 0]))
          true))
  = true.
Proof.
  exact (muted_player_is_silent Machine.LittleEndian unspecified
           (Player.setMuted
              (Player.setBufferManager Player.new
                 (BufferRuns.pushAllNetwork Buffer.new
                    [Buffer.newAudioPacket [x01; x02] 0]))
              true)
           3 eq_refl).
Defined.

Section ScaleFacts.
Import Machine Pcm PcmRuns.
Variable undef : F32.float -> Z.

Lemma scaleSample_trunc (factor : F32.float) (s v : Z) :
  F32.trunc
    (F32.max (F32.of_Z (- 32768))
       (F32.min (F32.of_Z 32767) (F32.mul (F32.of_Z s) factor))) = Some v ->
  - 32768 <= v <= 32767 ->
  scaleSample undef factor s = v.
Proof.
  intros Ht Hv. unfold scaleSample, F32.to_int16.
  now apply to_int_trunc.
Qed.

(** Check a scaling factor on every 16-bit sample. *)
Lemma scaleSample_checked (factor : F32.float) (expected : Z -> Z) (s : Z) :
  forall_bits 16
    (fun u =>
       match
         F32.trunc
           (F32.max (F32.of_Z (- 32768))
              (F32.min (F32.of_Z 32767)
                 (F32.mul (F32.of_Z (u - 32768)) factor)))
       with
       | Some v => (v =? expected (u - 32768)) && (- 32768 <=? v) && (v <=? 32767)
       | None => false
       end) = true ->
  is_int16 s -> scaleSample undef factor s = expected s.
Proof.
  intros H Hs.
  pose proof (every_sample
                (fun x =>
                   match
                     F32.trunc
                       (F32.max (F32.of_Z (- 32768))
                          (F32.min (F32.of_Z 32767) (F32.mul (F32.of_Z x) factor)))
                   with
                   | Some v => (v =? expected x) && (- 32768 <=? v) && (v <=? 32767)
                   | None => false
                   end) s H Hs) as Hc.
  cbv beta in Hc.
  destruct (F32.trunc _) as [v|] eqn:Ht; [|discriminate Hc].
  apply andb_true_iff in Hc. destruct Hc as (Hc & Hhi).
  apply andb_true_iff in Hc. destruct Hc as (Heq & Hlo).
  apply Z.eqb_eq in Heq. apply Z.leb_le in Hlo. apply Z.leb_le in Hhi.
  rewrite <- Heq. apply scaleSample_trunc; [exact Ht|lia].
Qed.

Lemma scaleSample_double (s : Z) :
  is_int16 s -> scaleSample undef (F32.of_Z 2) s = saturatingDouble s.
Proof.
  apply (scaleSample_checked (F32.of_Z 2) saturatingDouble).
  vm_compute. reflexivity.
Qed.

Lemma scaleSample_zero (s : Z) :
  is_int16 s -> scaleSample undef (F32.of_Z 0) s = 0.
Proof.
  apply (scaleSample_checked (F32.of_Z 0) (fun _ => 0)).
  vm_compute. reflexivity.
Qed.

Lemma scaleSample_half (s : Z) :
  is_int16 s -> scaleSample undef (F32.lit 1 2) s = Z.quot s 2.
Proof.
  apply (scaleSample_checked (F32.lit 1 2) (fun x => Z.quot x 2)).
  vm_compute. reflexivity.
Qed.

End ScaleFacts.

(** X26. Gain and volume saturate instead of wrapping.  [setGain] and
    [setVolume] store a factor within [0, 2] for every [float], a NaN being
    stored as 2.  At the largest factor, 2, the loop of [applyGain] and
    [applyVolume] turns a sample [s] into [2 s] held within
    [-32768, 32767]; at one half it halves the sample toward zero; at the
    smallest, 0, it gives 0. *)
Theorem scaling_saturates (undef : F32.float -> Z) (g : F32.float) (s : Z) :
  Machine.is_int16 s ->
  Pcm.scaleSample undef (F32.of_Z 2) s = PcmRuns.saturatingDouble s
  /\ Pcm.scaleSample undef (F32.lit 1 2) s = Z.quot s 2
  /\ Pcm.scaleSample undef (F32.of_Z 0) s = 0
  /\ BitrateRuns.within (F32.of_Z 0) (F32.of_Z 2) (Pcm.clampFactor g) = true
  /\ Pcm.clampFactor S754_nan = F32.of_Z 2.
Proof.
  intros Hs.
  split; [now apply scaleSample_double|].
  split; [now apply scaleSample_half|].
  split; [now apply scaleSample_zero|].
  split; [unfold Pcm.clampFactor; apply clamp_within; reflexivity|reflexivity].
Qed.

Lemma scaling_saturates_witness :
  Pcm.scaleSample unspecified (F32.of_Z 2) 20000 = PcmRuns.saturatingDouble 20000
  /\ Pcm.scaleSample unspecified (F32.lit 1 2) 20000 = Z.quot 20000 2
  /\ Pcm.scaleSample unspecified (F32.of_Z 0) 20000 = 0
  /\ BitrateRuns.within (F32.of_Z 0) (F32.of_Z 2) (Pcm.clampFactor (F32.of_Z 5)) = true
  /\ Pcm.clampFactor S754_nan = F32.of_Z 2.
Proof.
  apply (scaling_saturates unspecified (F32.of_Z 5) 20000).
  unfold Machine.is_int16. lia.
Defined.

Section CaptureFacts.
Import Machine Buffer Capture PcmRuns BufferRuns.
Variable host : byte_order.
Variable undef : F32.float -> Z.

Lemma scaleBytes_nonEmpty (factor : F32.float) (data : list byte) :
  nonEmpty (Pcm.scaleBytes host undef factor data) = nonEmpty data.
Proof.
  destruct data as [|b0 [|b1 rest]]; try reflexivity.
  cbn [Pcm.scaleBytes].
  destruct (int16_bytes_pair host
              (Pcm.scaleSample undef factor (int16_value host [b0; b1])))
    as (c0 & c1 & ->).
  reflexivity.
Qed.

Lemma processed_nonEmpty (c : AudioCapture) (block : list byte) :
  nonEmpty (processed host undef c block) = nonEmpty block.
Proof.
  unfold processed, applyGain. destruct (Pcm.neqb _ _); [|reflexivity].
  apply scaleBytes_nonEmpty.
Qed.

Lemma captureAll_state (blocks : list (list byte)) (c : AudioCapture)
    (bm : BufferManager) :
  bufferManager_ c = Some bm ->
  let c' := captureAll host undef c blocks in
  bufferManager_ c'
  = Some (pushInputAll bm (map (processed host undef c) (filter nonEmpty blocks)))
  /\ captured c'
     = (if onAudioCaptured_ c
        then captured c ++ map (processed host undef c) (filter nonEmpty blocks)
        else captured c)
  /\ gain_ c' = gain_ c.
Proof.
  revert c bm. induction blocks as [|block blocks IH]; intros c bm Hbm.
  - cbn. rewrite app_nil_r. destruct (onAudioCaptured_ c); auto.
  - unfold captureAll in *. cbn [fold_left filter].
    destruct block as [|b0 block].
    + cbn [nonEmpty processAudioData]. now apply IH.
    + cbn [nonEmpty map].
      set (c1 := processAudioData host undef c (b0 :: block)).
      assert (Hb1 : bufferManager_ c1
                    = Some (snd (pushInputBuffer bm
                                   (processed host undef c (b0 :: block)))))
        by (unfold c1, processAudioData, processed; now rewrite Hbm).
      assert (Hc1 : captured c1
                    = if onAudioCaptured_ c
                      then captured c ++ [processed host undef c (b0 :: block)]
                      else captured c)
        by reflexivity.
      assert (Hg1 : gain_ c1 = gain_ c) by reflexivity.
      assert (Ho1 : onAudioCaptured_ c1 = onAudioCaptured_ c) by reflexivity.
      assert (Hp : forall x, processed host undef c1 x = processed host undef c x)
        by (intros x; unfold processed, applyGain; now rewrite Hg1).
      destruct (IH c1 _ Hb1) as (Ib & Ic & Ig). cbv zeta in *.
      rewrite Ib, Ic, Ig, Ho1, Hc1, Hg1.
      rewrite (map_ext _ _ Hp).
      split; [|split; [|reflexivity]].
      * unfold pushInputAll. reflexivity.
      * destruct (onAudioCaptured_ c); [|reflexivity].
        now rewrite <- app_assoc.
Qed.

End CaptureFacts.

(** X27. Captured blocks reach the send queue numbered and in order.  When
    the capture object points to a buffer manager of capacity [K >= 1] that
    was just cleared, after the device has delivered any blocks the queue
    holds the last [K] of the blocks that were not empty, each as changed by
    the gain, numbered from zero in the order of capture; an installed
    callback has received the same blocks. *)
Theorem captured_blocks_are_queued (host : Machine.byte_order)
    (undef : F32.float -> Z) (c : Capture.AudioCapture) (b0 : Buffer.BufferManager)
    (blocks : list (list byte)) :
  Capture.bufferManager_ c = Some (Buffer.clearBuffers b0) ->
  1 <= Buffer.maxBufferSize_ b0 ->
  let c' := Capture.captureAll host undef c blocks in
  let sent := map (PcmRuns.processed host undef c)
                (filter BufferRuns.nonEmpty blocks) in
  (exists bm,
     Capture.bufferManager_ c' = Some bm
     /\ Buffer.inputBuffer_ bm
        = keep (Z.to_nat (Buffer.maxBufferSize_ b0)) (BufferRuns.numbered 0 sent))
  /\ Capture.captured c'
     = (if Capture.onAudioCaptured_ c then Capture.captured c ++ sent
        else Capture.captured c).
Proof.
  intros Hbm HK c' sent. subst c' sent.
  destruct (captureAll_state host undef blocks c _ Hbm) as (Eb & Ec & _).
  split; [|exact Ec].
  eexists. split; [exact Eb|].
  destruct (pushInputAll_state b0
              (map (PcmRuns.processed host undef c)
                 (filter BufferRuns.nonEmpty blocks)) HK) as (_ & Hq & _).
  cbv zeta in Hq. rewrite Hq. do 2 f_equal.
  clear. induction blocks as [|x l IH]; [reflexivity|].
  cbn [filter]. destruct (BufferRuns.nonEmpty x) eqn:E; [|exact IH].
  cbn [map filter]. rewrite processed_nonEmpty, E. now rewrite IH.
Qed.

Lemma captured_blocks_are_queued_witness :
  let c :=
    Capture.setOnAudioCaptured
      (Capture.setBufferManager (Capture.setGain Capture.new (F32.of_Z 2))
         (Buffer.clearBuffers (Buffer.setMaxBufferSize Buffer.new 2))) in
  let b0 := Buffer.setMaxBufferSize Buffer.new 2 in
  let blocks := [[x01; x00]; []; [x02; x00; x07]; [x03; x00]] in
  let c' := Capture.captureAll Machine.LittleEndian unspecified c blocks in
  let sent := map (PcmRuns.processed Machine.LittleEndian unspecified c)
                (filter BufferRuns.nonEmpty blocks) in
  (exists bm,
     Capture.bufferManager_ c' = Some bm
     /\ Buffer.inputBuffer_ bm
        = keep (Z.to_nat (Buffer.maxBufferSize_ b0)) (BufferRuns.numbered 0 sent))
  /\ Capture.captured c'
     = (if Capture.onAudioCaptured_ c then Capture.captured c ++ sent
        else Capture.captured c).
Proof.
  apply (captured_blocks_are_queued Machine.LittleEndian unspecified
           (Capture.setOnAudioCaptured
              (Capture.setBufferManager (Capture.setGain Capture.new (F32.of_Z 2))
                 (Buffer.clearBuffers (Buffer.setMaxBufferSize Buffer.new 2))))
           (Buffer.setMaxBufferSize Buffer.new 2)
           [[x01; x00]; []; [x02; x00; x07]; [x03; x00]]).
  - reflexivity.
  - simpl. lia.
Defined.

Section NoiseFacts.
Import Machine Noise NoiseRuns.

Lemma min_one_leb (x : F32.float) :
  F32.leb (F32.min (F32.of_Z 1) x) (F32.of_Z 1) = true.
Proof.
  unfold F32.min. destruct (F32.ltb x (F32.of_Z 1)) eqn:E.
  - now apply ltb_leb.
  - reflexivity.
Qed.

Lemma length_pushHistory_le (n : NoiseSuppresor) (h : list F32.float) (x : F32.float) :
  maxHistorySize_ n = 100 -> (length h <= 100)%nat ->
  (length (pushHistory n h x) <= 100)%nat.
Proof.
  intros Hmax Hl. unfold pushHistory. rewrite Hmax, length_app. cbn [length].
  destruct (Z.ltb_spec 100 (Z.of_nat (length h + 1))) as [L|L].
  - destruct h; [simpl in L; lia|]. cbn [app tl]. rewrite length_app.
    cbn [length] in *. lia.
  - rewrite length_app. cbn [length]. lia.
Qed.

Lemma length_pushHistory_eq (n : NoiseSuppresor) (h k : list F32.float)
    (x y : F32.float) :
  length h = length k ->
  length (pushHistory n h x) = length (pushHistory n k y).
Proof.
  intros E. unfold pushHistory. rewrite !length_app, E. cbn [length].
  destruct (maxHistorySize_ n <? Z.of_nat (length k + 1)).
  - destruct h, k; try discriminate E; cbn [app tl length];
      rewrite ?length_app; cbn [length]; simpl in E; lia.
  - rewrite !length_app. cbn [length]. lia.
Qed.

Lemma length_processFallback (n : NoiseSuppresor) (a : list F32.float) :
  length (snd (processFallback n a)) = length a.
Proof.
  unfold processFallback, clampAudio, applyVAD, NoiseUtils.simpleNoiseReduction.
  cbn [snd]. rewrite length_map.
  destruct (vadEnabled_ _); [destruct (F32.ltb _ _)|]; rewrite ?length_map;
    reflexivity.
Qed.

Lemma processFallback_unit (n : NoiseSuppresor) (a : list F32.float) :
  forallb PreprocRuns.unitSample (snd (processFallback n a)) = true.
Proof.
  unfold processFallback, clampAudio. cbn [snd].
  apply forallb_forall. intros y Hy. apply in_map_iff in Hy.
  destruct Hy as (z & <- & _). unfold PreprocRuns.unitSample.
  apply clamp_within; reflexivity.
Qed.

Lemma process_steady (n : NoiseSuppresor) (a : list F32.float) :
  steady n -> steady (snd (fst (process n a))).
Proof.
  intros Hn. pose proof Hn as (Hs & Ht & Hp & Hl & Hmax & He & Hle & Hc).
  unfold process.
  destruct (negb (initialized_ n)); [exact Hn|].
  unfold validateFrameSize. change Config.RNNOISE_FRAME_SIZE with 480.
  destruct (Z.eqb_spec (Z.of_nat (length a)) 480) as [E|_]; [|exact Hn].
  cbn [negb]. unfold processFallback, updateMetrics, steady.
  cbn [fst snd suppressionLevel_ threshold_ currentMetrics_ speechProbability
       noiseLevel maxHistorySize_ noiseHistory_ speechHistory_ totalSamples_
       processedFrames_].
  split; [exact Hs|]. split; [exact Ht|].
  split; [unfold unit01, calculateSpeechProbability; apply clamp_within; reflexivity|].
  split; [unfold calculateNoiseLevel; apply min_one_leb|].
  split; [exact Hmax|].
  split; [now apply length_pushHistory_eq|].
  split; [now apply length_pushHistory_le|].
  rewrite E. unfold incr64, wrap64 in *.
  change (2 ^ 64) with 18446744073709551616 in *.
  Z.to_euclidean_division_equations; lia.
Qed.

Lemma step_steady (n : NoiseSuppresor) (o : op) : steady n -> steady (step n o).
Proof.
  intros Hn. pose proof Hn as (Hs & Ht & Hp & Hl & Hmax & He & Hle & Hc).
  destruct o; cbn [step].
  - unfold initialize. destruct (initialized_ n); [exact Hn|].
    destruct (negb (validateSampleRate sampleRate)); exact Hn.
  - unfold shutdown. destruct (negb (initialized_ n)); [exact Hn|].
    unfold steady. cbn. repeat split; auto. lia.
  - now apply process_steady.
  - unfold steady. cbn. repeat split; auto.
    unfold unit01. apply clamp_within; reflexivity.
  - unfold steady. cbn. repeat split; auto.
    unfold unit01. apply clamp_within; reflexivity.
  - exact Hn.
  - exact Hn.
Qed.

Lemma run_steady (ops : list op) (n : NoiseSuppresor) :
  steady n -> steady (run n ops).
Proof.
  revert n. induction ops as [|o ops IH]; intros n Hn; [exact Hn|].
  apply IH, step_steady, Hn.
Qed.

Lemma new_steady : steady new.
Proof. unfold steady. cbn. repeat split; lia. Qed.

End NoiseFacts.

(** X28. The fallback suppressor processes frames of 480 samples only.
    [process] succeeds exactly on an initialized suppressor and a frame of
    480 samples; the frame then keeps its length, every sample it returns
    lies within [-1, 1], and the speech probability it reports lies within
    [0, 1].  Otherwise the frame and the suppressor are left as they were. *)
Theorem fallback_process_frame (n : Noise.NoiseSuppresor) (a : list F32.float) :
  let ok := fst (fst (Noise.process n a)) in
  let n' := snd (fst (Noise.process n a)) in
  let out := snd (Noise.process n a) in
  ok = Noise.initialized_ n && (Z.of_nat (length a) =? 480)
  /\ length out = length a
  /\ (if ok
      then forallb PreprocRuns.unitSample out = true
           /\ NoiseRuns.unit01 (Noise.getCurrentSpeechProbability n') = true
      else out = a /\ n' = n).
Proof.
  cbv zeta. unfold Noise.process, Noise.validateFrameSize.
  change Config.RNNOISE_FRAME_SIZE with 480.
  destruct (Noise.initialized_ n); cbn [negb andb fst snd];
    [|repeat split; reflexivity].
  destruct (Z.of_nat (length a) =? 480); cbn [negb fst snd];
    [|repeat split; reflexivity].
  pose proof (length_processFallback n a) as HL.
  pose proof (processFallback_unit n a) as HU.
  destruct (Noise.processFallback n a) as [n1 out] eqn:E.
  cbn [fst snd] in *.
  split; [reflexivity|]. split; [exact HL|]. split; [exact HU|].
  unfold Noise.processFallback in E. injection E as <- _.
  unfold Noise.getCurrentSpeechProbability, NoiseRuns.unit01. cbn.
  unfold Noise.calculateSpeechProbability. apply clamp_within; reflexivity.
Qed.

(** X29. What a suppressor keeps.  After any sequence of calls on a newly
    constructed suppressor the suppression level, the threshold and the
    reported speech probability lie within [0, 1], the reported noise level
    is at most 1, the two histories have the same length and at most a
    hundred entries, and the sample counter is 480 times the frame counter,
    modulo [2^64]. *)
Theorem suppressor_stays_steady (ops : list Noise.op) :
  let n := Noise.run Noise.new ops in
  NoiseRuns.unit01 (Noise.suppressionLevel_ n) = true
  /\ NoiseRuns.unit01 (Noise.threshold_ n) = true
  /\ NoiseRuns.unit01 (Noise.getCurrentSpeechProbability n) = true
  /\ F32.leb (Noise.noiseLevel (Noise.currentMetrics_ n)) (F32.of_Z 1) = true
  /\ length (Noise.noiseHistory_ n) = length (Noise.speechHistory_ n)
  /\ (length (Noise.noiseHistory_ n) <= 100)%nat
  /\ Noise.totalSamples_ n mod 2 ^ 64 = (480 * Noise.processedFrames_ n) mod 2 ^ 64.
Proof.
  destruct (run_steady ops Noise.new new_steady)
    as (Hs & Ht & Hp & Hl & _ & He & Hle & Hc).
  cbv zeta. repeat split; assumption.
Qed.

Section ReceiveToPlay.
Import Machine Buffer Udp UdpRuns BufferRuns.
Variable host : byte_order.
Variable undef : F32.float -> Z.

Lemma pushNetworkPacket_capacity (b : BufferManager) (p : option AudioPacket) :
  maxBufferSize_ (snd (pushNetworkPacket b p)) = maxBufferSize_ b.
Proof. destruct p; reflexivity. Qed.

Lemma pushAllNetwork_room (ps : list AudioPacket) (b : BufferManager) :
  outputBuffer_ b = [] ->
  Z.of_nat (length ps) <= maxBufferSize_ b ->
  maxBufferSize_ (pushAllNetwork b ps) = maxBufferSize_ b
  /\ outputBuffer_ (pushAllNetwork b ps) = ps.
Proof.
  intros Hq. induction ps as [|p ps IH] using rev_ind; intros Hlen.
  - split; [reflexivity|exact Hq].
  - rewrite length_app in Hlen. cbn [length] in Hlen.
    destruct IH as (Hmax & Hout); [lia|].
    rewrite pushAllNetwork_snoc.
    split; [now rewrite pushNetworkPacket_capacity|].
    unfold pushNetworkPacket, isBufferFull. rewrite Hmax, Hout.
    destruct (Z.leb_spec (maxBufferSize_ b) (Z.of_nat (length ps))) as [L|_]; [lia|].
    reflexivity.
Qed.

Lemma taken_datagrams (ds : list (list byte * sockaddr)) :
  taken (map (fun d => Datagram (fst d) (snd d)) ds) = ds.
Proof.
  induction ds as [|[bytes a] ds IH]; [reflexivity|].
  cbn [map taken fst snd]. now rewrite IH.
Qed.

End ReceiveToPlay.

Section DeviceFacts.
Import Machine Buffer Player PcmRuns.
Variable host : byte_order.
Variable undef : F32.float -> Z.

Lemma framesOf_whole (data : list byte) :
  framesOf data (Z.of_nat (length data) / frameSize) = wholeSamples data.
Proof.
  unfold framesOf, wholeSamples. change frameSize with 2. f_equal.
  change 2 with (Z.of_nat 2) at 1. rewrite <- Nat2Z.inj_div. lia.
Qed.

Lemma wholeSamples_silence : wholeSamples silenceBuffer_ = silenceBuffer_.
Proof. reflexivity. Qed.

(** A call of [writeAudioData] on a playing player with an open device asks
    the device for the whole samples of the block, whatever it answers. *)
Lemma writeAudioData_requested (p : AudioPlayer) (data : list byte) (a : answer) :
  pcmHandle_ p = true -> isPlaying_ p = true -> data <> [] ->
  let p' := snd (writeAudioData p data a) in
  requested p' = requested p ++ [wholeSamples data]
  /\ pcmHandle_ p' = true /\ isPlaying_ p' = true
  /\ bufferManager_ p' = bufferManager_ p
  /\ volume_ p' = volume_ p /\ isMuted_ p' = isMuted_ p.
Proof.
  intros Hh Hp Hd. unfold writeAudioData. cbv zeta. rewrite Hh, Hp.
  cbn [negb orb].
  destruct (Z.eqb_spec (Z.of_nat (length data)) 0) as [E|_];
    [destruct data; [contradiction|simpl in E; lia]|].
  rewrite framesOf_whole.
  destruct (framesWritten a <? 0).
  - destruct (framesWritten a =? - EPIPE); [destruct (prepareError a <? 0)|];
      cbn; repeat split; assumption.
  - destruct (0 <? framesWritten a); [destruct (onAudioPlayed_ p) eqn:Ec|];
      cbn; rewrite ?Ec; cbn; repeat split; assumption.
Qed.

Lemma playbackTurn_device (p : AudioPlayer) :
  let p' := snd (playbackTurn host undef p) in
  pcmHandle_ p' = pcmHandle_ p /\ isPlaying_ p' = isPlaying_ p
  /\ requested p' = requested p.
Proof.
  unfold playbackTurn, getNextAudioData.
  destruct (bufferManager_ p) as [bm|]; [|auto].
  destruct (getNextPlaybackPacket bm) as [[pkt|] bm']; [|auto].
  destruct (data pkt); auto.
Qed.

Lemma playbackTurn_nonEmpty (p : AudioPlayer) :
  fst (playbackTurn host undef p) <> [].
Proof.
  assert (Hs : silenceBuffer_ <> []) by (vm_compute; discriminate).
  unfold playbackTurn, getNextAudioData.
  destruct (bufferManager_ p) as [bm|]; [|exact Hs].
  destruct (getNextPlaybackPacket bm) as [[pkt|] bm']; [|exact Hs].
  destruct (data pkt) as [|b0 bytes]; [exact Hs|].
  cbn [fst].
  assert (Hf : exists rest, firstn (Z.to_nat bufferSize) (b0 :: bytes) = b0 :: rest)
    by (change (Z.to_nat bufferSize) with (S 2047); rewrite firstn_cons; eauto).
  destruct Hf as (rest & ->).
  unfold processAudioData.
  destruct (negb (isMuted_ (setBufferManager p bm'))
            && Pcm.neqb (volume_ (setBufferManager p bm')) (F32.of_Z 1)).
  - unfold applyVolume. intros H.
    pose proof (scaleBytes_nonEmpty host undef
                  (volume_ (setBufferManager p bm')) (b0 :: rest)) as HL.
    rewrite H in HL. discriminate HL.
  - destruct (isMuted_ (setBufferManager p bm')); discriminate.
Qed.

(** A turn looks at the buffer manager, the volume and the mute flag
    only. *)
Lemma playbackTurn_ext (p q : AudioPlayer) :
  bufferManager_ p = bufferManager_ q -> volume_ p = volume_ q ->
  isMuted_ p = isMuted_ q ->
  let tp := playbackTurn host undef p in
  let tq := playbackTurn host undef q in
  fst tp = fst tq
  /\ bufferManager_ (snd tp) = bufferManager_ (snd tq)
  /\ volume_ (snd tp) = volume_ (snd tq)
  /\ isMuted_ (snd tp) = isMuted_ (snd tq).
Proof.
  intros Hb Hv Hm. unfold playbackTurn, getNextAudioData. rewrite <- Hb.
  destruct (bufferManager_ p) as [bm|] eqn:Eb;
    [|cbn [fst snd]; repeat split; congruence].
  destruct (getNextPlaybackPacket bm) as [[pkt|] bm'];
    [|cbn; repeat split; assumption].
  destruct (data pkt) as [|b0 bytes]; [cbn; repeat split; assumption|].
  cbn [fst snd]. unfold processAudioData, applyVolume, setBufferManager.
  cbn [bufferManager_ volume_ isMuted_]. rewrite Hv, Hm. repeat split.
Qed.

Lemma playbackLoop_ext (n : nat) (p q : AudioPlayer) :
  bufferManager_ p = bufferManager_ q -> volume_ p = volume_ q ->
  isMuted_ p = isMuted_ q ->
  playbackLoop host undef n p = playbackLoop host undef n q.
Proof.
  revert p q. induction n as [|n IH]; intros p q Hb Hv Hm; [reflexivity|].
  cbn [playbackLoop].
  destruct (playbackTurn_ext p q Hb Hv Hm) as (E & Hb' & Hv' & Hm').
  cbv zeta in *.
  destruct (playbackTurn host undef p) as [bp p'].
  destruct (playbackTurn host undef q) as [bq q'].
  cbn [fst snd] in *. subst bq. f_equal. now apply IH.
Qed.

(** The device is asked, turn by turn, for the whole samples of the block
    the turn passes to [writeAudioData]. *)
Lemma deviceLoop_requested (answers : list answer) (p : AudioPlayer) :
  pcmHandle_ p = true -> isPlaying_ p = true ->
  requested (deviceLoop host undef answers p)
  = requested p ++ map wholeSamples (playbackLoop host undef (length answers) p).
Proof.
  revert p. induction answers as [|a answers IH]; intros p Hh Hp.
  - cbn. now rewrite app_nil_r.
  - cbn [deviceLoop length playbackLoop]. rewrite Hp. unfold deviceTurn.
    pose proof (playbackTurn_nonEmpty p) as Hne.
    destruct (playbackTurn_device p) as (Eh & Ep & Er). cbv zeta in Eh, Ep, Er.
    destruct (playbackTurn host undef p) as [bytes p1]. cbn [fst snd] in *.
    rewrite Hh in Eh. rewrite Hp in Ep.
    destruct (writeAudioData_requested p1 bytes a Eh Ep Hne)
      as (Hr & Hh' & Hp' & Hb & Hv & Hm).
    cbv zeta in *.
    rewrite (IH _ Hh' Hp'), Hr, Er, <- app_assoc. cbn [map app].
    do 3 f_equal. now apply playbackLoop_ext.
Qed.

Lemma allZero_firstn (n : nat) (bytes : list byte) :
  allZero bytes = true -> allZero (firstn n bytes) = true.
Proof.
  revert n. induction bytes as [|b bytes IH]; intros [|n] H; try reflexivity.
  cbn [firstn]. unfold allZero in *. cbn [forallb] in *.
  apply andb_true_iff in H. destruct H as (Hb & Hr).
  rewrite Hb. now apply IH.
Qed.

(** A muted player asks the device for zero bytes only. *)
Lemma deviceLoop_muted (answers : list answer) (p : AudioPlayer) :
  pcmHandle_ p = true -> isPlaying_ p = true -> isMuted_ p = true ->
  forallb allZero (requested p) = true ->
  forallb allZero (requested (deviceLoop host undef answers p)) = true.
Proof.
  intros Hh Hp Hm Hr. rewrite deviceLoop_requested by assumption.
  rewrite forallb_app, Hr. cbn [andb].
  pose proof (playbackLoop_muted host undef (length answers) p Hm) as Hz.
  induction (playbackLoop host undef (length answers) p) as [|b bs IH];
    [reflexivity|].
  cbn [map forallb] in *. apply andb_true_iff in Hz. destruct Hz as (Hb & Hbs).
  unfold wholeSamples at 1. rewrite allZero_firstn by exact Hb. now apply IH.
Qed.

End DeviceFacts.

(** X24. The player plays its queue in arrival order and then silence.
    On a playing player with an open device and a buffer manager attached,
    the playback loop asks [snd_pcm_writei], turn by turn, to write: for
    each queued packet, oldest first, the whole 16-bit samples of the first
    2048 bytes of its payload after volume or mute (an odd last byte is not
    passed on), or the silence buffer for a packet without payload; and on
    every further turn the 2048 zero bytes of the silence buffer.  This is
    so whatever the device answers: a block that meets an underrun or an
    error is not offered again. *)
Theorem playback_is_fifo_then_silence (host : Machine.byte_order)
    (undef : F32.float -> Z) (p : Player.AudioPlayer) (bm : Buffer.BufferManager)
    (answers : list Player.answer) (k : nat) :
  Player.pcmHandle_ p = true ->
  Player.isPlaying_ p = true ->
  Player.bufferManager_ p = Some bm ->
  length answers = (length (Buffer.outputBuffer_ bm) + k)%nat ->
  Player.requested (Player.deviceLoop host undef answers p)
  = Player.requested p
    ++ map (fun pkt => PcmRuns.wholeSamples (PcmRuns.played host undef p pkt))
         (Buffer.outputBuffer_ bm)
    ++ repeat Player.silenceBuffer_ k.
Proof.
  intros Hh Hp Hbm Hlen.
  rewrite (deviceLoop_requested host undef answers p Hh Hp), Hlen.
  rewrite (playbackLoop_queue host undef _ k p bm Hbm eq_refl).
  rewrite map_app, map_map.
  assert (Hs : map PcmRuns.wholeSamples (repeat Player.silenceBuffer_ k)
               = repeat Player.silenceBuffer_ k).
  { clear. induction k as [|k IH]; [reflexivity|].
    cbn [repeat map]. rewrite IH, wholeSamples_silence. reflexivity. }
  rewrite Hs. reflexivity.
Qed.

Lemma playback_is_fifo_then_silence_witness :
  let bm :=
    BufferRuns.pushAllNetwork Buffer.new
      [Buffer.newAudioPacket [x01; x02; x03] 0; Buffer.newAudioPacket [] 1;
       Buffer.newAudioPacket [x04; x05] 2] in
  let answers :=
    [Player.mkAnswer 1 0; Player.mkAnswer (- 32) 0; Player.mkAnswer 1 0;
     Player.mkAnswer 1024 0; Player.mkAnswer (- 5) 0] in
  Player.requested
    (Player.deviceLoop Machine.LittleEndian unspecified answers (PcmRuns.started bm))
  = [[x01; x02]; Player.silenceBuffer_; [x04; x05];
     Player.silenceBuffer_; Player.silenceBuffer_].
Proof.
  exact (playback_is_fifo_then_silence Machine.LittleEndian unspecified
           (PcmRuns.started
              (BufferRuns.pushAllNetwork Buffer.new
                 [Buffer.newAudioPacket [x01; x02; x03] 0; Buffer.newAudioPacket [] 1;
                  Buffer.newAudioPacket [x04; x05] 2]))
           (BufferRuns.pushAllNetwork Buffer.new
              [Buffer.newAudioPacket [x01; x02; x03] 0; Buffer.newAudioPacket [] 1;
               Buffer.newAudioPacket [x04; x05] 2])
           [Player.mkAnswer 1 0; Player.mkAnswer (- 32) 0; Player.mkAnswer 1 0;
            Player.mkAnswer 1024 0; Player.mkAnswer (- 5) 0]
           2 eq_refl eq_refl eq_refl eq_refl).
Defined.

(** X30. What is received is played.  A running receiver whose buffer
    manager has an empty playback queue takes the datagrams of a sender of
    the same byte order, at most as many as the buffer holds, each with a
    payload of 1 to 2044 bytes; a started player with the default volume
    that is attached to the same buffer manager then asks the device to
    write those payloads in the order sent, each up to its last whole
    16-bit sample (an odd last byte is not passed on), and silence
    afterwards. *)
Theorem received_audio_is_played (host : Machine.byte_order) (undef : F32.float -> Z)
    (r : Udp.UDPManager) (bm : Buffer.BufferManager) (ps : list Buffer.AudioPacket)
    (fromAddr : Udp.sockaddr) (answers : list Player.answer) (k : nat) :
  Udp.isRunning_ r = true ->
  Udp.bufferManager_ r = Some bm ->
  Buffer.outputBuffer_ bm = [] ->
  Z.of_nat (length ps) <= Buffer.maxBufferSize_ bm ->
  Forall (fun p => (1 <= length (Buffer.data p) <= 2044)%nat) ps ->
  length answers = (length ps + k)%nat ->
  exists bm',
    Udp.bufferManager_
      (Udp.receiverLoop host r
         (map (fun p => Udp.Datagram (Udp.serializePacket host (Some p)) fromAddr) ps))
    = Some bm'
    /\ Player.requested
         (Player.deviceLoop host undef answers (PcmRuns.started bm'))
       = map (fun p => PcmRuns.wholeSamples (Buffer.data p)) ps
         ++ repeat Player.silenceBuffer_ k.
Proof.
  intros Hrun Hbm Hq HK Hps Hans.
  eexists. split; [apply (receiverLoop_buffer host _ r bm Hrun Hbm)|].
  replace (map (fun p => Udp.Datagram (Udp.serializePacket host (Some p)) fromAddr) ps)
    with (map (fun d => Udp.Datagram (fst d) (snd d))
            (map (fun p => (Udp.serializePacket host (Some p), fromAddr)) ps))
    by (rewrite map_map; reflexivity).
  rewrite taken_datagrams.
  set (received :=
         flat_map (UdpRuns.parsed host)
           (map (fun p => (Udp.serializePacket host (Some p), fromAddr)) ps)).
  assert (Hrec : received
                 = map (fun p => Buffer.newAudioPacket (Buffer.data p)
                                   (Buffer.sequenceNumber p)) ps).
  { unfold received. clear - Hps. induction Hps as [|p ps Hp _ IH]; [reflexivity|].
    cbn [map flat_map]. rewrite parsed_serializePacket, IH.
    rewrite firstn_all2 by lia. reflexivity. }
  assert (Hlen : length received = length ps)
    by (rewrite Hrec; apply length_map).
  destruct (pushAllNetwork_room received bm Hq) as (_ & Hout); [lia|].
  set (bm' := BufferRuns.pushAllNetwork bm received) in *.
  rewrite (deviceLoop_requested host undef answers (PcmRuns.started bm')
             eq_refl eq_refl).
  change (Player.requested (PcmRuns.started bm')) with (@nil (list byte)).
  cbn [app]. rewrite Hans, <- Hlen. rewrite <- Hout at 1.
  rewrite (playbackLoop_queue host undef (Buffer.outputBuffer_ bm') k
             (PcmRuns.started bm') bm' eq_refl eq_refl).
  assert (Hs : map PcmRuns.wholeSamples (repeat Player.silenceBuffer_ k)
               = repeat Player.silenceBuffer_ k).
  { clear. induction k as [|k IH]; [reflexivity|].
    cbn [repeat map]. rewrite IH, wholeSamples_silence. reflexivity. }
  rewrite Hout, Hrec, map_app, !map_map, Hs. f_equal.
  apply map_ext_in. intros p Hin.
  rewrite Forall_forall in Hps. specialize (Hps p Hin).
  unfold PcmRuns.played. cbn [Buffer.data Buffer.newAudioPacket].
  destruct (Buffer.data p) as [|b0 bytes] eqn:Ed; [simpl in Hps; lia|].
  rewrite firstn_all2 by (change (Z.to_nat Player.bufferSize) with 2048%nat; lia).
  reflexivity.
Qed.

Lemma received_audio_is_played_witness :
  let ps :=
    [Buffer.newAudioPacket [x11; x22] 7; Buffer.newAudioPacket [x33] 8;
     Buffer.newAudioPacket [x44; x55; x66] 9] in
  let answers :=
    [Player.mkAnswer 1 0; Player.mkAnswer 0 0; Player.mkAnswer 1 0;
     Player.mkAnswer 1024 0] in
  exists bm',
    Udp.bufferManager_
      (Udp.receiverLoop Machine.LittleEndian
         (Udp.withBuffer (snd (Udp.startServer Udp.new (Some 3))) Buffer.new)
         (map (fun p => Udp.Datagram
                          (Udp.serializePacket Machine.LittleEndian (Some p)) (1, 2))
            ps))
    = Some bm'
    /\ Player.requested
         (Player.deviceLoop Machine.LittleEndian unspecified answers
            (PcmRuns.started bm'))
       = [[x11; x22]; []; [x44; x55]; Player.silenceBuffer_].
Proof.
  apply (received_audio_is_played Machine.LittleEndian unspecified
           (Udp.withBuffer (snd (Udp.startServer Udp.new (Some 3))) Buffer.new)
           Buffer.new
           [Buffer.newAudioPacket [x11; x22] 7; Buffer.newAudioPacket [x33] 8;
            Buffer.newAudioPacket [x44; x55; x66] 9]
           (1, 2)
           [Player.mkAnswer 1 0; Player.mkAnswer 0 0; Player.mkAnswer 1 0;
            Player.mkAnswer 1024 0]
           1).
  - reflexivity.
  - reflexivity.
  - reflexivity.
  - vm_compute. discriminate.
  - repeat constructor.
  - reflexivity.
Defined.
